(** * Treasure marketplace subgraph: the event mapping of [src/mapping.ts]

    A shallow embedding of the AssemblyScript mapping: the price formatter,
    the floor-price recalculator [updateCollectionFloorAndTotal] and the
    listing lifecycle handlers, over an explicit entity store. *)

From Stdlib Require Import ZArith String Ascii List Lia.
From stdpp Require Import base gmap strings list fin_maps pretty.

Local Open Scope string_scope.
Local Open Scope Z_scope.

(** ** Primitive values of graph-ts *)

(** [BigInt] is an arbitrary-precision signed integer: [Z].  [Address] and
    [Bytes] values are only ever used through [toHexString]. *)
Abbreviation BigInt := Z (only parsing).

Record Bytes := mkBytes { toHexString : string }.
Definition Address := Bytes.

(** [BigInt.toString]: the decimal representation. *)
Definition BigInt_toString (n : BigInt) : string := pretty n.

(** ** Strings, as AssemblyScript has them *)

Module Str.

(** Clamping of a [slice] bound: a negative bound counts from the end. *)
Definition clamp (len i : Z) : Z :=
  if i <? 0 then Z.max (i + len) 0 else Z.min i len.

(** [s.slice(b, e)]. *)
Definition slice (s : string) (b e : Z) : string :=
  let len := Z.of_nat (String.length s) in
  let b' := clamp len b in
  let e' := clamp len e in
  if e' - b' <=? 0 then ""
  else substring (Z.to_nat b') (Z.to_nat (e' - b')) s.

(** [s.slice(b)]: the end bound defaults to the length. *)
Definition slice_from (s : string) (b : Z) : string :=
  slice s b (Z.of_nat (String.length s)).

(** [s.split(c)] for a one-character separator [c]: the pieces between
    the occurrences of [c]; [go] carries the piece being read, reversed. *)
Fixpoint split_go (c : ascii) (s : string) (cur : string) : list string :=
  match s with
  | EmptyString => [String.rev cur]
  | String a s' =>
      if Ascii.eqb a c then String.rev cur :: split_go c s' EmptyString
      else split_go c s' (String a cur)
  end.

Definition split (c : ascii) (s : string) : list string :=
  split_go c s EmptyString.

(** [l.join("")]. *)
Definition join (l : list string) : string := String.concat "" l.

(** What [split] followed by [join("")] amounts to: dropping [c]. *)
Fixpoint remove_char (c : ascii) (s : string) : string :=
  match s with
  | EmptyString => EmptyString
  | String a s' =>
      if Ascii.eqb a c then remove_char c s' else String a (remove_char c s')
  end.

End Str.

(** ** formatPrice (mapping.ts, lines 34-47) *)

Definition formatPrice (number : BigInt) : string :=
  if Z.eqb number 0 then "0"
  else
    let input := BigInt_toString number in
    let value := Str.slice input 0 (-18) in
    let decimals := Str.join (Str.split "0"%char (Str.slice_from input (-18))) in
    Str.join [value; if (0 <? Z.of_nat (String.length decimals)) then "." else ""; decimals].

(** ** Entities (generated schema)

    The schema classes are generated code, not among the sources.  Their
    fields are the ones the mapping reads or writes, named as there.  A
    field that may be unset ([Token.floorPrice], [Listing.buyer], ...) is
    an [option]; [status] and [standard] are strings the code compares with
    ["Active"], ["Sold"] and ["ERC1155"], unset on a fresh entity. *)

(** Modelled from the spec: the Collection entity (display name, standard,
    floor price, total active listing count, listing index). *)
Module Collection.
Record t := mk {
  id : string;
  name : string;
  standard : option string;
  floorPrice : BigInt;
  totalListings : BigInt;
  listingIds : list string
}.

Definition set_floorPrice (v : BigInt) (c : t) : t :=
  mk (id c) (name c) (standard c) v (totalListings c) (listingIds c).
Definition set_totalListings (v : BigInt) (c : t) : t :=
  mk (id c) (name c) (standard c) (floorPrice c) v (listingIds c).
Definition set_listingIds (v : list string) (c : t) : t :=
  mk (id c) (name c) (standard c) (floorPrice c) (totalListings c) v.
End Collection.

(** Modelled from the spec: the Token entity (owning collection, display
    name, floor price). *)
Module Token.
Record t := mk {
  id : string;
  collection : string;
  name : string;
  floorPrice : option BigInt
}.

Definition set_floorPrice (v : BigInt) (k : t) : t :=
  mk (id k) (collection k) (name k) (Some v).
End Token.

(** Modelled from the spec: the Listing entity (status, seller, price per
    item, quantity, expiration, block timestamp, back-references and
    display names, and, once sold, buyer, total price, price string and
    transaction link). *)
Module Listing.
Record t := mk {
  id : string;
  status : option string;
  user : string;
  buyer : option string;
  pricePerItem : BigInt;
  quantity : BigInt;
  expires : BigInt;
  blockTimestamp : BigInt;
  collection : string;
  collectionName : string;
  token : string;
  tokenName : string;
  nicePrice : option string;
  totalPrice : option string;
  transactionLink : option string
}.

Definition set_quantity (v : BigInt) (l : t) : t :=
  mk (id l) (status l) (user l) (buyer l) (pricePerItem l) v (expires l)
     (blockTimestamp l) (collection l) (collectionName l) (token l)
     (tokenName l) (nicePrice l) (totalPrice l) (transactionLink l).
Definition set_pricePerItem (v : BigInt) (l : t) : t :=
  mk (id l) (status l) (user l) (buyer l) v (quantity l) (expires l)
     (blockTimestamp l) (collection l) (collectionName l) (token l)
     (tokenName l) (nicePrice l) (totalPrice l) (transactionLink l).
Definition set_expires (v : BigInt) (l : t) : t :=
  mk (id l) (status l) (user l) (buyer l) (pricePerItem l) (quantity l) v
     (blockTimestamp l) (collection l) (collectionName l) (token l)
     (tokenName l) (nicePrice l) (totalPrice l) (transactionLink l).
Definition set_blockTimestamp (v : BigInt) (l : t) : t :=
  mk (id l) (status l) (user l) (buyer l) (pricePerItem l) (quantity l)
     (expires l) v (collection l) (collectionName l) (token l)
     (tokenName l) (nicePrice l) (totalPrice l) (transactionLink l).

(** [listing.status == "Active"] *)
Definition isActive (l : t) : bool := bool_decide (status l = Some "Active").
End Listing.

(** Modelled from the spec: the UserToken entity (quantity not currently
    listed, token and user references). *)
Module UserToken.
Record t := mk {
  id : string;
  quantity : BigInt;
  token : string;
  user : string
}.

Definition set_quantity (v : BigInt) (u : t) : t :=
  mk (id u) v (token u) (user u).
End UserToken.

(** Modelled from the spec: the User entity, of which the mapping uses
    nothing but the accessor. *)
Module User.
Record t := mk { id : string }.
End User.

(** ** The entity store

    The durable store, one keyed table per entity kind.  [save] writes an
    entity under its own [id]; [store.remove] deletes by kind and key. *)

Record Store := mkStore {
  collections : gmap string Collection.t;
  tokens : gmap string Token.t;
  listings : gmap string Listing.t;
  userTokens : gmap string UserToken.t;
  users : gmap string User.t
}.

Definition empty_store : Store := mkStore ∅ ∅ ∅ ∅ ∅.

Definition Collection_load (id : string) (st : Store) : option Collection.t :=
  collections st !! id.
Definition Token_load (id : string) (st : Store) : option Token.t :=
  tokens st !! id.
Definition Listing_load (id : string) (st : Store) : option Listing.t :=
  listings st !! id.
Definition UserToken_load (id : string) (st : Store) : option UserToken.t :=
  userTokens st !! id.
Definition User_load (id : string) (st : Store) : option User.t :=
  users st !! id.

Definition Collection_save (c : Collection.t) (st : Store) : Store :=
  mkStore (<[Collection.id c := c]> (collections st)) (tokens st)
          (listings st) (userTokens st) (users st).
Definition Token_save (k : Token.t) (st : Store) : Store :=
  mkStore (collections st) (<[Token.id k := k]> (tokens st))
          (listings st) (userTokens st) (users st).
Definition Listing_save (l : Listing.t) (st : Store) : Store :=
  mkStore (collections st) (tokens st)
          (<[Listing.id l := l]> (listings st)) (userTokens st) (users st).
Definition UserToken_save (u : UserToken.t) (st : Store) : Store :=
  mkStore (collections st) (tokens st) (listings st)
          (<[UserToken.id u := u]> (userTokens st)) (users st).

Definition store_remove_Listing (id : string) (st : Store) : Store :=
  mkStore (collections st) (tokens st)
          (delete id (listings st)) (userTokens st) (users st).
Definition store_remove_UserToken (id : string) (st : Store) : Store :=
  mkStore (collections st) (tokens st) (listings st)
          (delete id (userTokens st)) (users st).

(** ** helpers.ts *)

(** Modelled from the spec: [ZERO_BI] of helpers.ts, which is not among the
    sources; the zero numeric singleton. *)
Definition ZERO_BI : BigInt := 0.

(** Modelled from the spec: [ONE_BI] of helpers.ts, the one numeric
    singleton. *)
Definition ONE_BI : BigInt := 1.

(** Modelled from the spec: [EXPLORER] of helpers.ts, the fixed
    block-explorer host of the transaction link. *)
Definition EXPLORER : string := "<explorer-host>".

(** Modelled from the spec: [getListingId] of helpers.ts, an
    order-sensitive concatenation of seller, contract and token id into one
    string key. *)
Definition getListingId (seller tokenAddress : Address) (tokenId : BigInt) : string :=
  Str.join [toHexString seller; "-"; toHexString tokenAddress; "-";
            BigInt_toString tokenId].
(** Modelled from the spec: [getTokenId] of helpers.ts, the like
    concatenation of contract and token id. *)
Definition getTokenId (tokenAddress : Address) (tokenId : BigInt) : string :=
  Str.join [toHexString tokenAddress; "-"; BigInt_toString tokenId].

(** The entity accessors of helpers.ts.  Each loads the entity by key and,
    if absent, builds it with zero/empty defaults (zero price, zero
    quantity, empty listing index, status undefined) and returns that
    instance without persisting it.  An accessor never yields an absent
    value. *)

(** Modelled from the spec: the default Collection of
    [getOrCreateCollection], with zero floor price and count and an empty
    listing index. *)
Definition new_Collection (id : string) : Collection.t :=
  Collection.mk id "" None ZERO_BI ZERO_BI [].

(** Modelled from the spec: the default Token of [getOrCreateToken]. *)
Definition new_Token (id : string) : Token.t :=
  Token.mk id "" "" None.

(** Modelled from the spec: the default Listing of [getOrCreateListing],
    with zero price, quantity, expiration and timestamp, and no status. *)
Definition new_Listing (id : string) : Listing.t :=
  Listing.mk id None "" None ZERO_BI ZERO_BI ZERO_BI ZERO_BI "" "" "" ""
             None None None.

(** Modelled from the spec: the default UserToken of
    [getOrCreateUserToken], with zero quantity. *)
Definition new_UserToken (id : string) : UserToken.t :=
  UserToken.mk id ZERO_BI "" "".

(** Modelled from the spec: the default User of [getOrCreateUser]. *)
Definition new_User (id : string) : User.t := User.mk id.

(** Modelled from the spec: [getOrCreateCollection] of helpers.ts. *)
Definition getOrCreateCollection (id : string) (st : Store) : Collection.t :=
  default (new_Collection id) (Collection_load id st).

(** Modelled from the spec: [getOrCreateToken] of helpers.ts. *)
Definition getOrCreateToken (id : string) (st : Store) : Token.t :=
  default (new_Token id) (Token_load id st).

(** Modelled from the spec: [getOrCreateListing] of helpers.ts. *)
Definition getOrCreateListing (id : string) (st : Store) : Listing.t :=
  default (new_Listing id) (Listing_load id st).

(** Modelled from the spec: [getOrCreateUserToken] of helpers.ts. *)
Definition getOrCreateUserToken (id : string) (st : Store) : UserToken.t :=
  default (new_UserToken id) (UserToken_load id st).

(** Modelled from the spec: [getOrCreateUser] of helpers.ts. *)
Definition getOrCreateUser (id : string) (st : Store) : User.t :=
  default (new_User id) (User_load id st).

(** ** Events (generated contract bindings)

    An event carries its parameters, the timestamp of its block, its log
    index and the hash of its transaction. *)

Record Event (P : Type) := mkEvent {
  params : P;
  block_timestamp : BigInt;
  logIndex : BigInt;
  transaction_hash : Bytes
}.
Arguments mkEvent {P} _ _ _ _.
Arguments params {P} _.
Arguments block_timestamp {P} _.
Arguments logIndex {P} _.
Arguments transaction_hash {P} _.

Module ItemListed.
Record t := mk {
  seller : Address;
  nftAddress : Address;
  tokenId : BigInt;
  quantity : BigInt;
  pricePerItem : BigInt;
  expirationTime : BigInt
}.
End ItemListed.

Module ItemUpdated.
Record t := mk {
  seller : Address;
  nftAddress : Address;
  tokenId : BigInt;
  quantity : BigInt;
  pricePerItem : BigInt;
  expirationTime : BigInt
}.
End ItemUpdated.

Module ItemCanceled.
Record t := mk {
  seller : Address;
  nftAddress : Address;
  tokenId : BigInt
}.
End ItemCanceled.

Module ItemSold.
Record t := mk {
  seller : Address;
  buyer : Address;
  nftAddress : Address;
  tokenId : BigInt;
  quantity : BigInt;
  pricePerItem : BigInt
}.
End ItemSold.

(** ** TypedMap<string, BigInt> of graph-ts

    An array of entries: [get] finds the first entry of a key, [set]
    overwrites it in place or pushes a new entry at the end. *)

Definition TypedMap := list (string * BigInt).

Fixpoint TypedMap_get (key : string) (m : TypedMap) : option BigInt :=
  match m with
  | [] => None
  | (k, v) :: m' => if String.eqb k key then Some v else TypedMap_get key m'
  end.

Fixpoint TypedMap_set (key : string) (value : BigInt) (m : TypedMap) : TypedMap :=
  match m with
  | [] => [(key, value)]
  | (k, v) :: m' =>
      if String.eqb k key then (k, value) :: m'
      else (k, v) :: TypedMap_set key value m'
  end.

(** ** updateCollectionFloorAndTotal (mapping.ts, lines 49-108) *)

(** [ids.slice(0, index).concat(ids.slice(index + 1))] *)
Definition removeAt (index : nat) (ids : list string) : list string :=
  take index ids ++ drop (S index) ids.

(** [floorPrice.isZero() || floorPrice.gt(pricePerItem)] *)
Definition lowersFloor (floorPrice pricePerItem : BigInt) : bool :=
  (floorPrice =? 0) || (floorPrice >? pricePerItem).

(** The body of the first loop (lines 66-90) for the entry [listingId]
    read at position [index].  The loop state is the collection object and
    the per-token map; the store is only read. *)
Definition scanEntry (st : Store) (listingId : string)
    (acc : Collection.t * TypedMap) (index : nat) : Collection.t * TypedMap :=
  let '(collection, floorPrices) := acc in
  let pruned :=
    (Collection.set_listingIds
       (removeAt index (Collection.listingIds collection)) collection,
     floorPrices) in
  match Listing_load listingId st with
  | Some listing =>
      if Listing.isActive listing then
        let floorPrice := Collection.floorPrice collection in
        let pricePerItem := Listing.pricePerItem listing in
        let floorPrices' :=
          if bool_decide (Collection.standard collection = Some "ERC1155") then
            match TypedMap_get (Listing.token listing) floorPrices with
            | None => TypedMap_set (Listing.token listing) pricePerItem floorPrices
            | Some tokenFloorPrice =>
                if tokenFloorPrice >? pricePerItem
                then TypedMap_set (Listing.token listing) pricePerItem floorPrices
                else floorPrices
            end
          else floorPrices in
        let collection' :=
          if lowersFloor floorPrice pricePerItem
          then Collection.set_floorPrice pricePerItem collection
          else collection in
        (collection', floorPrices')
      else pruned
  | None => pruned
  end.

(** One turn of the first loop, at position [index] of the array
    [listings] read before the loop ([listings[index]]). *)
Definition scanStep (st : Store) (listings : list string)
    (acc : Collection.t * TypedMap) (index : nat) : Collection.t * TypedMap :=
  match listings !! index with
  | Some listingId => scanEntry st listingId acc index
  | None => acc
  end.

(** The first loop: [index] runs over [0 .. listings.length - 1]. *)
Definition scanListings (st : Store) (listings : list string)
    (collection : Collection.t) : Collection.t * TypedMap :=
  foldl (scanStep st listings) (collection, []) (seq 0 (length listings)).

(** The second loop (lines 95-103): a token that exists gets its
    recomputed floor price and is saved. *)
Definition saveTokenFloor (st : Store) (entry : string * BigInt) : Store :=
  match Token_load (fst entry) st with
  | Some token => Token_save (Token.set_floorPrice (snd entry) token) st
  | None => st
  end.

Definition updateCollectionFloorAndTotal (id : Address) (st : Store) : Store :=
  match Collection_load (toHexString id) st with
  | None => st
  | Some collection =>
      let listings := Collection.listingIds collection in
      let collection := Collection.set_floorPrice ZERO_BI collection in
      let '(collection, floorPrices) := scanListings st listings collection in
      let st := foldl saveTokenFloor st floorPrices in
      let collection :=
        Collection.set_totalListings
          (Z.of_nat (length (Collection.listingIds collection))) collection in
      Collection_save collection st
  end.

(** ** handleItemCanceled (mapping.ts, lines 110-142)

    The three null guards never fire: the accessors always yield an
    entity. *)
Definition handleItemCanceled (event : Event ItemCanceled.t) (st : Store) : Store :=
  let params := params event in
  let seller := ItemCanceled.seller params in
  let listing :=
    getOrCreateListing
      (getListingId seller (ItemCanceled.nftAddress params)
                    (ItemCanceled.tokenId params)) st in
  let user := getOrCreateUser (toHexString seller) st in
  let userToken := getOrCreateUserToken (Listing.id listing) st in
  let userToken :=
    UserToken.mk (UserToken.id userToken)
      (UserToken.quantity userToken + Listing.quantity listing)
      (Listing.token listing) (Listing.user listing) in
  let st := store_remove_Listing (Listing.id listing) st in
  let st := UserToken_save userToken st in
  updateCollectionFloorAndTotal (ItemCanceled.nftAddress params) st.

(** ** handleItemListed (mapping.ts, lines 144-199) *)

(** Lines 162-172: in an ERC1155 collection, a token without a floor price,
    or with one above the listed price, takes the listed price and is
    saved. *)
Definition lowerTokenFloor (collection : Collection.t) (token : Token.t)
    (pricePerItem : BigInt) (st : Store) : Token.t * Store :=
  if bool_decide (Collection.standard collection = Some "ERC1155") then
    match Token.floorPrice token with
    | None =>
        let token := Token.set_floorPrice pricePerItem token in
        (token, Token_save token st)
    | Some tokenFloorPrice =>
        if tokenFloorPrice >? pricePerItem then
          let token := Token.set_floorPrice pricePerItem token in
          (token, Token_save token st)
        else (token, st)
    end
  else (token, st).

Definition handleItemListed (event : Event ItemListed.t) (st : Store) : Store :=
  let params := params event in
  let pricePerItem := ItemListed.pricePerItem params in
  let quantity := ItemListed.quantity params in
  let tokenAddress := ItemListed.nftAddress params in
  let tokenId := ItemListed.tokenId params in
  let seller := ItemListed.seller params in
  let listing := getOrCreateListing (getListingId seller tokenAddress tokenId) st in
  let token := getOrCreateToken (getTokenId tokenAddress tokenId) st in
  let collection := getOrCreateCollection (Token.collection token) st in
  let floorPrice := Collection.floorPrice collection in
  let collection :=
    if lowersFloor floorPrice pricePerItem
    then Collection.set_floorPrice pricePerItem collection
    else collection in
  let '(token, st) := lowerTokenFloor collection token pricePerItem st in
  let collection :=
    Collection.set_listingIds
      (Collection.listingIds collection ++ [Listing.id listing]) collection in
  let collection :=
    Collection.set_totalListings
      (Collection.totalListings collection + ONE_BI) collection in
  let listing :=
    Listing.mk (Listing.id listing) (Some "Active") (toHexString seller)
      (Listing.buyer listing) pricePerItem quantity
      (ItemListed.expirationTime params) (block_timestamp event)
      (Token.collection token) (Collection.name collection)
      (Token.id token) (Token.name token)
      (Listing.nicePrice listing) (Listing.totalPrice listing)
      (Listing.transactionLink listing) in
  let userToken := getOrCreateUserToken (Listing.id listing) st in
  let st :=
    if UserToken.quantity userToken =? quantity
    then store_remove_UserToken (Listing.id listing) st
    else UserToken_save
           (UserToken.set_quantity (UserToken.quantity userToken - quantity)
                                   userToken) st in
  let st := Collection_save collection st in
  Listing_save listing st.

(** ** handleItemSold (mapping.ts, lines 201-255)

    [soldId] is the template string [`${id}-${n}`].  The guard
    [if (!listing) return] never fires, and [sold.quantity] is always set,
    so the conditional of line 235 takes its first branch. *)
Definition soldId (id : string) (n : BigInt) : string :=
  Str.join [id; "-"; BigInt_toString n].

Definition transactionLinkOf (hash : Bytes) : string :=
  Str.join ["https://"; EXPLORER; "/tx/"; toHexString hash].

(** Lines 223-254: with [listing] as lines 215-221 left it, drop a record
    under the log-index key, then create or continue the Sold record and
    recompute the collection. *)
Definition recordSale (event : Event ItemSold.t) (listing : Listing.t)
    (st : Store) : Store :=
  let params := params event in
  let quantity := ItemSold.quantity params in
  let seller := ItemSold.seller params in
  let buyer := ItemSold.buyer params in
  let st :=
    match Listing_load (soldId (Listing.id listing) (logIndex event)) st with
    | Some _ =>
        store_remove_Listing (soldId (Listing.id listing) (logIndex event)) st
    | None => st
    end in
  let sold :=
    getOrCreateListing
      (soldId (Listing.id listing) (Listing.blockTimestamp listing)) st in
  let pricePerItem := Listing.pricePerItem listing in
  let updatedQuantity := Listing.quantity sold + quantity in
  let sold :=
    Listing.mk (Listing.id sold) (Some "Sold") (toHexString seller)
      (Some (toHexString buyer)) pricePerItem updatedQuantity ZERO_BI
      (block_timestamp event) (Listing.collection listing)
      (Listing.collectionName listing) (Listing.token listing)
      (Listing.tokenName listing) (Some (formatPrice pricePerItem))
      (Some (formatPrice (pricePerItem * updatedQuantity)))
      (Some (transactionLinkOf (transaction_hash event))) in
  let st := Listing_save sold st in
  updateCollectionFloorAndTotal (ItemSold.nftAddress params) st.

Definition handleItemSold (event : Event ItemSold.t) (st : Store) : Store :=
  let params := params event in
  let quantity := ItemSold.quantity params in
  let seller := ItemSold.seller params in
  let listing :=
    getOrCreateListing
      (getListingId seller (ItemSold.nftAddress params)
                    (ItemSold.tokenId params)) st in
  if Listing.quantity listing =? quantity
  then recordSale event listing
         (store_remove_Listing (Listing.id listing) st)
  else
    let listing :=
      Listing.set_quantity (Listing.quantity listing - quantity) listing in
    recordSale event listing (Listing_save listing st).

(** ** handleItemUpdated (mapping.ts, lines 257-301) *)
Definition handleItemUpdated (event : Event ItemUpdated.t) (st : Store) : Store :=
  let params := params event in
  let listingId :=
    getListingId (ItemUpdated.seller params) (ItemUpdated.nftAddress params)
                 (ItemUpdated.tokenId params) in
  match Listing_load listingId st with
  | None => st
  | Some listing =>
      let st :=
        if negb (Listing.quantity listing =? ItemUpdated.quantity params) then
          let userToken := getOrCreateUserToken (Listing.id listing) st in
          let userToken :=
            UserToken.set_quantity
              (UserToken.quantity userToken
               + (Listing.quantity listing - ItemUpdated.quantity params))
              userToken in
          if UserToken.quantity userToken =? ZERO_BI
          then store_remove_UserToken (UserToken.id userToken) st
          else
            UserToken_save
              (UserToken.mk (UserToken.id userToken)
                 (UserToken.quantity userToken)
                 (Listing.token listing) (Listing.user listing)) st
        else st in
      let listing :=
        if negb (Listing.pricePerItem listing =? ItemUpdated.pricePerItem params)
        then Listing.set_blockTimestamp (block_timestamp event) listing
        else listing in
      let listing := Listing.set_quantity (ItemUpdated.quantity params) listing in
      let listing :=
        Listing.set_pricePerItem (ItemUpdated.pricePerItem params) listing in
      let listing :=
        Listing.set_expires (ItemUpdated.expirationTime params) listing in
      let st := Listing_save listing st in
      updateCollectionFloorAndTotal (ItemUpdated.nftAddress params) st
  end.

(** ** handleItemSoldStaging (mapping.ts, lines 303-319) *)
Definition handleItemSoldStaging (event : Event ItemSold.t) (st : Store) : Store :=
  let params := params event in
  let buyer := ItemSold.buyer params in
  match UserToken_load
          (getListingId buyer (ItemSold.nftAddress params)
                        (ItemSold.tokenId params)) st with
  | Some userToken =>
      if ItemSold.quantity params =? UserToken.quantity userToken
      then store_remove_UserToken (UserToken.id userToken) st
      else
        UserToken_save
          (UserToken.set_quantity
             (UserToken.quantity userToken - ItemSold.quantity params)
             userToken) st
  | None => st
  end.

(** ** The inert handlers (mapping.ts, lines 321-329) *)
Definition handleOwnershipTransferred (st : Store) : Store := st.
Definition handleUpdateFee (st : Store) : Store := st.
Definition handleUpdateFeeRecipient (st : Store) : Store := st.
Definition handleUpdateOracle (st : Store) : Store := st.
Definition handleUpdatePaymentToken (st : Store) : Store := st.

(** ** The event stream

    One constructor per exported handler; the engine handles one event to
    completion before the next. *)
Inductive MarketEvent :=
| EvItemListed (e : Event ItemListed.t)
| EvItemUpdated (e : Event ItemUpdated.t)
| EvItemCanceled (e : Event ItemCanceled.t)
| EvItemSold (e : Event ItemSold.t)
| EvItemSoldStaging (e : Event ItemSold.t)
| EvOwnershipTransferred
| EvUpdateFee
| EvUpdateFeeRecipient
| EvUpdateOracle
| EvUpdatePaymentToken.

Definition handle (ev : MarketEvent) (st : Store) : Store :=
  match ev with
  | EvItemListed e => handleItemListed e st
  | EvItemUpdated e => handleItemUpdated e st
  | EvItemCanceled e => handleItemCanceled e st
  | EvItemSold e => handleItemSold e st
  | EvItemSoldStaging e => handleItemSoldStaging e st
  | EvOwnershipTransferred => handleOwnershipTransferred st
  | EvUpdateFee => handleUpdateFee st
  | EvUpdateFeeRecipient => handleUpdateFeeRecipient st
  | EvUpdateOracle => handleUpdateOracle st
  | EvUpdatePaymentToken => handleUpdatePaymentToken st
  end.

(** Processing an event sequence, oldest event first. *)
Definition replay (evs : list MarketEvent) (st : Store) : Store :=
  foldl (fun st ev => handle ev st) st evs.

(** * Specification vocabulary *)

(** ** Well-formed stores

    The store keeps every entity under its own [id]: [save] writes there,
    and [new Entity(id)] takes the key as [id]. *)

Definition keyed {A : Type} (idOf : A → string) (m : gmap string A) : Prop :=
  map_Forall (λ k x, idOf x = k) m.

Definition store_wf (st : Store) : Prop :=
  keyed Collection.id (collections st)
  ∧ keyed Token.id (tokens st)
  ∧ keyed Listing.id (listings st)
  ∧ keyed UserToken.id (userTokens st).

(** The same, as a check that runs on a concrete store. *)
Definition keyedb {A : Type} (idOf : A → string) (m : gmap string A) : bool :=
  forallb (λ kx : string * A, String.eqb (idOf kx.2) kx.1) (map_to_list m).

Definition store_wfb (st : Store) : bool :=
  keyedb Collection.id (collections st)
  && keyedb Token.id (tokens st)
  && keyedb Listing.id (listings st)
  && keyedb UserToken.id (userTokens st).

(** ** Floor prices *)

(** The update rule shared by the recalculator and [handleItemListed]. *)
Definition floorStep (floorPrice pricePerItem : BigInt) : BigInt :=
  if lowersFloor floorPrice pricePerItem then pricePerItem else floorPrice.

(** [m] is the minimum of [ps], or zero if there is none. *)
Definition is_min_or_zero (ps : list BigInt) (m : BigInt) : Prop :=
  match ps with
  | [] => m = 0
  | _ :: _ => m ∈ ps ∧ Forall (λ p, m ≤ p) ps
  end.

(** The price of the listing stored under [id], if it is Active. *)
Definition activePrice (st : Store) (id : string) : option BigInt :=
  match Listing_load id st with
  | Some listing =>
      if Listing.isActive listing then Some (Listing.pricePerItem listing)
      else None
  | None => None
  end.

(** The prices of the Active listings a listing index refers to. *)
Definition indexedActivePrices (st : Store) (ids : list string) : list BigInt :=
  omap (activePrice st) ids.

(** The prices of all stored Active listings that reference collection
    [cid]. *)
Definition referencingActivePrices (st : Store) (cid : string) : list BigInt :=
  (λ kl, Listing.pricePerItem kl.2) <$>
    filter (λ kl : string * Listing.t,
              Listing.isActive kl.2 ∧ Listing.collection kl.2 = cid)
           (map_to_list (listings st)).

(** Floor correctness, over all stored listings. *)
Definition floor_correct (st : Store) : Prop :=
  ∀ cid c, Collection_load cid st = Some c →
    is_min_or_zero (referencingActivePrices st cid) (Collection.floorPrice c).

(** Every entry of the index of collection [cid] is a stored Active
    listing. *)
Definition index_all_active (st : Store) (cid : string) : Prop :=
  ∀ c, Collection_load cid st = Some c →
    Forall (λ id, ∃ l, Listing_load id st = Some l ∧ Listing.isActive l)
           (Collection.listingIds c).

(** ** Inventory *)

(** The seller's unlisted quantity under key [k], zero without a record. *)
Definition holdingOf (st : Store) (k : string) : BigInt :=
  UserToken.quantity (getOrCreateUserToken k st).

(** The quantity of the listing under key [k], zero without a record. *)
Definition listedOf (st : Store) (k : string) : BigInt :=
  Listing.quantity (getOrCreateListing k st).

(** The quantity the seller has on offer under key [k]: that of the Active
    listing stored there.  A seller's listing of a token and the seller's
    UserToken for it live under the same derived key. *)
Definition activeQuantity (st : Store) (k : string) : BigInt :=
  match Listing_load k st with
  | Some listing =>
      if Listing.isActive listing then Listing.quantity listing else 0
  | None => 0
  end.

Definition inventory (st : Store) (k : string) : BigInt :=
  holdingOf st k + activeQuantity st k.

(** No Active listing is stored under [k]. *)
Definition noActiveAt (st : Store) (k : string) : Prop :=
  match Listing_load k st with
  | Some listing => Listing.isActive listing = false
  | None => True
  end.

(** The listing stored under [k], if any, is Active. *)
Definition activeOrAbsentAt (st : Store) (k : string) : Prop :=
  match Listing_load k st with
  | Some listing => Listing.isActive listing = true
  | None => True
  end.

Definition userTokens_nonneg (st : Store) : Prop :=
  map_Forall (λ _ u, 0 ≤ UserToken.quantity u) (userTokens st).

Definition listings_nonneg (st : Store) : Prop :=
  map_Forall (λ _ l, 0 ≤ Listing.quantity l) (listings st).

(** Stores the quantity bookkeeping is meant for. *)
Definition quantities_ok (st : Store) : Prop :=
  store_wf st ∧ userTokens_nonneg st ∧ listings_nonneg st.

Definition quantities_okb (st : Store) : bool :=
  store_wfb st
  && forallb (λ ku : string * UserToken.t, 0 <=? UserToken.quantity ku.2)
             (map_to_list (userTokens st))
  && forallb (λ kl : string * Listing.t, 0 <=? Listing.quantity kl.2)
             (map_to_list (listings st)).

(** The quantity of the record under [k] in a listing table, zero without
    a record. *)
Definition quantityAt (m : gmap string Listing.t) (k : string) : BigInt :=
  Listing.quantity (default (new_Listing k) (m !! k)).

(** The listing table after lines 215-221 of [handleItemSold]: the listing
    [l] under [k] is removed by a sale of its whole quantity, and keeps the
    remainder otherwise. *)
Definition afterSale (quantity : BigInt) (k : string) (l : Listing.t)
    (m : gmap string Listing.t) : gmap string Listing.t :=
  if Listing.quantity l =? quantity then delete k m
  else <[k := Listing.set_quantity (Listing.quantity l - quantity) l]> m.

(** The keys an event addresses. *)
Definition listedKey (e : Event ItemListed.t) : string :=
  getListingId (ItemListed.seller (params e)) (ItemListed.nftAddress (params e))
               (ItemListed.tokenId (params e)).
Definition updatedKey (e : Event ItemUpdated.t) : string :=
  getListingId (ItemUpdated.seller (params e)) (ItemUpdated.nftAddress (params e))
               (ItemUpdated.tokenId (params e)).
Definition canceledKey (e : Event ItemCanceled.t) : string :=
  getListingId (ItemCanceled.seller (params e)) (ItemCanceled.nftAddress (params e))
               (ItemCanceled.tokenId (params e)).
Definition soldKey (e : Event ItemSold.t) : string :=
  getListingId (ItemSold.seller (params e)) (ItemSold.nftAddress (params e))
               (ItemSold.tokenId (params e)).
Definition buyerKey (e : Event ItemSold.t) : string :=
  getListingId (ItemSold.buyer (params e)) (ItemSold.nftAddress (params e))
               (ItemSold.tokenId (params e)).

(** An event that stays within the recorded quantities: a seller lists no
    more than the unlisted holding, an update leaves the holding
    non-negative, a sale takes no more than is listed, and event quantities
    are unsigned. *)
Definition respectsHoldings (st : Store) (ev : MarketEvent) : Prop :=
  match ev with
  | EvItemListed e =>
      0 ≤ ItemListed.quantity (params e)
      ∧ ItemListed.quantity (params e) ≤ holdingOf st (listedKey e)
  | EvItemUpdated e =>
      match Listing_load (updatedKey e) st with
      | Some listing =>
          0 ≤ ItemUpdated.quantity (params e)
          ∧ 0 ≤ holdingOf st (updatedKey e)
                + (Listing.quantity listing - ItemUpdated.quantity (params e))
      | None => True
      end
  | EvItemSold e =>
      0 ≤ ItemSold.quantity (params e)
      ∧ ItemSold.quantity (params e) ≤ listedOf st (soldKey e)
  | EvItemSoldStaging e =>
      match UserToken_load (buyerKey e) st with
      | Some userToken =>
          ItemSold.quantity (params e) ≤ UserToken.quantity userToken
      | None => True
      end
  | _ => True
  end.

Fixpoint respectsHoldingsAll (st : Store) (evs : list MarketEvent) : Prop :=
  match evs with
  | [] => True
  | ev :: evs' => respectsHoldings st ev ∧ respectsHoldingsAll (handle ev st) evs'
  end.

Definition isCancel (ev : MarketEvent) : Prop :=
  match ev with
  | EvItemCanceled _ => True
  | _ => False
  end.

(** ** Sales *)



(** Two events name the same seller, contract and token. *)
Definition sameItem (seller nftAddress : Address) (tokenId : BigInt)
    (seller' nftAddress' : Address) (tokenId' : BigInt) : Prop :=
  seller' = seller ∧ nftAddress' = nftAddress ∧ tokenId' = tokenId.

(** ** Orderly runs *)

(** The listing stored under [k], if it is Active. *)
Definition activeListing (st : Store) (k : string) : option Listing.t :=
  match Listing_load k st with
  | Some listing => if Listing.isActive listing then Some listing else None
  | None => None
  end.

(** Under [k] an Active listing is stored that references collection [cid]
    and is not priced zero. *)
Definition listedIn (st : Store) (cid : string) (k : string) : Prop :=
  ∃ listing,
    activeListing st k = Some listing
    ∧ Listing.collection listing = cid
    ∧ Listing.pricePerItem listing ≠ 0.

(** Every index holds, without repetition, keys of Active listings that
    reference its collection, none priced zero. *)
Definition index_sound (st : Store) : Prop :=
  ∀ cid c, Collection_load cid st = Some c →
    NoDup (Collection.listingIds c)
    ∧ Forall (listedIn st cid) (Collection.listingIds c).

(** Every stored Active listing is in the index of the collection it
    references. *)
Definition index_complete (st : Store) : Prop :=
  ∀ k listing, activeListing st k = Some listing →
    ∃ c, Collection_load (Listing.collection listing) st = Some c
         ∧ k ∈ Collection.listingIds c.

(** Floor correctness, over the listings of the index. *)
Definition floor_over_index (st : Store) : Prop :=
  ∀ cid c, Collection_load cid st = Some c →
    is_min_or_zero (indexedActivePrices st (Collection.listingIds c))
                   (Collection.floorPrice c).

Definition indexes_in_order (st : Store) : Prop :=
  store_wf st ∧ index_sound st ∧ index_complete st ∧ floor_over_index st.

(** An Active listing stored under [k] references the collection of the
    contract [nftAddress], the one the handlers recalculate. *)
Definition filedUnder (st : Store) (k : string) (nftAddress : Address) : Prop :=
  match activeListing st k with
  | Some listing => Listing.collection listing = toHexString nftAddress
  | None => True
  end.

(** An event the floor bookkeeping is meant for.  A listing is not priced
    zero and does not replace an Active listing; an update of an Active
    listing does not price it zero; an update, cancellation or sale of an
    Active listing names the contract whose collection the listing
    references; the two keys at which a sale deletes and writes its Sold
    record hold no Active listing. *)
Definition orderly (st : Store) (ev : MarketEvent) : Prop :=
  match ev with
  | EvItemListed e =>
      ItemListed.pricePerItem (params e) ≠ 0
      ∧ activeListing st (listedKey e) = None
  | EvItemUpdated e =>
      match activeListing st (updatedKey e) with
      | Some listing =>
          ItemUpdated.pricePerItem (params e) ≠ 0
          ∧ Listing.collection listing
            = toHexString (ItemUpdated.nftAddress (params e))
      | None => True
      end
  | EvItemCanceled e =>
      filedUnder st (canceledKey e) (ItemCanceled.nftAddress (params e))
  | EvItemSold e =>
      filedUnder st (soldKey e) (ItemSold.nftAddress (params e))
      ∧ activeListing st (soldId (soldKey e) (logIndex e)) = None
      ∧ activeListing st
          (soldId (soldKey e)
                  (Listing.blockTimestamp (getOrCreateListing (soldKey e) st)))
        = None
  | _ => True
  end.

Fixpoint orderlyAll (st : Store) (evs : list MarketEvent) : Prop :=
  match evs with
  | [] => True
  | ev :: evs' => orderly st ev ∧ orderlyAll (handle ev st) evs'
  end.

(** ** Vocabulary of the further properties *)

(** A string of [k] zero digits. *)
Fixpoint zeros (k : nat) : string :=
  match k with
  | O => EmptyString
  | S k' => String "0" (zeros k')
  end.

(** [m] is the minimum of the non-empty list [ps]. *)
Definition is_min (ps : list BigInt) (m : BigInt) : Prop :=
  m ∈ ps ∧ Forall (λ p, m ≤ p) ps.

(** The price of the listing stored under [id], if it is Active and is a
    listing of token [t]. *)
Definition tokenPriceOf (st : Store) (t : string) (id : string) : option BigInt :=
  match Listing_load id st with
  | Some listing =>
      if Listing.isActive listing && String.eqb (Listing.token listing) t
      then Some (Listing.pricePerItem listing)
      else None
  | None => None
  end.

(** The prices of the Active listings of token [t] a listing index refers
    to. *)
Definition indexedTokenPrices (st : Store) (ids : list string) (t : string)
    : list BigInt :=
  omap (tokenPriceOf st t) ids.

(** The update rule of the per-token map (lines 75-80): a token without a
    recorded price takes the candidate, one with a greater price too. *)
Definition tokenStep (recorded : option BigInt) (pricePerItem : BigInt)
    : option BigInt :=
  match recorded with
  | None => Some pricePerItem
  | Some tokenFloorPrice =>
      if tokenFloorPrice >? pricePerItem then Some pricePerItem
      else Some tokenFloorPrice
  end.

(** An index entry is stale when no Active listing is stored under it. *)
Definition stale (st : Store) (id : string) : Prop := activePrice st id = None.

(** Every entry of the list is a stored Active listing. *)
Definition allActive (st : Store) (ids : list string) : Prop :=
  Forall (λ id, is_Some (activePrice st id)) ids.

(** Every stored collection counts as many listings as its index holds. *)
Definition counts_match (st : Store) : Prop :=
  map_Forall (λ _ c, Collection.totalListings c
                     = Z.of_nat (length (Collection.listingIds c)))
             (collections st).

(** The floor price a collection stores is the one a scan of its index
    finds: the fold of [floorStep] from zero over the prices of the indexed
    Active listings. *)
Definition floor_as_scanned (st : Store) (c : Collection.t) : Prop :=
  Collection.floorPrice c
  = foldl floorStep 0 (indexedActivePrices st (Collection.listingIds c)).

(** ** Sample data *)

Module Sample.
Definition alice : Address := mkBytes "0xa11ce".
Definition bob : Address := mkBytes "0xb0b".
Definition nft : Address := mkBytes "0xc0de".
Definition tx : Bytes := mkBytes "0xfeed".

(** The key of alice's token 1 of [nft]. *)
Definition key : string := getListingId alice nft 1.

Definition listed (price quantity timestamp : BigInt) : Event ItemListed.t :=
  mkEvent (ItemListed.mk alice nft 1 quantity price 0) timestamp 0 tx.
Definition updated (price quantity timestamp : BigInt) : Event ItemUpdated.t :=
  mkEvent (ItemUpdated.mk alice nft 1 quantity price 0) timestamp 0 tx.
Definition canceled : Event ItemCanceled.t :=
  mkEvent (ItemCanceled.mk alice nft 1) 0 0 tx.
Definition sold (quantity timestamp index : BigInt) : Event ItemSold.t :=
  mkEvent (ItemSold.mk alice bob nft 1 quantity 5) timestamp index tx.

(** A store in which the collection of [nft] and its token 1 exist, and
    alice holds five unlisted units of the token. *)
Definition seeded : Store :=
  mkStore
    {[ "0xc0de" := Collection.mk "0xc0de" "Legions" (Some "ERC721") 0 0 [] ]}
    {[ "0xc0de-1" := Token.mk "0xc0de-1" "0xc0de" "Legion 1" None ]}
    ∅
    {[ key := UserToken.mk key 5 "0xc0de-1" "0xa11ce" ]}
    ∅.

(** A collection whose index holds two entries with no stored listing. *)
Definition staleTwo : Store :=
  mkStore {[ "0xc0de" := Collection.mk "0xc0de" "" None 0 2 ["a"; "b"] ]}
          ∅ ∅ ∅ ∅.

(** The same with a third entry, an Active listing priced 3. *)
Definition staleTwoThenActive : Store :=
  mkStore
    {[ "0xc0de" := Collection.mk "0xc0de" "" None 0 3 ["a"; "b"; "c"] ]}
    ∅
    {[ "c" := Listing.mk "c" (Some "Active") "0xa11ce" None 3 1 0 0
                         "0xc0de" "" "0xc0de-1" "" None None None ]}
    ∅ ∅.

(** Alice lists three of her five units, then lists again, two units. *)
Definition listedThree : Store :=
  replay [EvItemListed (listed 5 3 100)] seeded.

(** Two sales of one unit each from alice's listing of three, which was
    listed in the block of timestamp 100, in two later blocks. *)
Definition saleOne : Event ItemSold.t := sold 1 200 0.


(** The listing of three units that [listedThree] holds. *)
Definition threeListed : Listing.t :=
  Listing.mk key (Some "Active") "0xa11ce" None 5 3 0 100
             "0xc0de" "Legions" "0xc0de-1" "Legion 1" None None None.

(** Alice lists all five units, then cancels the listing. *)
Definition listAllThenCancel : list MarketEvent :=
  [EvItemListed (listed 5 5 100); EvItemCanceled canceled].

(** Alice lists her token at 5, then lists it again at 10. *)
Definition relisting : list MarketEvent :=
  [EvItemListed (listed 5 3 100); EvItemListed (listed 10 3 101)].
(** An index of two entries, the first with no stored listing, the second
    an Active listing priced 3. *)
Definition oneStale : Store :=
  mkStore
    {[ "0xc0de" := Collection.mk "0xc0de" "" None 0 2 ["a"; "c"] ]}
    ∅
    {[ "c" := Listing.mk "c" (Some "Active") "0xa11ce" None 3 1 0 0
                         "0xc0de" "" "0xc0de-1" "" None None None ]}
    ∅ ∅.

(** An index of three Active listings priced 2, 0 and 3, in this order. *)
Definition zeroPriced : Store :=
  mkStore
    {[ "0xc0de" := Collection.mk "0xc0de" "" None 0 3 ["a"; "b"; "c"] ]}
    ∅
    {[ "a" := Listing.mk "a" (Some "Active") "0xa11ce" None 2 1 0 0
                         "0xc0de" "" "0xc0de-1" "" None None None;
       "b" := Listing.mk "b" (Some "Active") "0xa11ce" None 0 1 0 0
                         "0xc0de" "" "0xc0de-2" "" None None None;
       "c" := Listing.mk "c" (Some "Active") "0xa11ce" None 3 1 0 0
                         "0xc0de" "" "0xc0de-3" "" None None None ]}
    ∅ ∅.

(** An ERC1155 collection with two Active listings of its token 1, priced
    4 and 2; the token is stored with floor price 9. *)
Definition multiToken : Store :=
  mkStore
    {[ "0xc0de" := Collection.mk "0xc0de" "Treasures" (Some "ERC1155") 0 2
                                 ["a"; "b"] ]}
    {[ "0xc0de-1" := Token.mk "0xc0de-1" "0xc0de" "Treasure 1" (Some 9) ]}
    {[ "a" := Listing.mk "a" (Some "Active") "0xa11ce" None 4 1 0 0
                         "0xc0de" "Treasures" "0xc0de-1" "Treasure 1"
                         None None None;
       "b" := Listing.mk "b" (Some "Active") "0xb0b" None 2 1 0 0
                         "0xc0de" "Treasures" "0xc0de-1" "Treasure 1"
                         None None None ]}
    ∅ ∅.

(** The collection [listedThree] holds. *)
Definition oneListed : Collection.t :=
  Collection.mk "0xc0de" "Legions" (Some "ERC721") 5 1 [key].

(** Alice lists three units at 5, reprices them to 7, and one is sold. *)
Definition listUpdateSell : list MarketEvent :=
  [EvItemListed (listed 5 3 100); EvItemUpdated (updated 7 3 101);
   EvItemSold saleOne].
End Sample.

(** * Properties *)

(** ** Strings *)

Section StrFacts.

(** [String.append] does not reduce under [simpl]; its second equation. *)
Lemma append_cons (a : ascii) (s t : string) :
  (String a s ++ t)%string = String a (s ++ t).
Proof. reflexivity. Qed.

Lemma append_empty_r (s : string) : (s ++ "")%string = s.
Proof. induction s as [|a s IH]; [done|]. by rewrite append_cons, IH. Qed.

Lemma append_assoc (a b c : string) :
  ((a ++ b) ++ c)%string = (a ++ (b ++ c))%string.
Proof. induction a as [|x a IH]; [done|]. by rewrite !append_cons, IH. Qed.

Lemma length_append (a b : string) :
  String.length (a ++ b) = (String.length a + String.length b)%nat.
Proof. induction a as [|x a IH]; [done|]. rewrite append_cons. simpl. by rewrite IH. Qed.

Lemma append_inv_l (a b c : string) : (a ++ b)%string = (a ++ c)%string → b = c.
Proof.
  induction a as [|x a IH]; [done|]. rewrite !append_cons.
  intros [= H]. by apply IH.
Qed.

Lemma rev_app_append (s acc : string) :
  String.rev_app s acc = (String.rev_app s "" ++ acc)%string.
Proof.
  revert acc. induction s as [|a s IH]; intros acc; simpl; [done|].
  rewrite (IH (String a acc)), (IH (String a "")).
  by rewrite append_assoc.
Qed.

Lemma join_cons (x : string) (l : list string) :
  l ≠ [] → Str.join (x :: l) = (x ++ Str.join l)%string.
Proof. destruct l; [done|]. reflexivity. Qed.

Lemma split_go_nonempty (c : ascii) (s cur : string) : Str.split_go c s cur ≠ [].
Proof.
  revert cur. induction s as [|a s IH]; intros cur; simpl; [done|].
  destruct (Ascii.eqb a c); [done|apply IH].
Qed.

(** Splitting at a character and joining the pieces drops that
    character, wherever it stands. *)
Lemma join_split_go (c : ascii) (s cur : string) :
  Str.join (Str.split_go c s cur)
  = (String.rev cur ++ Str.remove_char c s)%string.
Proof.
  revert cur. induction s as [|a s IH]; intros cur; simpl.
  - by rewrite append_empty_r.
  - destruct (Ascii.eqb a c) eqn:Hac.
    + rewrite join_cons by apply split_go_nonempty. by rewrite IH.
    + rewrite IH. unfold String.rev. simpl.
      by rewrite (rev_app_append cur (String a "")), append_assoc.
Qed.

Lemma join_split (c : ascii) (s : string) :
  Str.join (Str.split c s) = Str.remove_char c s.
Proof. unfold Str.split. by rewrite join_split_go. Qed.

End StrFacts.

(** ** Keys *)

Lemma soldId_unfold (id : string) (n : BigInt) :
  soldId id n = (id ++ String "-" (BigInt_toString n))%string.
Proof. reflexivity. Qed.

Lemma soldId_ne (id : string) (n : BigInt) : soldId id n ≠ id.
Proof.
  rewrite soldId_unfold. intros H.
  apply (f_equal String.length) in H. rewrite length_append in H. simpl in H. lia.
Qed.

Lemma soldId_inj (id : string) (n m : BigInt) : soldId id n = soldId id m → n = m.
Proof.
  rewrite !soldId_unfold. intros H. apply append_inv_l in H.
  injection H as H. by apply (inj pretty) in H.
Qed.

(** ** Well-formed stores *)

Lemma keyed_insert {A : Type} (idOf : A → string) (m : gmap string A) (x : A) :
  keyed idOf m → keyed idOf (<[idOf x := x]> m).
Proof. intros H. by apply map_Forall_insert_2. Qed.

Lemma keyed_delete {A : Type} (idOf : A → string) (m : gmap string A) (k : string) :
  keyed idOf m → keyed idOf (delete k m).
Proof. intros H. by apply map_Forall_delete. Qed.

Lemma keyed_lookup {A : Type} (idOf : A → string) (m : gmap string A) k x :
  keyed idOf m → m !! k = Some x → idOf x = k.
Proof. intros H Hk. exact (H k x Hk). Qed.

Lemma map_Forall_forallb {A : Type} (P : string → A → Prop)
    (b : string * A → bool) (m : gmap string A) :
  (∀ k x, b (k, x) = true → P k x) →
  forallb b (map_to_list m) = true → map_Forall P m.
Proof.
  intros Hb H. apply map_Forall_to_list.
  rewrite forallb_forall in H. apply Forall_forall.
  intros [k x] Hin. apply Hb, H. by apply list_elem_of_In.
Qed.

Lemma keyedb_keyed {A : Type} (idOf : A → string) (m : gmap string A) :
  keyedb idOf m = true → keyed idOf m.
Proof.
  apply map_Forall_forallb. intros k x. simpl. by rewrite String.eqb_eq.
Qed.

Lemma store_wfb_wf (st : Store) : store_wfb st = true → store_wf st.
Proof.
  unfold store_wfb, store_wf. rewrite !andb_true_iff.
  intros [[[? ?] ?] ?]. repeat split; by apply keyedb_keyed.
Qed.

Lemma quantities_okb_ok (st : Store) : quantities_okb st = true → quantities_ok st.
Proof.
  unfold quantities_okb, quantities_ok. rewrite !andb_true_iff.
  intros [[Hwf Hu] Hl]. split; [by apply store_wfb_wf|]. split.
  - revert Hu. apply map_Forall_forallb. intros k x. simpl. lia.
  - revert Hl. apply map_Forall_forallb. intros k x. simpl. lia.
Qed.

Lemma empty_store_wf : store_wf empty_store.
Proof. repeat split; apply map_Forall_empty. Qed.

Lemma getOrCreateListing_id (st : Store) (k : string) :
  keyed Listing.id (listings st) → Listing.id (getOrCreateListing k st) = k.
Proof.
  intros H. unfold getOrCreateListing, Listing_load.
  destruct (listings st !! k) as [l|] eqn:Hl; simpl; [|done].
  by eapply keyed_lookup.
Qed.

Lemma getOrCreateUserToken_id (st : Store) (k : string) :
  keyed UserToken.id (userTokens st) → UserToken.id (getOrCreateUserToken k st) = k.
Proof.
  intros H. unfold getOrCreateUserToken, UserToken_load.
  destruct (userTokens st !! k) as [u|] eqn:Hu; simpl; [|done].
  by eapply keyed_lookup.
Qed.

Lemma getOrCreateCollection_id (st : Store) (k : string) :
  keyed Collection.id (collections st) →
  Collection.id (getOrCreateCollection k st) = k.
Proof.
  intros H. unfold getOrCreateCollection, Collection_load.
  destruct (collections st !! k) as [u|] eqn:Hu; simpl; [|done].
  by eapply keyed_lookup.
Qed.

(** ** The first loop of the recalculator *)

Lemma scanEntry_id st lid c fp i :
  Collection.id (scanEntry st lid (c, fp) i).1 = Collection.id c.
Proof.
  unfold scanEntry. destruct (Listing_load lid st) as [l|]; [|done].
  destruct (Listing.isActive l); [|done]. simpl.
  by destruct (lowersFloor _ _).
Qed.

Lemma scanEntry_floorPrice st lid c fp i :
  Collection.floorPrice (scanEntry st lid (c, fp) i).1
  = match activePrice st lid with
    | Some p => floorStep (Collection.floorPrice c) p
    | None => Collection.floorPrice c
    end.
Proof.
  unfold scanEntry, activePrice, floorStep.
  destruct (Listing_load lid st) as [l|]; [|done].
  destruct (Listing.isActive l); [|done]. simpl.
  by destruct (lowersFloor _ _).
Qed.

Lemma scanEntry_listingIds st lid c fp i :
  Collection.listingIds (scanEntry st lid (c, fp) i).1
  = match activePrice st lid with
    | Some _ => Collection.listingIds c
    | None => removeAt i (Collection.listingIds c)
    end.
Proof.
  unfold scanEntry, activePrice.
  destruct (Listing_load lid st) as [l|]; [|done].
  destruct (Listing.isActive l); [|done]. simpl.
  by destruct (lowersFloor _ _).
Qed.

(** The loop, unrolled along the array it reads: after the entries [pre],
    the remaining turns visit [suf] at positions [length pre], ... *)
Lemma scan_unroll st pre lid suf acc :
  foldl (scanStep st (pre ++ lid :: suf)) acc
        (seq (length pre) (length (lid :: suf)))
  = foldl (scanStep st ((pre ++ [lid]) ++ suf))
          (scanEntry st lid acc (length pre))
          (seq (length (pre ++ [lid])) (length suf)).
Proof.
  simpl. unfold scanStep at 2.
  rewrite list_lookup_middle by done.
  rewrite length_app, Nat.add_1_r. simpl.
  by rewrite <- app_assoc.
Qed.

Lemma scan_id st suf : ∀ pre c fp,
  Collection.id
    (foldl (scanStep st (pre ++ suf)) (c, fp) (seq (length pre) (length suf))).1
  = Collection.id c.
Proof.
  induction suf as [|lid suf IH]; intros pre c fp; [done|].
  rewrite scan_unroll.
  destruct (scanEntry st lid (c, fp) (length pre)) as [c' fp'] eqn:He.
  rewrite IH. by rewrite <- (scanEntry_id st lid c fp (length pre)), He.
Qed.

Lemma scan_floorPrice st suf : ∀ pre c fp,
  Collection.floorPrice
    (foldl (scanStep st (pre ++ suf)) (c, fp) (seq (length pre) (length suf))).1
  = foldl floorStep (Collection.floorPrice c) (indexedActivePrices st suf).
Proof.
  induction suf as [|lid suf IH]; intros pre c fp; [done|].
  rewrite scan_unroll.
  destruct (scanEntry st lid (c, fp) (length pre)) as [c' fp'] eqn:He.
  rewrite IH.
  pose proof (scanEntry_floorPrice st lid c fp (length pre)) as Hf.
  rewrite He in Hf. simpl in Hf. rewrite Hf.
  unfold indexedActivePrices. simpl.
  by destruct (activePrice st lid).
Qed.

Lemma scanListings_id st c :
  Collection.id (scanListings st (Collection.listingIds c)
                              (Collection.set_floorPrice ZERO_BI c)).1
  = Collection.id c.
Proof. exact (scan_id st _ [] _ _). Qed.

Lemma scanListings_floorPrice st c :
  Collection.floorPrice
    (scanListings st (Collection.listingIds c)
                  (Collection.set_floorPrice ZERO_BI c)).1
  = foldl floorStep 0 (indexedActivePrices st (Collection.listingIds c)).
Proof. exact (scan_floorPrice st _ [] _ _). Qed.

(** ** The second loop of the recalculator *)

Lemma saveTokenFloors_frame fp : ∀ st,
  collections (foldl saveTokenFloor st fp) = collections st
  ∧ listings (foldl saveTokenFloor st fp) = listings st
  ∧ userTokens (foldl saveTokenFloor st fp) = userTokens st
  ∧ users (foldl saveTokenFloor st fp) = users st.
Proof.
  induction fp as [|e fp IH]; intros st; [done|]. simpl.
  destruct (IH (saveTokenFloor st e)) as (-> & -> & -> & ->).
  unfold saveTokenFloor. by destruct (Token_load e.1 st).
Qed.

Lemma saveTokenFloors_keyed fp : ∀ st,
  keyed Token.id (tokens st) → keyed Token.id (tokens (foldl saveTokenFloor st fp)).
Proof.
  induction fp as [|e fp IH]; intros st H; [done|]. simpl. apply IH.
  unfold saveTokenFloor, Token_load.
  destruct (tokens st !! e.1) as [t|] eqn:Ht; [|done]. simpl.
  by apply (keyed_insert Token.id (tokens st) (Token.set_floorPrice e.2 t)).
Qed.

(** ** The recalculator as a whole *)

(** The collection object the recalculator saves. *)
Lemma recalc_saves id st c :
  Collection_load (toHexString id) st = Some c →
  ∃ c' fp,
    scanListings st (Collection.listingIds c)
                 (Collection.set_floorPrice ZERO_BI c) = (c', fp)
    ∧ updateCollectionFloorAndTotal id st
      = Collection_save
          (Collection.set_totalListings
             (Z.of_nat (length (Collection.listingIds c'))) c')
          (foldl saveTokenFloor st fp).
Proof.
  intros Hc. unfold updateCollectionFloorAndTotal. rewrite Hc.
  destruct (scanListings _ _ _) as [c' fp]. by exists c', fp.
Qed.

Lemma recalc_frame id st :
  listings (updateCollectionFloorAndTotal id st) = listings st
  ∧ userTokens (updateCollectionFloorAndTotal id st) = userTokens st
  ∧ users (updateCollectionFloorAndTotal id st) = users st.
Proof.
  destruct (Collection_load (toHexString id) st) as [c|] eqn:Hc.
  - destruct (recalc_saves id st c Hc) as (c' & fp & _ & ->). simpl.
    by destruct (saveTokenFloors_frame fp st) as (_ & -> & -> & ->).
  - unfold updateCollectionFloorAndTotal. by rewrite Hc.
Qed.

Lemma recalc_listings id st :
  listings (updateCollectionFloorAndTotal id st) = listings st.
Proof. apply recalc_frame. Qed.

Lemma recalc_userTokens id st :
  userTokens (updateCollectionFloorAndTotal id st) = userTokens st.
Proof. apply recalc_frame. Qed.

Lemma recalc_wf id st : store_wf st → store_wf (updateCollectionFloorAndTotal id st).
Proof.
  intros (Hc & Ht & Hl & Hu).
  destruct (Collection_load (toHexString id) st) as [c|] eqn:Hload.
  - destruct (recalc_saves id st c Hload) as (c' & fp & Hscan & ->).
    destruct (saveTokenFloors_frame fp st) as (Ec & El & Eu & _).
    repeat split; simpl; rewrite ?Ec, ?El, ?Eu; try done.
    + by apply (keyed_insert Collection.id (collections st)
                  (Collection.set_totalListings _ c')).
    + by apply saveTokenFloors_keyed.
  - unfold updateCollectionFloorAndTotal. by rewrite Hload.
Qed.

(** ** The floor as a minimum *)

Lemma floorStep_zero (p : BigInt) : floorStep 0 p = p.
Proof. reflexivity. Qed.

Lemma floorStep_min (f p : BigInt) : f ≠ 0 → floorStep f p = Z.min f p.
Proof.
  intros Hf. unfold floorStep, lowersFloor.
  destruct (Z.eqb_spec f 0) as [|_]; [done|]. simpl.
  destruct (Z.gtb_spec f p); lia.
Qed.

Lemma foldl_floorStep_from (ps : list BigInt) : ∀ f,
  f ≠ 0 → Forall (λ p, p ≠ 0) ps →
  foldl floorStep f ps ≠ 0
  ∧ (foldl floorStep f ps = f ∨ foldl floorStep f ps ∈ ps)
  ∧ foldl floorStep f ps ≤ f
  ∧ Forall (λ p, foldl floorStep f ps ≤ p) ps.
Proof.
  induction ps as [|p ps IH]; intros f Hf Hps.
  - repeat split; auto. simpl. lia.
  - inversion Hps as [|? ? Hp Hps']; subst.
    cbn [foldl]. rewrite (floorStep_min f p Hf).
    destruct (IH (Z.min f p) ltac:(lia) Hps') as (Hm0 & Hin & Hle & Hall).
    repeat split; [done| |lia|].
    + destruct Hin as [Hin|Hin]; [|right; by right].
      rewrite Hin.
      destruct (Z.min_spec f p) as [[_ E]|[_ E]]; rewrite E; [by left|].
      right. by left.
    + constructor; [lia|done].
Qed.

Lemma foldl_floorStep_is_min (ps : list BigInt) :
  Forall (λ p, p ≠ 0) ps → is_min_or_zero ps (foldl floorStep 0 ps).
Proof.
  destruct ps as [|p ps]; intros Hps; [done|].
  inversion Hps as [|? ? Hp Hps']; subst.
  unfold is_min_or_zero. cbn [foldl]. rewrite floorStep_zero.
  destruct (foldl_floorStep_from ps p Hp Hps') as (_ & Hin & Hle & Hall).
  split.
  - destruct Hin as [Hin|Hin]; [rewrite Hin; by left|by right].
  - by constructor.
Qed.

Lemma indexedActivePrices_listings st st' ids :
  listings st' = listings st →
  indexedActivePrices st' ids = indexedActivePrices st ids.
Proof.
  intros E. unfold indexedActivePrices, activePrice, Listing_load. by rewrite E.
Qed.

(** What the recalculator leaves in the store for its collection. *)
Lemma recalc_collection id st c :
  store_wf st →
  Collection_load (toHexString id) st = Some c →
  ∃ c', Collection_load (toHexString id) (updateCollectionFloorAndTotal id st)
        = Some c'
        ∧ Collection.floorPrice c'
          = foldl floorStep 0 (indexedActivePrices st (Collection.listingIds c))
        ∧ Collection.totalListings c'
          = Z.of_nat (length (Collection.listingIds c')).
Proof.
  intros (Hk & _) Hc.
  destruct (recalc_saves id st c Hc) as (c' & fp & Hscan & ->).
  pose proof (scanListings_id st c) as Hid.
  pose proof (scanListings_floorPrice st c) as Hfl.
  rewrite Hscan in Hid, Hfl. simpl in Hid, Hfl.
  eexists. split; [|split].
  - unfold Collection_load, Collection_save. simpl.
    destruct (saveTokenFloors_frame fp st) as (-> & _).
    rewrite Hid, (keyed_lookup _ _ _ _ Hk Hc). apply lookup_insert_eq.
  - done.
  - done.
Qed.

(** ** Without stale entries

    When every entry of the index is a stored Active listing the loop
    prunes nothing, and a second run changes nothing. *)

Lemma scan_listingIds_no_stale st suf : ∀ pre c fp,
  Forall (λ id, is_Some (activePrice st id)) suf →
  Collection.listingIds
    (foldl (scanStep st (pre ++ suf)) (c, fp) (seq (length pre) (length suf))).1
  = Collection.listingIds c.
Proof.
  induction suf as [|lid suf IH]; intros pre c fp Hall; [done|].
  inversion Hall as [|? ? [p Hp] Hall']; subst.
  rewrite scan_unroll.
  destruct (scanEntry st lid (c, fp) (length pre)) as [c' fp'] eqn:He.
  rewrite (IH _ _ _ Hall').
  pose proof (scanEntry_listingIds st lid c fp (length pre)) as Hids.
  by rewrite He, Hp in Hids.
Qed.

Lemma recalc_no_stale id st c :
  store_wf st →
  Collection_load (toHexString id) st = Some c →
  Forall (λ id, is_Some (activePrice st id)) (Collection.listingIds c) →
  ∃ c', Collection_load (toHexString id) (updateCollectionFloorAndTotal id st)
        = Some c'
        ∧ Collection.listingIds c' = Collection.listingIds c
        ∧ Collection.floorPrice c'
          = foldl floorStep 0 (indexedActivePrices st (Collection.listingIds c)).
Proof.
  intros (Hk & Hrest) Hc Hall.
  destruct (recalc_saves id st c Hc) as (c' & fp & Hscan & ->).
  pose proof (scanListings_id st c) as Hid.
  pose proof (scanListings_floorPrice st c) as Hfl.
  pose proof (scan_listingIds_no_stale st (Collection.listingIds c) []
                (Collection.set_floorPrice ZERO_BI c) [] Hall) as Hids.
  change (foldl _ _ _) with
    (scanListings st (Collection.listingIds c)
                  (Collection.set_floorPrice ZERO_BI c)) in Hids.
  rewrite Hscan in Hid, Hfl, Hids. cbn [fst] in Hid, Hfl, Hids.
  eexists. split; [|split].
  - unfold Collection_load, Collection_save. cbn [collections Collection.id
      Collection.set_totalListings].
    destruct (saveTokenFloors_frame fp st) as (-> & _).
    rewrite Hid, (keyed_lookup _ _ _ _ Hk Hc). apply lookup_insert_eq.
  - exact Hids.
  - exact Hfl.
Qed.

Lemma recalc_idempotent_no_stale id st c :
  store_wf st →
  Collection_load (toHexString id) st = Some c →
  Forall (λ id, is_Some (activePrice st id)) (Collection.listingIds c) →
  ∃ once twice,
    Collection_load (toHexString id) (updateCollectionFloorAndTotal id st)
    = Some once
    ∧ Collection_load (toHexString id)
        (updateCollectionFloorAndTotal id (updateCollectionFloorAndTotal id st))
      = Some twice
    ∧ Collection.floorPrice twice = Collection.floorPrice once
    ∧ Collection.listingIds twice = Collection.listingIds once.
Proof.
  intros Hwf Hc Hall.
  destruct (recalc_no_stale id st c Hwf Hc Hall) as (c1 & Hc1 & Hids1 & Hfl1).
  pose proof (recalc_listings id st) as HL.
  assert (Hact : ∀ k, activePrice (updateCollectionFloorAndTotal id st) k
                      = activePrice st k)
    by (intros k; unfold activePrice, Listing_load; by rewrite HL).
  assert (Hall1 : Forall (λ k, is_Some (activePrice
                                          (updateCollectionFloorAndTotal id st) k))
                         (Collection.listingIds c1)).
  { rewrite Hids1. eapply Forall_impl; [exact Hall|].
    intros k Hk. cbn beta. by rewrite Hact. }
  destruct (recalc_no_stale id _ c1 (recalc_wf id st Hwf) Hc1 Hall1)
    as (c2 & Hc2 & Hids2 & Hfl2).
  exists c1, c2. repeat split; try done.
  rewrite Hfl2, Hfl1, Hids1.
  by rewrite (indexedActivePrices_listings st _ _ HL).
Qed.

(** * Scenarios

    The model on the scenarios the specification lists, from a store in
    which alice holds five units. *)

(** List three units at 5, then cancel. *)
Example scenario_list_then_cancel :
  let st1 := handleItemListed (Sample.listed 5 3 100) Sample.seeded in
  let st2 := handleItemCanceled Sample.canceled st1 in
  (Listing.quantity <$> Listing_load Sample.key st1) = Some 3
  ∧ (Collection.floorPrice <$> Collection_load "0xc0de" st1) = Some 5
  ∧ (Collection.totalListings <$> Collection_load "0xc0de" st1) = Some 1
  ∧ holdingOf st1 Sample.key = 2
  ∧ Listing_load Sample.key st2 = None
  ∧ holdingOf st2 Sample.key = 5
  ∧ (Collection.floorPrice <$> Collection_load "0xc0de" st2) = Some 0
  ∧ (Collection.totalListings <$> Collection_load "0xc0de" st2) = Some 0.
Proof. repeat split; vm_compute; reflexivity. Qed.

(** List five units at 5, then sell two of them. *)
Example scenario_partial_sale :
  let st1 := handleItemListed (Sample.listed 5 5 100) Sample.seeded in
  let st2 := handleItemSold (Sample.sold 2 200 0) st1 in
  (Listing.quantity <$> Listing_load Sample.key st2) = Some 3
  ∧ (Listing.status <$> Listing_load Sample.key st2) = Some (Some "Active")
  ∧ (Listing.quantity <$> Listing_load (soldId Sample.key 100) st2) = Some 2
  ∧ (Listing.status <$> Listing_load (soldId Sample.key 100) st2)
    = Some (Some "Sold")
  ∧ (Listing.totalPrice <$> Listing_load (soldId Sample.key 100) st2)
    = Some (Some (formatPrice (5 * 2))).
Proof. repeat split; vm_compute; reflexivity. Qed.

(** List, list the same key again, then cancel: the index holds the key
    twice when the recalculator runs, and keeps it once, for no listing. *)
Example scenario_relist_then_cancel :
  let st3 := replay [EvItemListed (Sample.listed 5 3 100);
                     EvItemListed (Sample.listed 5 2 101);
                     EvItemCanceled Sample.canceled] Sample.seeded in
  Listing_load Sample.key st3 = None
  ∧ (Collection.listingIds <$> Collection_load "0xc0de" st3) = Some [Sample.key]
  ∧ (Collection.totalListings <$> Collection_load "0xc0de" st3) = Some 1.
Proof. repeat split; vm_compute; reflexivity. Qed.

(** * The claims *)

(** ** Floor correctness *)

(** C1, as stated, fails.  From the empty store, alice lists her token at 5
    and then lists it again at 10: [handleItemListed] overwrites the
    listing but keeps the lower floor, so the collection's floorPrice is 5
    although the only stored Active listing referencing it is priced 10. *)
Lemma floor_correct_fails_on_relisting :
  ¬ floor_correct (replay Sample.relisting empty_store).
Proof.
  intros H.
  assert (Hc : Collection_load "" (replay Sample.relisting empty_store)
               = Some (Collection.mk "" "" None 5 2 [Sample.key; Sample.key]))
    by (vm_compute; reflexivity).
  specialize (H "" _ Hc).
  assert (Hp : referencingActivePrices (replay Sample.relisting empty_store) ""
               = [10]) by (vm_compute; reflexivity).
  rewrite Hp in H. destruct H as [Hin _].
  apply list_elem_of_singleton in Hin. clear -Hin. discriminate Hin.
Qed.

(** ** Pruning the listing index *)

(** The recalculator sets totalListings to the length of the index it
    saves. *)
Lemma recalc_totalListings id st c :
  store_wf st →
  Collection_load (toHexString id) st = Some c →
  ∃ c', Collection_load (toHexString id) (updateCollectionFloorAndTotal id st)
        = Some c'
        ∧ Collection.totalListings c'
          = Z.of_nat (length (Collection.listingIds c')).
Proof.
  intros Hwf Hc.
  destruct (recalc_collection id st c Hwf Hc) as (c' & Hload & _ & Htot).
  by exists c'.
Qed.

(** C2: the code at its failing input.  The index holds ["a"; "b"] and
    neither listing is stored.  The first turn removes position 0 of the
    index; the second turn removes position 1 of the index that is left,
    which has a single entry, so nothing goes: "b" stays in the index, and
    totalListings is 1, although no listing is stored under "b". *)
Theorem recalculation_keeps_stale_entry :
  let st' := updateCollectionFloorAndTotal Sample.nft Sample.staleTwo in
  (Collection.listingIds <$> Collection_load "0xc0de" st') = Some ["b"]
  ∧ (Collection.totalListings <$> Collection_load "0xc0de" st') = Some 1
  ∧ Listing_load "b" st' = None
  ∧ ¬ index_all_active st' "0xc0de".
Proof.
  repeat split; try (vm_compute; reflexivity).
  intros H.
  specialize (H (Collection.mk "0xc0de" "" None 0 1 ["b"])
                ltac:(vm_compute; reflexivity)).
  apply Forall_inv in H. destruct H as (l & Hl & _).
  vm_compute in Hl. discriminate Hl.
Qed.

(** ** Recomputing twice *)

(** C3: the code at its failing input.  The index holds ["a"; "b"; "c"];
    only "c" is stored, Active, priced 3.  One run leaves floorPrice 3 and
    the index ["b"]; a second run, with nothing changed in between, leaves
    floorPrice 0 and an empty index. *)
Theorem recalculation_not_idempotent :
  let once := updateCollectionFloorAndTotal Sample.nft Sample.staleTwoThenActive in
  let twice := updateCollectionFloorAndTotal Sample.nft once in
  (Collection.floorPrice <$> Collection_load "0xc0de" once) = Some 3
  ∧ (Collection.listingIds <$> Collection_load "0xc0de" once) = Some ["b"]
  ∧ (Collection.floorPrice <$> Collection_load "0xc0de" twice) = Some 0
  ∧ (Collection.listingIds <$> Collection_load "0xc0de" twice) = Some [].
Proof. repeat split; vm_compute; reflexivity. Qed.

(** * What each handler does to the listings and the user tokens *)

Lemma getOrCreateUserToken_ext st st' k :
  userTokens st' = userTokens st →
  getOrCreateUserToken k st' = getOrCreateUserToken k st.
Proof. intros E. unfold getOrCreateUserToken, UserToken_load. by rewrite E. Qed.

Lemma lowerTokenFloor_frame c t p st :
  collections (lowerTokenFloor c t p st).2 = collections st
  ∧ listings (lowerTokenFloor c t p st).2 = listings st
  ∧ userTokens (lowerTokenFloor c t p st).2 = userTokens st
  ∧ Token.id (lowerTokenFloor c t p st).1 = Token.id t
  ∧ (keyed Token.id (tokens st) → Token.id t ∈ dom (tokens st) ∨ True →
     keyed Token.id (tokens (lowerTokenFloor c t p st).2)).
Proof.
  unfold lowerTokenFloor.
  destruct (bool_decide _); [|by repeat split].
  destruct (Token.floorPrice t) as [f|]; [destruct (f >? p)|];
    repeat split; try done; intros Hk _; simpl;
    by apply (keyed_insert Token.id (tokens st) (Token.set_floorPrice p t)).
Qed.

(** *** ItemListed *)

(** Name the outcome of the token branch and keep what it leaves alone. *)
Ltac token_branch token' st' Hfr :=
  match goal with
  | |- context [lowerTokenFloor ?c ?t ?p ?s] =>
      pose proof (lowerTokenFloor_frame c t p s) as Hfr;
      destruct (lowerTokenFloor c t p s) as [token' st'];
      simpl in Hfr
  end.

Lemma handleItemListed_listings e st :
  store_wf st →
  ∃ L,
    listings (handleItemListed e st) = <[listedKey e := L]> (listings st)
    ∧ Listing.id L = listedKey e
    ∧ Listing.status L = Some "Active"
    ∧ Listing.quantity L = ItemListed.quantity (params e)
    ∧ Listing.pricePerItem L = ItemListed.pricePerItem (params e)
    ∧ Listing.blockTimestamp L = block_timestamp e.
Proof.
  intros (Hc & Ht & Hl & Hu). unfold handleItemListed. fold (listedKey e).
  token_branch token' st' Hfr. destruct Hfr as (_ & El & Eu & _).
  eexists. split.
  { simpl. rewrite (getOrCreateListing_id st _ Hl).
    destruct (_ =? _); simpl; by rewrite El. }
  repeat split.
Qed.

Lemma handleItemListed_userTokens e st :
  store_wf st →
  userTokens (handleItemListed e st)
  = if holdingOf st (listedKey e) =? ItemListed.quantity (params e)
    then delete (listedKey e) (userTokens st)
    else <[listedKey e :=
             UserToken.set_quantity
               (holdingOf st (listedKey e) - ItemListed.quantity (params e))
               (getOrCreateUserToken (listedKey e) st)]> (userTokens st).
Proof.
  intros (Hc & Ht & Hl & Hu). unfold handleItemListed, holdingOf.
  fold (listedKey e).
  token_branch token' st' Hfr. destruct Hfr as (_ & El & Eu & _).
  simpl. rewrite (getOrCreateListing_id st _ Hl).
  rewrite (getOrCreateUserToken_ext st st' _ Eu).
  destruct (_ =? _); simpl; rewrite Eu; [done|].
  by rewrite (getOrCreateUserToken_id st _ Hu).
Qed.

(** *** Saving and removing keep the store well-formed *)

Lemma Collection_save_wf c st : store_wf st → store_wf (Collection_save c st).
Proof.
  intros (Hc & Ht & Hl & Hu). repeat split; simpl; try done.
  by apply (keyed_insert Collection.id).
Qed.

Lemma Token_save_wf t st : store_wf st → store_wf (Token_save t st).
Proof.
  intros (Hc & Ht & Hl & Hu). repeat split; simpl; try done.
  by apply (keyed_insert Token.id).
Qed.

Lemma Listing_save_wf l st : store_wf st → store_wf (Listing_save l st).
Proof.
  intros (Hc & Ht & Hl & Hu). repeat split; simpl; try done.
  by apply (keyed_insert Listing.id).
Qed.

Lemma UserToken_save_wf u st : store_wf st → store_wf (UserToken_save u st).
Proof.
  intros (Hc & Ht & Hl & Hu). repeat split; simpl; try done.
  by apply (keyed_insert UserToken.id).
Qed.

Lemma store_remove_Listing_wf k st : store_wf st → store_wf (store_remove_Listing k st).
Proof.
  intros (Hc & Ht & Hl & Hu). repeat split; simpl; try done.
  by apply keyed_delete.
Qed.

Lemma store_remove_UserToken_wf k st :
  store_wf st → store_wf (store_remove_UserToken k st).
Proof.
  intros (Hc & Ht & Hl & Hu). repeat split; simpl; try done.
  by apply keyed_delete.
Qed.

Lemma lowerTokenFloor_wf c t p st :
  store_wf st → store_wf (lowerTokenFloor c t p st).2.
Proof.
  intros H. unfold lowerTokenFloor.
  destruct (bool_decide _); [|done].
  destruct (Token.floorPrice t) as [f|]; [destruct (f >? p)|]; simpl;
    auto using Token_save_wf.
Qed.

Create HintDb wf discriminated.
#[local] Hint Resolve Collection_save_wf Token_save_wf Listing_save_wf
  UserToken_save_wf store_remove_Listing_wf store_remove_UserToken_wf
  recalc_wf lowerTokenFloor_wf empty_store_wf : wf.

Lemma handleItemListed_wf e st : store_wf st → store_wf (handleItemListed e st).
Proof.
  intros H. unfold handleItemListed.
  match goal with
  | |- context [lowerTokenFloor ?c ?t ?p ?s] =>
      pose proof (lowerTokenFloor_wf c t p s H) as H';
      destruct (lowerTokenFloor c t p s) as [token' st']
  end.
  simpl in H'. destruct (_ =? _); auto with wf.
Qed.

Lemma handleItemCanceled_wf e st : store_wf st → store_wf (handleItemCanceled e st).
Proof. intros H. unfold handleItemCanceled. auto with wf. Qed.

Lemma recordSale_wf e l st : store_wf st → store_wf (recordSale e l st).
Proof.
  intros H. unfold recordSale.
  destruct (Listing_load _ _); auto 6 with wf.
Qed.

Lemma handleItemSold_wf e st : store_wf st → store_wf (handleItemSold e st).
Proof.
  intros H. unfold handleItemSold.
  destruct (_ =? _); apply recordSale_wf; auto with wf.
Qed.

Lemma handleItemUpdated_wf e st : store_wf st → store_wf (handleItemUpdated e st).
Proof.
  intros H. unfold handleItemUpdated.
  destruct (Listing_load _ st) as [l|]; [|done].
  apply recalc_wf, Listing_save_wf.
  destruct (negb _); [destruct (_ =? _)|]; auto with wf.
Qed.

Lemma handleItemSoldStaging_wf e st :
  store_wf st → store_wf (handleItemSoldStaging e st).
Proof.
  intros H. unfold handleItemSoldStaging.
  destruct (UserToken_load _ st) as [u|]; [|done].
  destruct (_ =? _); auto with wf.
Qed.

Lemma handle_wf ev st : store_wf st → store_wf (handle ev st).
Proof.
  destruct ev; simpl;
    auto using handleItemListed_wf, handleItemCanceled_wf, handleItemSold_wf,
               handleItemUpdated_wf, handleItemSoldStaging_wf.
Qed.

Lemma replay_wf evs : ∀ st, store_wf st → store_wf (replay evs st).
Proof.
  induction evs as [|ev evs IH]; intros st H; [done|].
  simpl. apply IH. by apply handle_wf.
Qed.

(** Reduce the store operations and record projections, and nothing of the
    finite maps underneath. *)
Ltac tables :=
  cbn [listings userTokens collections tokens users fst snd
       Listing_save UserToken_save Collection_save Token_save
       store_remove_Listing store_remove_UserToken
       Listing.id Listing.status Listing.quantity Listing.pricePerItem
       Listing.blockTimestamp Listing.collection Listing.buyer
       Listing.totalPrice Listing.token Listing.user
       Listing.set_quantity Listing.set_pricePerItem Listing.set_expires
       Listing.set_blockTimestamp
       UserToken.id UserToken.quantity UserToken.set_quantity
       Collection.id Collection.floorPrice Collection.listingIds] in *.

(** *** ItemCanceled *)

Lemma handleItemCanceled_tables e st :
  store_wf st →
  listings (handleItemCanceled e st) = delete (canceledKey e) (listings st)
  ∧ ∃ u,
      userTokens (handleItemCanceled e st)
      = <[canceledKey e := u]> (userTokens st)
      ∧ UserToken.quantity u
        = holdingOf st (canceledKey e) + listedOf st (canceledKey e).
Proof.
  intros (Hc & Ht & Hl & Hu). unfold handleItemCanceled.
  fold (canceledKey e).
  rewrite recalc_listings, recalc_userTokens. tables.
  rewrite (getOrCreateListing_id st _ Hl), (getOrCreateUserToken_id st _ Hu).
  split; [done|]. eexists. split; [reflexivity|done].
Qed.

(** *** ItemUpdated *)

Lemma handleItemUpdated_absent e st :
  Listing_load (updatedKey e) st = None → handleItemUpdated e st = st.
Proof. intros H. unfold handleItemUpdated. fold (updatedKey e). by rewrite H. Qed.

Lemma handleItemUpdated_tables e st l :
  store_wf st →
  Listing_load (updatedKey e) st = Some l →
  (∃ L,
     listings (handleItemUpdated e st) = <[updatedKey e := L]> (listings st)
     ∧ Listing.id L = updatedKey e
     ∧ Listing.status L = Listing.status l
     ∧ Listing.quantity L = ItemUpdated.quantity (params e)
     ∧ Listing.pricePerItem L = ItemUpdated.pricePerItem (params e))
  ∧ userTokens (handleItemUpdated e st)
    = if Listing.quantity l =? ItemUpdated.quantity (params e)
      then userTokens st
      else if holdingOf st (updatedKey e)
              + (Listing.quantity l - ItemUpdated.quantity (params e)) =? 0
           then delete (updatedKey e) (userTokens st)
           else <[updatedKey e :=
                    UserToken.mk (updatedKey e)
                      (holdingOf st (updatedKey e)
                       + (Listing.quantity l - ItemUpdated.quantity (params e)))
                      (Listing.token l) (Listing.user l)]> (userTokens st).
Proof.
  intros (Hc & Ht & Hl & Hu) Hload. unfold handleItemUpdated, holdingOf.
  fold (updatedKey e). rewrite Hload.
  assert (Hid : Listing.id l = updatedKey e) by (by eapply keyed_lookup).
  rewrite recalc_listings, recalc_userTokens.
  tables. rewrite ?Hid, ?(getOrCreateUserToken_id st _ Hu). unfold ZERO_BI.
  assert (Hgoal : ∀ (m : gmap string Listing.t) (P : Prop), P →
            (∃ L, <[updatedKey e :=
                      Listing.set_expires (ItemUpdated.expirationTime (params e))
                        (Listing.set_pricePerItem
                           (ItemUpdated.pricePerItem (params e))
                           (Listing.set_quantity
                              (ItemUpdated.quantity (params e))
                              (if negb (Listing.pricePerItem l
                                        =? ItemUpdated.pricePerItem (params e))
                               then Listing.set_blockTimestamp
                                      (block_timestamp e) l
                               else l)))]> m
                  = <[updatedKey e := L]> m
                  ∧ Listing.id L = updatedKey e
                  ∧ Listing.status L = Listing.status l
                  ∧ Listing.quantity L = ItemUpdated.quantity (params e)
                  ∧ Listing.pricePerItem L = ItemUpdated.pricePerItem (params e))
            ∧ P).
  { intros m P HP. split; [|done]. eexists. split; [reflexivity|].
    destruct (negb _); by repeat split. }
  replace (Listing.id (if negb (Listing.pricePerItem l
                                =? ItemUpdated.pricePerItem (params e))
                       then Listing.set_blockTimestamp (block_timestamp e) l
                       else l)) with (updatedKey e)
    by (by destruct (negb _)).
  destruct (Listing.quantity l =? ItemUpdated.quantity (params e));
    cbn [negb]; [|destruct (_ + _ =? 0)]; tables; by apply Hgoal.
Qed.

(** *** ItemSold *)

Lemma removeStale_frame key st :
  let st' := match Listing_load key st with
             | Some _ => store_remove_Listing key st
             | None => st
             end in
  listings st' = delete key (listings st)
  ∧ userTokens st' = userTokens st
  ∧ collections st' = collections st.
Proof.
  simpl. unfold Listing_load.
  destruct (listings st !! key) eqn:Hk; simpl; repeat split.
  by rewrite delete_id.
Qed.

Lemma recordSale_tables e l1 st1 :
  store_wf st1 →
  let m := delete (soldId (Listing.id l1) (logIndex e)) (listings st1) in
  let sk := soldId (Listing.id l1) (Listing.blockTimestamp l1) in
  userTokens (recordSale e l1 st1) = userTokens st1
  ∧ ∃ S,
      listings (recordSale e l1 st1) = <[sk := S]> m
      ∧ Listing.id S = sk
      ∧ Listing.status S = Some "Sold"
      ∧ Listing.quantity S = quantityAt m sk + ItemSold.quantity (params e)
      ∧ Listing.pricePerItem S = Listing.pricePerItem l1
      ∧ Listing.totalPrice S
        = Some (formatPrice (Listing.pricePerItem l1 * Listing.quantity S))
      ∧ Listing.buyer S = Some (toHexString (ItemSold.buyer (params e))).
Proof.
  intros Hwf1 m sk. unfold recordSale.
  rewrite recalc_listings, recalc_userTokens.
  pose proof (removeStale_frame (soldId (Listing.id l1) (logIndex e)) st1) as Hst.
  cbv zeta in Hst.
  assert (Hwf2 : store_wf
            (match Listing_load (soldId (Listing.id l1) (logIndex e)) st1 with
             | Some _ =>
                 store_remove_Listing (soldId (Listing.id l1) (logIndex e)) st1
             | None => st1
             end))
    by (destruct (Listing_load _ st1); auto with wf).
  set (st2 := match Listing_load (soldId (Listing.id l1) (logIndex e)) st1 with
              | Some _ =>
                  store_remove_Listing (soldId (Listing.id l1) (logIndex e)) st1
              | None => st1
              end) in *.
  destruct Hst as (Hm2 & Hu2 & _). fold m in Hm2. fold sk.
  assert (Hsid : Listing.id (getOrCreateListing sk st2) = sk)
    by (apply getOrCreateListing_id, Hwf2).
  tables. rewrite Hu2, Hsid, Hm2. split; [done|].
  eexists. split; [reflexivity|].
  repeat split.
  tables. unfold quantityAt, getOrCreateListing, Listing_load. by rewrite Hm2.
Qed.

Lemma handleItemSold_tables e st :
  store_wf st →
  let k := soldKey e in
  let l := getOrCreateListing k st in
  let q := ItemSold.quantity (params e) in
  let m := delete (soldId k (logIndex e)) (afterSale q k l (listings st)) in
  userTokens (handleItemSold e st) = userTokens st
  ∧ ∃ S,
      listings (handleItemSold e st)
      = <[soldId k (Listing.blockTimestamp l) := S]> m
      ∧ Listing.id S = soldId k (Listing.blockTimestamp l)
      ∧ Listing.status S = Some "Sold"
      ∧ Listing.quantity S = quantityAt m (soldId k (Listing.blockTimestamp l)) + q
      ∧ Listing.pricePerItem S = Listing.pricePerItem l
      ∧ Listing.totalPrice S
        = Some (formatPrice (Listing.pricePerItem l * Listing.quantity S))
      ∧ Listing.buyer S = Some (toHexString (ItemSold.buyer (params e))).
Proof.
  intros Hwf k l q m.
  assert (Hid : Listing.id l = k) by (apply getOrCreateListing_id, Hwf).
  unfold handleItemSold. fold (soldKey e). fold k. fold l. fold q.
  subst m. unfold afterSale.
  destruct (Listing.quantity l =? q).
  - pose proof (recordSale_tables e l (store_remove_Listing (Listing.id l) st)
                  ltac:(auto with wf)) as H.
    cbv zeta in H. tables. rewrite Hid in *. exact H.
  - pose proof (recordSale_tables e
                  (Listing.set_quantity (Listing.quantity l - q) l)
                  (Listing_save (Listing.set_quantity (Listing.quantity l - q) l) st)
                  ltac:(auto with wf)) as H.
    cbv zeta in H. tables. rewrite Hid in *. exact H.
Qed.

(** *** ItemSold, staging *)

Lemma handleItemSoldStaging_tables e st :
  store_wf st →
  listings (handleItemSoldStaging e st) = listings st
  ∧ userTokens (handleItemSoldStaging e st)
    = match userTokens st !! buyerKey e with
      | Some u =>
          if ItemSold.quantity (params e) =? UserToken.quantity u
          then delete (buyerKey e) (userTokens st)
          else <[buyerKey e :=
                   UserToken.set_quantity
                     (UserToken.quantity u - ItemSold.quantity (params e)) u]>
                 (userTokens st)
      | None => userTokens st
      end.
Proof.
  intros (Hc & Ht & Hl & Hu). unfold handleItemSoldStaging, UserToken_load.
  fold (buyerKey e).
  destruct (userTokens st !! buyerKey e) as [u|] eqn:Hload; [|done].
  assert (Hid : UserToken.id u = buyerKey e) by (by eapply keyed_lookup).
  destruct (_ =? _); simpl; rewrite ?Hid; done.
Qed.

(** * Inventory *)

(** Integer arithmetic from the integer facts of the context alone. *)
Ltac zarith :=
  repeat match goal with
         | H : ?T |- _ =>
             lazymatch T with
             | @eq Z _ _ => fail
             | not (@eq Z _ _) => fail
             | Z.le _ _ => fail
             | Z.lt _ _ => fail
             | _ => clear H
             end
         end;
  cbn [from_option id UserToken.set_quantity UserToken.quantity
       new_UserToken new_Listing Listing.quantity Listing.set_quantity] in *;
  unfold ZERO_BI in *; lia.

Lemma isActive_status l : Listing.status l = Some "Active" → Listing.isActive l = true.
Proof. intros H. unfold Listing.isActive. by rewrite bool_decide_eq_true. Qed.

Lemma isActive_same_status l l' :
  Listing.status l' = Listing.status l → Listing.isActive l' = Listing.isActive l.
Proof. intros H. unfold Listing.isActive. by rewrite H. Qed.

Lemma inventory_listed e st k :
  store_wf st → noActiveAt st (listedKey e) →
  inventory (handleItemListed e st) k = inventory st k.
Proof.
  intros Hwf Hno.
  destruct (handleItemListed_listings e st Hwf)
    as (L & HL & _ & Hstatus & Hq & _).
  pose proof (handleItemListed_userTokens e st Hwf) as HU.
  unfold inventory, activeQuantity, Listing_load. rewrite HL.
  unfold holdingOf at 1. unfold getOrCreateUserToken at 1. unfold UserToken_load.
  rewrite HU. clear HL HU.
  unfold holdingOf, getOrCreateUserToken, UserToken_load.
  unfold noActiveAt, Listing_load in Hno.
  destruct (decide (listedKey e = k)) as [<-|Hne].
  - rewrite lookup_insert_eq, (isActive_status L Hstatus), Hq.
    destruct (Z.eqb_spec
                (UserToken.quantity
                   (default (new_UserToken (listedKey e))
                            (userTokens st !! listedKey e)))
                (ItemListed.quantity (params e))) as [E|E].
    + rewrite lookup_delete_eq. cbn [default new_UserToken UserToken.quantity].
      destruct (listings st !! listedKey e) as [l|]; [rewrite Hno|];
        zarith.
    + rewrite lookup_insert_eq.
      cbn [default UserToken.set_quantity UserToken.quantity].
      destruct (listings st !! listedKey e) as [l|]; [rewrite Hno|]; zarith.
  - rewrite lookup_insert_ne by done.
    destruct (_ =? _); [rewrite lookup_delete_ne by done|
                        rewrite lookup_insert_ne by done]; done.
Qed.

Lemma inventory_updated e st k :
  store_wf st → activeOrAbsentAt st (updatedKey e) →
  inventory (handleItemUpdated e st) k = inventory st k.
Proof.
  intros Hwf Hact. unfold activeOrAbsentAt in Hact.
  destruct (Listing_load (updatedKey e) st) as [l|] eqn:Hload;
    [|by rewrite handleItemUpdated_absent].
  destruct (handleItemUpdated_tables e st l Hwf Hload)
    as ((L & HL & _ & Hstatus & Hq & _) & HU).
  unfold inventory, activeQuantity, Listing_load. rewrite HL.
  unfold holdingOf at 1. unfold getOrCreateUserToken at 1. unfold UserToken_load.
  rewrite HU. clear HL HU.
  unfold holdingOf, getOrCreateUserToken, UserToken_load.
  unfold Listing_load in Hload.
  destruct (decide (updatedKey e = k)) as [<-|Hne].
  - rewrite lookup_insert_eq, (isActive_same_status l L Hstatus), Hact, Hq, Hload.
    rewrite Hact.
    destruct (Z.eqb_spec (Listing.quantity l) (ItemUpdated.quantity (params e)))
      as [E|E]; [zarith|].
    destruct (Z.eqb_spec
                (UserToken.quantity
                   (default (new_UserToken (updatedKey e))
                            (userTokens st !! updatedKey e))
                 + (Listing.quantity l - ItemUpdated.quantity (params e))) 0)
      as [E0|E0].
    + rewrite lookup_delete_eq. cbn [default new_UserToken UserToken.quantity].
      zarith.
    + rewrite lookup_insert_eq. cbn [default UserToken.quantity]. zarith.
  - rewrite lookup_insert_ne by done.
    destruct (_ =? _); [done|].
    destruct (_ =? _); [rewrite lookup_delete_ne by done|
                        rewrite lookup_insert_ne by done]; done.
Qed.

Lemma inventory_canceled e st k :
  store_wf st → activeOrAbsentAt st (canceledKey e) →
  inventory (handleItemCanceled e st) k = inventory st k.
Proof.
  intros Hwf Hact. unfold activeOrAbsentAt, Listing_load in Hact.
  destruct (handleItemCanceled_tables e st Hwf) as (HL & u & HU & Hq).
  unfold inventory, activeQuantity, Listing_load. rewrite HL.
  unfold holdingOf at 1. unfold getOrCreateUserToken at 1. unfold UserToken_load.
  rewrite HU. clear HL HU.
  unfold holdingOf, getOrCreateUserToken, UserToken_load.
  destruct (decide (canceledKey e = k)) as [<-|Hne].
  - rewrite lookup_insert_eq, lookup_delete_eq.
    cbn [from_option id]. rewrite Hq. unfold holdingOf, getOrCreateUserToken, UserToken_load.
    unfold listedOf, getOrCreateListing, Listing_load.
    destruct (listings st !! canceledKey e) as [l|];
      [rewrite Hact|]; cbn [default new_Listing Listing.quantity];
      zarith.
  - by rewrite lookup_insert_ne, lookup_delete_ne.
Qed.

(** C8, as stated, fails.  Alice, holding five units, lists three and then
    lists again (two units) while the first listing is Active: the listing
    is overwritten, and the units it held are returned nowhere.  Holding
    plus listed drops from 5 to 2. *)
Lemma inventory_lost_on_relisting :
  inventory (handleItemListed (Sample.listed 5 2 101) Sample.listedThree)
            Sample.key
  ≠ inventory Sample.listedThree Sample.key.
Proof. intros H. vm_compute in H. discriminate H. Qed.

(** C8, amended.  On a well-formed store, for every key [k] (every seller
    and token), the seller's UserToken quantity (zero without a record)
    plus the quantity of the seller's Active listing under [k] is left
    unchanged by [handleItemListed] when no Active listing is stored under
    the event's key, and by [handleItemUpdated] and [handleItemCanceled]
    when the listing stored under the event's key, if any, is Active. *)
Theorem inventory_conserved (st : Store) :
  store_wf st →
  (∀ e k, noActiveAt st (listedKey e) →
          inventory (handleItemListed e st) k = inventory st k)
  ∧ (∀ e k, activeOrAbsentAt st (updatedKey e) →
            inventory (handleItemUpdated e st) k = inventory st k)
  ∧ (∀ e k, activeOrAbsentAt st (canceledKey e) →
            inventory (handleItemCanceled e st) k = inventory st k).
Proof.
  intros Hwf. repeat split; intros e k H.
  - by apply inventory_listed.
  - by apply inventory_updated.
  - by apply inventory_canceled.
Qed.

Lemma inventory_conserved_witness :
  inventory (handleItemListed (Sample.listed 5 3 100) Sample.seeded) Sample.key
  = inventory Sample.seeded Sample.key
  ∧ inventory (handleItemUpdated (Sample.updated 7 1 101) Sample.listedThree)
              Sample.key
    = inventory Sample.listedThree Sample.key
  ∧ inventory (handleItemCanceled Sample.canceled Sample.listedThree) Sample.key
    = inventory Sample.listedThree Sample.key.
Proof.
  assert (Hwf : store_wf Sample.seeded)
    by (apply store_wfb_wf; vm_compute; reflexivity).
  assert (Hwf3 : store_wf Sample.listedThree)
    by (apply store_wfb_wf; vm_compute; reflexivity).
  destruct (inventory_conserved Sample.seeded Hwf) as (Hlisted & _ & _).
  destruct (inventory_conserved Sample.listedThree Hwf3)
    as (_ & Hupdated & Hcanceled).
  assert (H1 : noActiveAt Sample.seeded (listedKey (Sample.listed 5 3 100)))
    by (vm_compute; exact I).
  assert (H2 : activeOrAbsentAt Sample.listedThree
                 (updatedKey (Sample.updated 7 1 101)))
    by (vm_compute; reflexivity).
  assert (H3 : activeOrAbsentAt Sample.listedThree (canceledKey Sample.canceled))
    by (vm_compute; reflexivity).
  exact (conj (Hlisted (Sample.listed 5 3 100) Sample.key H1)
           (conj (Hupdated (Sample.updated 7 1 101) Sample.key H2)
                 (Hcanceled Sample.canceled Sample.key H3))).
Defined.

(** * Quantities of user tokens *)

Lemma holdingOf_nonneg st k : userTokens_nonneg st → 0 ≤ holdingOf st k.
Proof.
  intros H. unfold holdingOf, getOrCreateUserToken, UserToken_load.
  destruct (userTokens st !! k) as [u|] eqn:Hu; cbn [from_option id].
  - exact (H k u Hu).
  - done.
Qed.

Lemma quantityAt_nonneg (m : gmap string Listing.t) k :
  map_Forall (λ _ l, 0 ≤ Listing.quantity l) m → 0 ≤ quantityAt m k.
Proof.
  intros H. unfold quantityAt.
  destruct (m !! k) as [l|] eqn:Hl; cbn [from_option id].
  - exact (H k l Hl).
  - done.
Qed.

Lemma listedOf_nonneg st k : listings_nonneg st → 0 ≤ listedOf st k.
Proof. apply quantityAt_nonneg. Qed.

Lemma step_quantities_ok st ev :
  quantities_ok st → respectsHoldings st ev → quantities_ok (handle ev st).
Proof.
  intros (Hwf & Hu & Hl) Hev.
  split; [by apply handle_wf|].
  unfold userTokens_nonneg, listings_nonneg in *.
  destruct ev as [e|e|e|e|e| | | | |]; cbn [handle respectsHoldings] in *;
    try done.
  - (* ItemListed *)
    destruct Hev as [Hq0 Hqh].
    destruct (handleItemListed_listings e st Hwf) as (L & -> & _ & _ & Hq & _).
    rewrite (handleItemListed_userTokens e st Hwf).
    split.
    + destruct (_ =? _); [by apply map_Forall_delete|].
      apply map_Forall_insert_2; [|done].
      cbn [UserToken.set_quantity UserToken.quantity]. lia.
    + apply map_Forall_insert_2; [|done]. by rewrite Hq.
  - (* ItemUpdated *)
    destruct (Listing_load (updatedKey e) st) as [l|] eqn:Hload;
      [|by rewrite handleItemUpdated_absent].
    destruct Hev as [Hq0 Hqh].
    destruct (handleItemUpdated_tables e st l Hwf Hload)
      as ((L & -> & _ & _ & Hq & _) & ->).
    split.
    + destruct (_ =? _); [done|].
      destruct (_ =? _); [by apply map_Forall_delete|].
      by apply map_Forall_insert_2.
    + apply map_Forall_insert_2; [|done]. by rewrite Hq.
  - (* ItemCanceled *)
    destruct (handleItemCanceled_tables e st Hwf) as (-> & u & -> & Hq).
    split.
    + apply map_Forall_insert_2; [|done]. rewrite Hq.
      pose proof (holdingOf_nonneg st (canceledKey e) Hu).
      pose proof (listedOf_nonneg st (canceledKey e) Hl). lia.
    + by apply map_Forall_delete.
  - (* ItemSold *)
    destruct Hev as [Hq0 Hql].
    destruct (handleItemSold_tables e st Hwf) as (-> & S & -> & _ & _ & Hq & _).
    split; [done|].
    assert (Hm : map_Forall (λ _ l, 0 ≤ Listing.quantity l)
                   (delete (soldId (soldKey e) (logIndex e))
                      (afterSale (ItemSold.quantity (params e)) (soldKey e)
                         (getOrCreateListing (soldKey e) st) (listings st)))).
    { apply map_Forall_delete. unfold afterSale.
      destruct (_ =? _); [by apply map_Forall_delete|].
      apply map_Forall_insert_2; [|done].
      cbn [Listing.set_quantity Listing.quantity].
      unfold listedOf in Hql. lia. }
    apply map_Forall_insert_2; [|done]. rewrite Hq.
    pose proof (quantityAt_nonneg _
                  (soldId (soldKey e)
                     (Listing.blockTimestamp (getOrCreateListing (soldKey e) st)))
                  Hm). lia.
  - (* ItemSold, staging *)
    destruct (handleItemSoldStaging_tables e st Hwf) as (-> & ->).
    split; [|done]. unfold UserToken_load in Hev.
    destruct (userTokens st !! buyerKey e) as [u|] eqn:Hload; [|done].
    destruct (_ =? _); [by apply map_Forall_delete|].
    apply map_Forall_insert_2; [|done].
    cbn [UserToken.set_quantity UserToken.quantity]. lia.
Qed.

(** A handler other than [handleItemCanceled] leaves a user token as it
    was, deletes it, or stores it with a quantity that is not zero. *)
Lemma step_no_zero_stored st ev k :
  store_wf st → ¬ isCancel ev →
  userTokens (handle ev st) !! k = userTokens st !! k
  ∨ userTokens (handle ev st) !! k = None
  ∨ ∃ u, userTokens (handle ev st) !! k = Some u ∧ UserToken.quantity u ≠ 0.
Proof.
  intros Hwf Hnc.
  destruct ev as [e|e|e|e|e| | | | |]; cbn [handle isCancel] in *;
    try (by left); try done.
  - (* ItemListed *)
    rewrite (handleItemListed_userTokens e st Hwf).
    destruct (decide (listedKey e = k)) as [<-|Hne].
    + destruct (Z.eqb_spec (holdingOf st (listedKey e))
                           (ItemListed.quantity (params e))) as [E|E].
      * right. left. apply lookup_delete_eq.
      * right. right. eexists. split; [apply lookup_insert_eq|].
        cbn [UserToken.set_quantity UserToken.quantity]. lia.
    + left. destruct (_ =? _);
        [by rewrite lookup_delete_ne|by rewrite lookup_insert_ne].
  - (* ItemUpdated *)
    destruct (Listing_load (updatedKey e) st) as [l|] eqn:Hload;
      [|left; by rewrite handleItemUpdated_absent].
    destruct (handleItemUpdated_tables e st l Hwf Hload) as (_ & ->).
    destruct (_ =? _); [by left|].
    destruct (decide (updatedKey e = k)) as [<-|Hne].
    + destruct (Z.eqb_spec
                  (holdingOf st (updatedKey e)
                   + (Listing.quantity l - ItemUpdated.quantity (params e))) 0)
        as [E|E].
      * right. left. apply lookup_delete_eq.
      * right. right. eexists. split; [apply lookup_insert_eq|done].
    + left. destruct (_ =? _);
        [by rewrite lookup_delete_ne|by rewrite lookup_insert_ne].
  - (* ItemSold *)
    left. by destruct (handleItemSold_tables e st Hwf) as (-> & _).
  - (* ItemSold, staging *)
    destruct (handleItemSoldStaging_tables e st Hwf) as (_ & ->).
    destruct (userTokens st !! buyerKey e) as [u|] eqn:Hload; [|by left].
    destruct (decide (buyerKey e = k)) as [<-|Hne].
    + destruct (Z.eqb_spec (ItemSold.quantity (params e)) (UserToken.quantity u))
        as [E|E].
      * right. left. apply lookup_delete_eq.
      * right. right. eexists. split; [apply lookup_insert_eq|].
        cbn [UserToken.set_quantity UserToken.quantity]. lia.
    + left. destruct (_ =? _);
        [by rewrite lookup_delete_ne|by rewrite lookup_insert_ne].
Qed.

Lemma respectsHoldingsAll_split (pre : list MarketEvent) : ∀ st ev post,
  quantities_ok st →
  respectsHoldingsAll st (pre ++ ev :: post)%list →
  quantities_ok (replay pre st) ∧ respectsHoldings (replay pre st) ev.
Proof.
  induction pre as [|ev' pre IH]; intros st ev post Hok Hall.
  - by destruct Hall.
  - destruct Hall as [Hev' Hall]. simpl.
    apply (IH (handle ev' st) ev post); [|done].
    by apply step_quantities_ok.
Qed.

(** C4, as stated, fails.  From the empty store a single ItemListed event
    for three units makes [handleItemListed] save a UserToken with quantity
    0 - 3: nothing in the handler compares the holding with the listed
    quantity. *)
Lemma userToken_negative_after_listing :
  ¬ userTokens_nonneg (replay [EvItemListed (Sample.listed 5 3 100)] empty_store).
Proof.
  intros H.
  specialize (H Sample.key (UserToken.mk Sample.key (-3) "" "")
                ltac:(vm_compute; reflexivity)).
  cbn [UserToken.quantity] in H. lia.
Qed.

(** C4, amended.  Start from a well-formed store whose user tokens and
    listings have non-negative quantities, and let every event stay within
    the recorded quantities ([respectsHoldingsAll]).  Then after every
    event of the sequence every stored UserToken has a non-negative
    quantity; and every handler but [handleItemCanceled] leaves each
    UserToken record as it was, deletes it, or stores it with a quantity
    other than zero: where [handleItemListed], [handleItemUpdated] or
    [handleItemSoldStaging] brings a quantity to exactly zero, the record
    is deleted. *)
Theorem userToken_quantities_guarded (st : Store) (evs : list MarketEvent) :
  quantities_ok st →
  respectsHoldingsAll st evs →
  ∀ pre ev post, evs = (pre ++ ev :: post)%list →
    userTokens_nonneg (handle ev (replay pre st))
    ∧ (¬ isCancel ev → ∀ k,
         userTokens (handle ev (replay pre st)) !! k
         = userTokens (replay pre st) !! k
         ∨ userTokens (handle ev (replay pre st)) !! k = None
         ∨ ∃ u, userTokens (handle ev (replay pre st)) !! k = Some u
                ∧ UserToken.quantity u ≠ 0).
Proof.
  intros Hok Hall pre ev post ->.
  destruct (respectsHoldingsAll_split pre st ev post Hok Hall) as [Hok' Hev].
  split.
  - by destruct (step_quantities_ok _ ev Hok' Hev) as (_ & Hu & _).
  - intros Hnc k. apply step_no_zero_stored; [|done]. by destruct Hok'.
Qed.

Lemma userToken_quantities_guarded_witness :
  quantities_ok Sample.seeded
  ∧ respectsHoldingsAll Sample.seeded Sample.listAllThenCancel
  ∧ userTokens_nonneg
      (handle (EvItemListed (Sample.listed 5 5 100)) Sample.seeded)
  ∧ userTokens (handle (EvItemListed (Sample.listed 5 5 100)) Sample.seeded)
      !! Sample.key = None.
Proof.
  assert (Hok : quantities_ok Sample.seeded)
    by (apply quantities_okb_ok; vm_compute; reflexivity).
  assert (Hall : respectsHoldingsAll Sample.seeded Sample.listAllThenCancel).
  { assert (Hh : holdingOf Sample.seeded
                   (listedKey (Sample.listed 5 5 100)) = 5)
      by (vm_compute; reflexivity).
    cbn [respectsHoldingsAll respectsHoldings Sample.listAllThenCancel].
    rewrite Hh. cbn [ItemListed.quantity params Sample.listed]. lia. }
  split; [exact Hok|]. split; [exact Hall|].
  destruct (userToken_quantities_guarded Sample.seeded Sample.listAllThenCancel
              Hok Hall [] (EvItemListed (Sample.listed 5 5 100))
              [EvItemCanceled Sample.canceled] eq_refl) as [Hnn _].
  split; [exact Hnn|]. vm_compute. reflexivity.
Defined.

(** * Price strings *)

Lemma formatPrice_nonzero (number : BigInt) :
  number ≠ 0 →
  let input := BigInt_toString number in
  let decimals := Str.remove_char "0" (Str.slice_from input (-18)) in
  formatPrice number
  = Str.join [Str.slice input 0 (-18);
              if 0 <? Z.of_nat (String.length decimals) then "." else "";
              decimals].
Proof.
  intros Hn. unfold formatPrice.
  destruct (Z.eqb_spec number 0) as [|_]; [done|].
  by rewrite join_split.
Qed.

(** C5: the code at its failing inputs.  [formatPrice] agrees with the
    claim on 0, on 10^18 and on 1.5 * 10^18.  On 5 the whole part is the
    empty string and every zero of the fraction is dropped, not only the
    trailing ones: the result is ".5", not "0.000000000000000005"; and
    1.05 * 10^18 gives "1.5". *)
Theorem formatPrice_drops_every_zero :
  formatPrice 0 = "0"
  ∧ formatPrice (10 ^ 18) = "1"
  ∧ formatPrice 1500000000000000000 = "1.5"
  ∧ formatPrice 5 = ".5"
  ∧ formatPrice 1050000000000000000 = "1.5".
Proof. repeat split; vm_compute; reflexivity. Qed.

(** * Sales *)

Lemma getOrCreateListing_absent st k :
  Listing_load k st = None → getOrCreateListing k st = new_Listing k.
Proof. intros H. unfold getOrCreateListing. by rewrite H. Qed.

Lemma getOrCreateListing_present st k l :
  Listing_load k st = Some l → getOrCreateListing k st = l.
Proof. intros H. unfold getOrCreateListing. by rewrite H. Qed.

(** C6: the code where no listing is stored under the derived key.  The
    accessor hands [handleItemSold] a fresh listing, so the guard
    [if (!listing) return] does not fire: the handler saves a Sold record
    under the key suffixed with the fresh listing's timestamp, 0, and, when
    the sold quantity is not zero, also saves the fresh listing itself,
    with the negated quantity and no status; the store has changed. *)
Theorem handleItemSold_without_listing (e : Event ItemSold.t) (st : Store) :
  store_wf st →
  Listing_load (soldKey e) st = None →
  (∃ S, Listing_load (soldId (soldKey e) 0) (handleItemSold e st) = Some S
        ∧ Listing.status S = Some "Sold")
  ∧ (ItemSold.quantity (params e) ≠ 0 →
     (∃ l, Listing_load (soldKey e) (handleItemSold e st) = Some l
           ∧ Listing.quantity l = - ItemSold.quantity (params e)
           ∧ Listing.status l = None)
     ∧ handleItemSold e st ≠ st).
Proof.
  intros Hwf Habs.
  destruct (handleItemSold_tables e st Hwf) as (_ & S & HL & _ & Hst & _).
  rewrite (getOrCreateListing_absent st _ Habs) in HL.
  cbn [new_Listing Listing.blockTimestamp] in HL. unfold ZERO_BI in HL.
  unfold Listing_load. rewrite HL. split.
  - exists S. split; [apply lookup_insert_eq|done].
  - intros Hq.
    assert (Hk : (<[soldId (soldKey e) 0 := S]>
                   (delete (soldId (soldKey e) (logIndex e))
                      (afterSale (ItemSold.quantity (params e)) (soldKey e)
                         (new_Listing (soldKey e)) (listings st))))
                 !! soldKey e
                 = Some (Listing.set_quantity (0 - ItemSold.quantity (params e))
                           (new_Listing (soldKey e)))).
    { rewrite lookup_insert_ne by apply soldId_ne.
      rewrite lookup_delete_ne by apply soldId_ne.
      unfold afterSale. cbn [new_Listing Listing.quantity]. unfold ZERO_BI.
      destruct (Z.eqb_spec 0 (ItemSold.quantity (params e))) as [E|_];
        [by rewrite <- E in Hq|].
      apply lookup_insert_eq. }
    split.
    + eexists. split; [exact Hk|]. split; [|done].
      cbn [Listing.set_quantity Listing.quantity]. lia.
    + intros Heq. rewrite <- HL, Heq in Hk.
      unfold Listing_load in Habs. rewrite Habs in Hk. discriminate Hk.
Qed.

Lemma handleItemSold_without_listing_witness :
  Listing_load (soldKey (Sample.sold 2 7 0)) empty_store = None
  ∧ (∃ S, Listing_load (soldId (soldKey (Sample.sold 2 7 0)) 0)
                       (handleItemSold (Sample.sold 2 7 0) empty_store) = Some S
          ∧ Listing.status S = Some "Sold")
  ∧ (∃ l, Listing_load (soldKey (Sample.sold 2 7 0))
                       (handleItemSold (Sample.sold 2 7 0) empty_store) = Some l
          ∧ Listing.quantity l = - ItemSold.quantity (params (Sample.sold 2 7 0))
          ∧ Listing.status l = None)
  ∧ handleItemSold (Sample.sold 2 7 0) empty_store ≠ empty_store.
Proof.
  split; [reflexivity|].
  destruct (handleItemSold_without_listing (Sample.sold 2 7 0) empty_store
              empty_store_wf eq_refl) as [Hsold Hrest].
  split; [exact Hsold|].
  apply Hrest. cbn. lia.
Defined.

Lemma sameItem_listedKey (e : Event ItemSold.t) (e' : Event ItemListed.t) :
  sameItem (ItemSold.seller (params e)) (ItemSold.nftAddress (params e))
           (ItemSold.tokenId (params e))
           (ItemListed.seller (params e')) (ItemListed.nftAddress (params e'))
           (ItemListed.tokenId (params e')) →
  listedKey e' = soldKey e.
Proof. intros (Hs & Hn & Ht). unfold listedKey, soldKey. by rewrite Hs, Hn, Ht. Qed.

(** C7.  On a well-formed store, let an Active listing [l] stored under its
    derived key be sold in full.  After [handleItemSold] no record is
    stored under the original key, and a Sold record stands under the
    string made of the original key, a hyphen and the decimal digits of the
    listing's timestamp; that string differs from the original key and
    fixes the timestamp.  Under every other key the handler has written
    nothing.  A following [handleItemListed] for the same seller, contract
    and token stores the new Active listing under the original key and
    leaves the Sold record as it is. *)
Theorem sold_record_frees_original_key
    (st : Store) (e : Event ItemSold.t) (l : Listing.t) (e' : Event ItemListed.t) :
  store_wf st →
  Listing_load (soldKey e) st = Some l →
  Listing.isActive l = true →
  ItemSold.quantity (params e) = Listing.quantity l →
  sameItem (ItemSold.seller (params e)) (ItemSold.nftAddress (params e))
           (ItemSold.tokenId (params e))
           (ItemListed.seller (params e')) (ItemListed.nftAddress (params e'))
           (ItemListed.tokenId (params e')) →
  let soldKey' :=
    (soldKey e ++ "-" ++ BigInt_toString (Listing.blockTimestamp l))%string in
  let st1 := handleItemSold e st in
  let st2 := handleItemListed e' st1 in
  soldKey' ≠ soldKey e
  ∧ (∀ t, (soldKey e ++ "-" ++ BigInt_toString t)%string = soldKey' →
          t = Listing.blockTimestamp l)
  ∧ Listing_load (soldKey e) st1 = None
  ∧ (∃ S, Listing_load soldKey' st1 = Some S
          ∧ Listing.status S = Some "Sold"
          ∧ Listing_load soldKey' st2 = Some S)
  ∧ (∀ k' x, Listing_load k' st1 = Some x →
             k' = soldKey' ∨ Listing_load k' st = Some x)
  ∧ (∃ L, Listing_load (soldKey e) st2 = Some L
          ∧ Listing.status L = Some "Active"
          ∧ Listing.quantity L = ItemListed.quantity (params e')
          ∧ Listing.pricePerItem L = ItemListed.pricePerItem (params e')).
Proof.
  intros Hwf Hload Hact Hfull Hsame. cbv zeta.
  change (soldKey e ++ "-" ++ BigInt_toString (Listing.blockTimestamp l))%string
    with (soldId (soldKey e) (Listing.blockTimestamp l)).
  set (sk := soldId (soldKey e) (Listing.blockTimestamp l)).
  set (st1 := handleItemSold e st). set (st2 := handleItemListed e' st1).
  pose proof (sameItem_listedKey e e' Hsame) as Hkey.
  assert (Hne : sk ≠ soldKey e) by apply soldId_ne.
  destruct (handleItemSold_tables e st Hwf) as (_ & S & HL1 & _ & Hst & _).
  rewrite (getOrCreateListing_present st _ l Hload) in HL1.
  fold sk in HL1. fold st1 in HL1.
  unfold afterSale in HL1. rewrite <- Hfull, Z.eqb_refl in HL1.
  assert (Hwf1 : store_wf st1) by (by apply handleItemSold_wf).
  destruct (handleItemListed_listings e' st1 Hwf1)
    as (L & HL2 & _ & HstL & HqL & HpL & _).
  fold st2 in HL2. rewrite Hkey in HL2.
  assert (HS1 : Listing_load sk st1 = Some S).
  { unfold Listing_load. rewrite HL1. apply lookup_insert_eq. }
  split; [done|]. split; [|split; [|split; [|split]]].
  - intros t Ht. apply (soldId_inj (soldKey e)). exact Ht.
  - unfold Listing_load. rewrite HL1.
    rewrite lookup_insert_ne by done.
    rewrite lookup_delete_ne by apply soldId_ne.
    apply lookup_delete_eq.
  - exists S. split; [done|]. split; [done|].
    unfold Listing_load in *. rewrite HL2.
    rewrite lookup_insert_ne by done. exact HS1.
  - intros k' x. unfold Listing_load. rewrite HL1.
    destruct (decide (sk = k')) as [<-|Hk']; [by left|].
    rewrite lookup_insert_ne by done.
    intros Hx. right.
    apply lookup_delete_Some in Hx as [_ Hx].
    by apply lookup_delete_Some in Hx as [_ Hx].
  - exists L. split; [|done].
    unfold Listing_load. rewrite HL2. apply lookup_insert_eq.
Qed.

Lemma sold_record_frees_original_key_witness :
  let st1 := handleItemSold (Sample.sold 3 200 0) Sample.listedThree in
  let st2 := handleItemListed (Sample.listed 9 1 300) st1 in
  Listing_load Sample.key Sample.listedThree = Some Sample.threeListed
  ∧ Listing_load Sample.key st1 = None
  ∧ (∃ S, Listing_load "0xa11ce-0xc0de-1-100" st1 = Some S
          ∧ Listing.status S = Some "Sold"
          ∧ Listing_load "0xa11ce-0xc0de-1-100" st2 = Some S)
  ∧ (∀ k' x, Listing_load k' st1 = Some x →
             k' = "0xa11ce-0xc0de-1-100"
             ∨ Listing_load k' Sample.listedThree = Some x)
  ∧ (∃ L, Listing_load Sample.key st2 = Some L
          ∧ Listing.status L = Some "Active"
          ∧ Listing.quantity L = 1
          ∧ Listing.pricePerItem L = 9).
Proof.
  assert (Hwf : store_wf Sample.listedThree)
    by (apply store_wfb_wf; vm_compute; reflexivity).
  assert (Hload : Listing_load (soldKey (Sample.sold 3 200 0)) Sample.listedThree
                  = Some Sample.threeListed) by (vm_compute; reflexivity).
  split; [exact Hload|].
  assert (Hsame : sameItem
            (ItemSold.seller (params (Sample.sold 3 200 0)))
            (ItemSold.nftAddress (params (Sample.sold 3 200 0)))
            (ItemSold.tokenId (params (Sample.sold 3 200 0)))
            (ItemListed.seller (params (Sample.listed 9 1 300)))
            (ItemListed.nftAddress (params (Sample.listed 9 1 300)))
            (ItemListed.tokenId (params (Sample.listed 9 1 300))))
    by (repeat split).
  destruct (sold_record_frees_original_key Sample.listedThree
              (Sample.sold 3 200 0) Sample.threeListed (Sample.listed 9 1 300)
              Hwf Hload eq_refl eq_refl Hsame)
    as (_ & _ & H1 & H2 & H3 & H4).
  exact (conj H1 (conj H2 (conj H3 H4))).
Defined.







(** * Decimal strings *)


Lemma pretty_Z_pos (z : Z) : 0 < z → pretty z = pretty_N_go (Z.to_N z) "".
Proof.
  destruct z as [|p|p]; try lia. intros _.
  unfold pretty, pretty_Z, pretty, pretty_positive, pretty, pretty_N.
  by destruct (decide (N.pos p = 0%N)).
Qed.

Lemma pretty_N_go_append (x : N) : ∀ s, pretty_N_go x s = (pretty_N_go x "" ++ s)%string.
Proof.
  induction (N.lt_wf_0 x) as [x _ IH]; intros s.
  assert (x = 0 ∨ 0 < x)%N as [->|Hx] by lia.
  - by rewrite !pretty_N_go_0.
  - rewrite !(pretty_N_go_step x) by done.
    assert (Hlt : (x `div` 10 < x)%N) by (by apply N.div_lt).
    rewrite (IH _ Hlt (String _ s)), (IH _ Hlt (String _ "")).
    by rewrite append_assoc.
Qed.

Lemma pretty_N_go_times_10 (x : N) :
  (0 < x)%N → pretty_N_go (10 * x) "" = (pretty_N_go x "" ++ "0")%string.
Proof.
  intros Hx. rewrite pretty_N_go_step by lia.
  replace ((10 * x) `div` 10)%N with x
    by (symmetry; rewrite N.mul_comm; by apply N.div_mul).
  replace ((10 * x) `mod` 10)%N with 0%N
    by (symmetry; rewrite N.mul_comm; by apply N.Div0.mod_mul).
  by rewrite pretty_N_go_append.
Qed.

Lemma zeros_snoc k : (zeros k ++ "0")%string = zeros (S k).
Proof. induction k as [|k IH]; [done|]. simpl. rewrite append_cons. by rewrite IH. Qed.

Lemma pretty_N_go_shift (k : nat) (x : N) :
  (0 < x)%N →
  pretty_N_go (x * 10 ^ N.of_nat k) "" = (pretty_N_go x "" ++ zeros k)%string.
Proof.
  intros Hx. induction k as [|k IH].
  - simpl. by rewrite N.mul_1_r, append_empty_r.
  - rewrite Nat2N.inj_succ, N.pow_succ_r'.
    replace (x * (10 * 10 ^ N.of_nat k))%N with (10 * (x * 10 ^ N.of_nat k))%N by lia.
    rewrite pretty_N_go_times_10
      by (apply N.mul_pos_pos; [done|]; apply N.neq_0_lt_0, N.pow_nonzero; lia).
    by rewrite IH, append_assoc, zeros_snoc.
Qed.

Lemma pretty_N_go_length_le (k : nat) : ∀ x : N,
  (x < 10 ^ N.of_nat k)%N → (String.length (pretty_N_go x "") ≤ k)%nat.
Proof.
  induction k as [|k IH]; intros x Hx.
  - assert (x = 0%N) as -> by (simpl in Hx; lia). rewrite pretty_N_go_0. simpl. lia.
  - assert (x = 0 ∨ 0 < x)%N as [->|Hpos] by lia.
    { rewrite pretty_N_go_0. simpl. lia. }
    rewrite pretty_N_go_step, pretty_N_go_append by done.
    rewrite length_append. simpl.
    assert (Hd : (x `div` 10 < 10 ^ N.of_nat k)%N).
    { apply N.Div0.div_lt_upper_bound.
      rewrite Nat2N.inj_succ, N.pow_succ_r' in Hx. lia. }
    specialize (IH _ Hd). lia.
Qed.

Lemma pretty_N_go_length_pos (x : N) :
  (0 < x)%N → (0 < String.length (pretty_N_go x ""))%nat.
Proof.
  intros Hx. rewrite pretty_N_go_step, pretty_N_go_append by done.
  rewrite length_append. simpl. lia.
Qed.

(** ** Substrings of a concatenation *)

Lemma substring_prefix (a b : string) :
  substring 0 (String.length a) (a ++ b) = a.
Proof.
  induction a as [|c a IH].
  - simpl. by destruct b.
  - rewrite append_cons. simpl. by rewrite IH.
Qed.

Lemma substring_whole (s : string) : substring 0 (String.length s) s = s.
Proof. induction s as [|c s IH]; [done|]. simpl. by rewrite IH. Qed.

Lemma substring_suffix (a b : string) :
  substring (String.length a) (String.length b) (a ++ b) = b.
Proof.
  induction a as [|c a IH].
  - change ("" ++ b)%string with b. apply substring_whole.
  - rewrite append_cons. simpl. exact IH.
Qed.

Lemma length_zeros k : String.length (zeros k) = k.
Proof. induction k as [|k IH]; simpl; [done|by rewrite IH]. Qed.

Lemma remove_char_zeros k : Str.remove_char "0" (zeros k) = "".
Proof. induction k as [|k IH]; [done|]. simpl. exact IH. Qed.

Lemma remove_char_append c (a b : string) :
  Str.remove_char c (a ++ b) = (Str.remove_char c a ++ Str.remove_char c b)%string.
Proof.
  induction a as [|x a IH]; [done|]. rewrite append_cons. simpl.
  destruct (Ascii.eqb x c); [done|]. by rewrite append_cons, IH.
Qed.

Lemma slice_whole_part (a b : string) :
  String.length b = 18%nat → a ≠ "" →
  Str.slice (a ++ b) 0 (-18) = a.
Proof.
  intros Hb Ha. unfold Str.slice, Str.clamp. rewrite length_append, Hb.
  assert (0 < String.length a)%nat by (destruct a; [done|simpl; lia]).
  cbn [Z.ltb Z.compare].
  destruct (Z.ltb_spec (-18) 0); [|lia].
  replace (Z.max (-18 + Z.of_nat (String.length a + 18)) 0)
    with (Z.of_nat (String.length a)) by lia.
  replace (Z.min 0 (Z.of_nat (String.length a + 18))) with 0 by lia.
  destruct (Z.leb_spec (Z.of_nat (String.length a) - 0) 0); [lia|].
  rewrite Z.sub_0_r, Nat2Z.id. change (Z.to_nat 0) with 0%nat.
  apply substring_prefix.
Qed.

Lemma slice_from_fraction (a b : string) :
  String.length b = 18%nat →
  Str.slice_from (a ++ b) (-18) = b.
Proof.
  intros Hb. unfold Str.slice_from, Str.slice, Str.clamp.
  rewrite length_append, Hb.
  destruct (Z.ltb_spec (-18) 0); [|lia].
  destruct (Z.ltb_spec (Z.of_nat (String.length a + 18)) 0); [lia|].
  replace (Z.max (-18 + Z.of_nat (String.length a + 18)) 0)
    with (Z.of_nat (String.length a)) by lia.
  rewrite Z.min_id.
  destruct (Z.leb_spec (Z.of_nat (String.length a + 18)
                        - Z.of_nat (String.length a)) 0); [lia|].
  replace (Z.of_nat (String.length a + 18) - Z.of_nat (String.length a))
    with (Z.of_nat 18) by lia.
  rewrite !Nat2Z.id, <- Hb. apply substring_suffix.
Qed.

Lemma slice_short_whole (s : string) :
  (String.length s ≤ 18)%nat → Str.slice s 0 (-18) = "".
Proof.
  intros Hs. unfold Str.slice, Str.clamp.
  destruct (Z.ltb_spec (-18) 0); [|lia].
  destruct (Z.ltb_spec 0 0); [lia|].
  replace (Z.max (-18 + Z.of_nat (String.length s)) 0) with 0 by lia.
  replace (Z.min 0 (Z.of_nat (String.length s))) with 0 by lia.
  reflexivity.
Qed.

Lemma slice_from_short (s : string) :
  (String.length s ≤ 18)%nat → Str.slice_from s (-18) = s.
Proof.
  intros Hs. unfold Str.slice_from, Str.slice, Str.clamp.
  destruct (Z.ltb_spec (-18) 0); [|lia].
  destruct (Z.ltb_spec (Z.of_nat (String.length s)) 0); [lia|].
  replace (Z.max (-18 + Z.of_nat (String.length s)) 0) with 0 by lia.
  rewrite Z.min_id, Z.sub_0_r.
  destruct (Z.leb_spec (Z.of_nat (String.length s)) 0).
  - destruct s; [done|simpl in *; lia].
  - rewrite Nat2Z.id. change (Z.to_nat 0) with 0%nat. apply substring_whole.
Qed.

(** X1.  A whole number of tokens: eighteen zeros end the decimal string of
    the amount in wei, the fraction is empty after its zeros are taken out,
    and [formatPrice] gives the whole number in decimal, without a
    point. *)
Theorem formatPrice_whole_amount (w : BigInt) :
  0 < w → formatPrice (w * 10 ^ 18) = BigInt_toString w.
Proof.
  intros Hw. unfold formatPrice.
  destruct (Z.eqb_spec (w * 10 ^ 18) 0) as [E|_]; [lia|].
  rewrite join_split. unfold BigInt_toString.
  rewrite (pretty_Z_pos (w * 10 ^ 18)) by lia.
  rewrite (pretty_Z_pos w Hw).
  replace (Z.to_N (w * 10 ^ 18)) with (Z.to_N w * 10 ^ N.of_nat 18)%N by lia.
  rewrite pretty_N_go_shift by lia.
  assert (Hne : pretty_N_go (Z.to_N w) "" ≠ "").
  { pose proof (pretty_N_go_length_pos (Z.to_N w) ltac:(lia)) as Hl.
    intros E. rewrite E in Hl. simpl in Hl. lia. }
  rewrite slice_whole_part by (done || apply length_zeros).
  rewrite slice_from_fraction by apply length_zeros.
  rewrite remove_char_zeros. unfold Str.join. simpl.
  by rewrite !append_empty_r.
Qed.

(** X2.  Below a tenth of a token [formatPrice] does not tell an amount from
    its tenfold: a zero appended to a decimal string of fewer than eighteen
    digits is among those taken out, so both come out as the same
    string. *)
Theorem formatPrice_ignores_trailing_zero (n : BigInt) :
  0 < n < 10 ^ 17 → formatPrice (10 * n) = formatPrice n.
Proof.
  intros [Hn Hlt]. unfold formatPrice.
  destruct (Z.eqb_spec (10 * n) 0) as [E|_]; [lia|].
  destruct (Z.eqb_spec n 0) as [E|_]; [lia|].
  rewrite !join_split. unfold BigInt_toString.
  rewrite (pretty_Z_pos (10 * n)), (pretty_Z_pos n) by lia.
  replace (Z.to_N (10 * n)) with (10 * Z.to_N n)%N by lia.
  rewrite pretty_N_go_times_10 by lia.
  assert (Hl : (String.length (pretty_N_go (Z.to_N n) "") ≤ 17)%nat).
  { apply (pretty_N_go_length_le 17). change (10 ^ N.of_nat 17)%N with (Z.to_N (10 ^ 17)). lia. }
  assert (Hl' : (String.length (pretty_N_go (Z.to_N n) "" ++ "0") ≤ 18)%nat).
  { rewrite length_append. simpl. lia. }
  rewrite !slice_short_whole, !slice_from_short by lia.
  rewrite remove_char_append. simpl. by rewrite append_empty_r.
Qed.

Lemma pretty_N_char_nonzero (d : N) :
  (0 < d < 10)%N → Ascii.eqb (pretty_N_char d) "0" = false.
Proof.
  intros Hd.
  assert (d = 1 ∨ d = 2 ∨ d = 3 ∨ d = 4 ∨ d = 5 ∨ d = 6 ∨ d = 7 ∨ d = 8 ∨ d = 9)%N
    as Hc by lia.
  repeat (destruct Hc as [->|Hc]; [reflexivity|]). by subst.
Qed.

Lemma append_nonempty_l (a b : string) : a ≠ "" → (a ++ b)%string ≠ "".
Proof. destruct a; [done|]. intros _. by rewrite append_cons. Qed.

Lemma remove_zero_digits_nonempty (x : N) :
  (0 < x)%N → Str.remove_char "0" (pretty_N_go x "") ≠ "".
Proof.
  induction (N.lt_wf_0 x) as [x _ IH]; intros Hx.
  rewrite pretty_N_go_step, pretty_N_go_append, remove_char_append by done.
  destruct (N.eq_0_gt_0_cases (x `div` 10)) as [E|Hd].
  - rewrite E, pretty_N_go_0. change (Str.remove_char "0" "") with "".
    assert (Hm : (0 < x `mod` 10 < 10)%N).
    { clear -E Hx. apply N.div_small_iff in E; [|lia].
      rewrite (N.mod_small x 10) by done. lia. }
    simpl. by rewrite (pretty_N_char_nonzero _ Hm).
  - apply append_nonempty_l, IH; [|done]. by apply N.div_lt.
Qed.


(** The digits of [a * 10 ^ k + b], for [b] of at most [k] digits: those of
    [a], then zeros, then those of [b], the last two [k] characters long. *)
Lemma pretty_N_go_split (k : nat) : ∀ (a b : N) (s : string),
  (0 < a)%N → (b < 10 ^ N.of_nat k)%N →
  ∃ j : nat,
    pretty_N_go (a * 10 ^ N.of_nat k + b) s
    = pretty_N_go a (zeros j ++ pretty_N_go b s)
    ∧ (j + String.length (pretty_N_go b "") = k)%nat.
Proof.
  induction k as [|k IH]; intros a b s Ha Hb.
  - assert (b = 0%N) as -> by (simpl in Hb; lia).
    exists 0%nat. simpl. rewrite N.mul_1_r, N.add_0_r, !pretty_N_go_0.
    split; [|done]. reflexivity.
  - rewrite Nat2N.inj_succ, N.pow_succ_r' in *.
    assert (Hpow : (0 < 10 ^ N.of_nat k)%N)
      by (apply N.neq_0_lt_0, N.pow_nonzero; lia).
    assert (Hx : (0 < a * (10 * 10 ^ N.of_nat k) + b)%N) by nia.
    rewrite (pretty_N_go_step _ s Hx).
    assert (Hdiv : ((a * (10 * 10 ^ N.of_nat k) + b) `div` 10
                    = a * 10 ^ N.of_nat k + b `div` 10)%N).
    { replace (a * (10 * 10 ^ N.of_nat k) + b)%N
        with (b + a * 10 ^ N.of_nat k * 10)%N by lia.
      rewrite N.div_add by lia. lia. }
    assert (Hmod : ((a * (10 * 10 ^ N.of_nat k) + b) `mod` 10 = b `mod` 10)%N).
    { replace (a * (10 * 10 ^ N.of_nat k) + b)%N
        with (b + a * 10 ^ N.of_nat k * 10)%N by lia.
      by rewrite N.Div0.mod_add. }
    rewrite Hdiv, Hmod.
    assert (Hb' : (b `div` 10 < 10 ^ N.of_nat k)%N)
      by (apply N.Div0.div_lt_upper_bound; lia).
    destruct (IH a (b `div` 10)%N (String (pretty_N_char (b `mod` 10)) s) Ha Hb')
      as (j & Heq & Hlen).
    rewrite Heq.
    destruct (N.eq_0_gt_0_cases b) as [->|Hpos].
    + exists (S j). change (0 `div` 10)%N with 0%N in *.
      change (0 `mod` 10)%N with 0%N. rewrite !pretty_N_go_0 in *.
      simpl in Hlen. split; [|simpl; lia].
      f_equal. rewrite <- zeros_snoc, append_assoc. reflexivity.
    + exists j. rewrite <- (pretty_N_go_step b s Hpos). split; [done|].
      rewrite (pretty_N_go_step b "" Hpos), pretty_N_go_append, length_append.
      simpl. lia.
Qed.

(** X3.  A positive amount with a fraction of a token: [formatPrice] gives
    the whole tokens in decimal (nothing for none, so no leading zero),
    then a point, then the decimal digits of the fraction counted in wei
    with every zero taken out, leading and inner ones included; at least
    one digit follows the point. *)
Theorem formatPrice_with_fraction (w f : BigInt) :
  0 ≤ w → 0 < f < 10 ^ 18 →
  formatPrice (w * 10 ^ 18 + f)
  = ((if (w =? 0)%Z then "" else BigInt_toString w) ++ "."
     ++ Str.remove_char "0" (BigInt_toString f))%string
  ∧ Str.remove_char "0" (BigInt_toString f) ≠ "".
Proof.
  intros Hw [Hf Hlt]. unfold formatPrice, BigInt_toString.
  destruct (Z.eqb_spec (w * 10 ^ 18 + f) 0) as [E|_]; [lia|].
  rewrite join_split, (pretty_Z_pos (w * 10 ^ 18 + f)), (pretty_Z_pos f Hf)
    by lia.
  pose proof (remove_zero_digits_nonempty (Z.to_N f) ltac:(lia)) as Hne.
  split; [|done].
  destruct (Z.eqb_spec w 0) as [->|Hw0].
  - rewrite Z.mul_0_l, Z.add_0_l.
    assert (Hl : (String.length (pretty_N_go (Z.to_N f) "") ≤ 18)%nat).
    { apply (pretty_N_go_length_le 18).
      change (10 ^ N.of_nat 18)%N with (Z.to_N (10 ^ 18)). lia. }
    rewrite slice_short_whole, slice_from_short by done.
    destruct (Str.remove_char "0" (pretty_N_go (Z.to_N f) "")) as [|c d];
      [done|reflexivity].
  - rewrite (pretty_Z_pos w) by lia.
    replace (Z.to_N (w * 10 ^ 18 + f))
      with (Z.to_N w * 10 ^ N.of_nat 18 + Z.to_N f)%N by lia.
    destruct (pretty_N_go_split 18 (Z.to_N w) (Z.to_N f) "") as (j & -> & Hj).
    { lia. }
    { change (10 ^ N.of_nat 18)%N with (Z.to_N (10 ^ 18)). lia. }
    rewrite pretty_N_go_append.
    assert (Hwne : pretty_N_go (Z.to_N w) "" ≠ "").
    { pose proof (pretty_N_go_length_pos (Z.to_N w) ltac:(lia)) as Hl.
      intros E. rewrite E in Hl. simpl in Hl. lia. }
    assert (Hlen : String.length (zeros j ++ pretty_N_go (Z.to_N f) "") = 18%nat)
      by (by rewrite length_append, length_zeros).
    rewrite slice_whole_part, slice_from_fraction by done.
    rewrite remove_char_append, remove_char_zeros.
    change ("" ++ Str.remove_char "0" (pretty_N_go (Z.to_N f) ""))%string
      with (Str.remove_char "0" (pretty_N_go (Z.to_N f) "")).
    destruct (Str.remove_char "0" (pretty_N_go (Z.to_N f) "")) as [|c d];
      [done|reflexivity].
Qed.

(** * The recalculator, further *)

Lemma scanEntry_meta st lid c fp i :
  Collection.name (scanEntry st lid (c, fp) i).1 = Collection.name c
  ∧ Collection.standard (scanEntry st lid (c, fp) i).1 = Collection.standard c
  ∧ Collection.totalListings (scanEntry st lid (c, fp) i).1
    = Collection.totalListings c.
Proof.
  unfold scanEntry. destruct (Listing_load lid st) as [l|]; [|done].
  destruct (Listing.isActive l); [|done]. cbn [fst].
  by destruct (lowersFloor _ _).
Qed.

Lemma scan_meta st suf : ∀ pre c fp,
  Collection.name
    (foldl (scanStep st (pre ++ suf)) (c, fp) (seq (length pre) (length suf))).1
  = Collection.name c
  ∧ Collection.standard
      (foldl (scanStep st (pre ++ suf)) (c, fp) (seq (length pre) (length suf))).1
    = Collection.standard c.
Proof.
  induction suf as [|lid suf IH]; intros pre c fp; [done|].
  rewrite scan_unroll.
  destruct (scanEntry st lid (c, fp) (length pre)) as [c' fp'] eqn:He.
  destruct (IH (pre ++ [lid])%list c' fp') as [-> ->].
  pose proof (scanEntry_meta st lid c fp (length pre)) as (Hn & Hs & _).
  rewrite He in Hn, Hs. done.
Qed.

Lemma removeAt_sublist (i : nat) (ids : list string) : removeAt i ids `sublist_of` ids.
Proof.
  unfold removeAt. rewrite <- (take_drop i ids) at 3.
  apply sublist_app; [done|].
  replace (S i) with (i + 1)%nat by lia.
  rewrite <- drop_drop. apply sublist_drop.
Qed.

Lemma scan_sublist st suf : ∀ pre c fp,
  Collection.listingIds
    (foldl (scanStep st (pre ++ suf)) (c, fp) (seq (length pre) (length suf))).1
  `sublist_of` Collection.listingIds c.
Proof.
  induction suf as [|lid suf IH]; intros pre c fp; [done|].
  rewrite scan_unroll.
  destruct (scanEntry st lid (c, fp) (length pre)) as [c' fp'] eqn:He.
  etrans; [apply IH|].
  pose proof (scanEntry_listingIds st lid c fp (length pre)) as Hids.
  rewrite He in Hids. cbn [fst] in Hids. rewrite Hids.
  destruct (activePrice st lid); [done|apply removeAt_sublist].
Qed.

(** The store the recalculator leaves, in full: the saved collection and
    the tables around it. *)
Lemma recalc_result id st c :
  store_wf st →
  Collection_load (toHexString id) st = Some c →
  ∃ c' fp,
    scanListings st (Collection.listingIds c)
                 (Collection.set_floorPrice ZERO_BI c) = (c', fp)
    ∧ collections (updateCollectionFloorAndTotal id st)
      = <[toHexString id :=
            Collection.set_totalListings
              (Z.of_nat (length (Collection.listingIds c'))) c']>
          (collections st)
    ∧ tokens (updateCollectionFloorAndTotal id st)
      = tokens (foldl saveTokenFloor st fp).
Proof.
  intros (Hk & _) Hc.
  destruct (recalc_saves id st c Hc) as (c' & fp & Hscan & ->).
  exists c', fp. split; [done|].
  pose proof (scanListings_id st c) as Hid. rewrite Hscan in Hid.
  cbn [fst] in Hid.
  unfold Collection_save.
  cbn [collections tokens Collection.id Collection.set_totalListings].
  destruct (saveTokenFloors_frame fp st) as (-> & _).
  by rewrite Hid, (keyed_lookup _ _ _ _ Hk Hc).
Qed.

(** X4.  [updateCollectionFloorAndTotal] changes nothing but the collection
    it is called for and token floor prices: listings, user tokens and
    users are as before, every other collection is as before, the
    collection keeps its id, name and standard, and its index afterwards is
    a sublist of its index before (entries are only removed, the order
    kept).  Called for a collection that is not stored, it changes
    nothing. *)
Theorem recalculation_frame (id : Address) (st : Store) :
  store_wf st →
  listings (updateCollectionFloorAndTotal id st) = listings st
  ∧ userTokens (updateCollectionFloorAndTotal id st) = userTokens st
  ∧ users (updateCollectionFloorAndTotal id st) = users st
  ∧ (∀ k, k ≠ toHexString id →
          Collection_load k (updateCollectionFloorAndTotal id st)
          = Collection_load k st)
  ∧ match Collection_load (toHexString id) st with
    | None => updateCollectionFloorAndTotal id st = st
    | Some c =>
        ∃ c', Collection_load (toHexString id)
                (updateCollectionFloorAndTotal id st) = Some c'
              ∧ Collection.id c' = Collection.id c
              ∧ Collection.name c' = Collection.name c
              ∧ Collection.standard c' = Collection.standard c
              ∧ Collection.listingIds c' `sublist_of` Collection.listingIds c
    end.
Proof.
  intros Hwf.
  destruct (recalc_frame id st) as (HL & HU & HUs).
  split; [done|]. split; [done|]. split; [done|].
  destruct (Collection_load (toHexString id) st) as [c|] eqn:Hc.
  - destruct (recalc_result id st c Hwf Hc) as (c' & fp & Hscan & Hcol & _).
    split.
    + intros k Hk. unfold Collection_load. rewrite Hcol.
      by rewrite lookup_insert_ne by (by apply not_eq_sym).
    + eexists. split.
      { unfold Collection_load. rewrite Hcol. apply lookup_insert_eq. }
      pose proof (scanListings_id st c) as Hid.
      pose proof (scan_meta st (Collection.listingIds c) []
                    (Collection.set_floorPrice ZERO_BI c) []) as [Hn Hs].
      pose proof (scan_sublist st (Collection.listingIds c) []
                    (Collection.set_floorPrice ZERO_BI c) []) as Hsub.
      change (foldl _ _ _) with
        (scanListings st (Collection.listingIds c)
                      (Collection.set_floorPrice ZERO_BI c)) in Hn, Hs, Hsub.
      rewrite Hscan in Hid, Hn, Hs, Hsub. cbn [fst] in Hid, Hn, Hs, Hsub.
      by repeat split.
  - unfold updateCollectionFloorAndTotal. rewrite Hc. by split.
Qed.

(** ** Stale entries, one at most *)

Lemma scan_range_unroll st pre lid rest acc n :
  foldl (scanStep st (pre ++ lid :: rest)) acc (seq (length pre) (S n))
  = foldl (scanStep st ((pre ++ [lid]) ++ rest))
          (scanEntry st lid acc (length pre))
          (seq (length (pre ++ [lid])) n).
Proof.
  cbn [seq foldl]. unfold scanStep at 2.
  rewrite list_lookup_middle by done.
  rewrite length_app, Nat.add_1_r. cbn [length].
  by rewrite <- app_assoc.
Qed.

Lemma scan_range_no_stale st mid : ∀ pre post c fp,
  allActive st mid →
  Collection.listingIds
    (foldl (scanStep st (pre ++ mid ++ post)) (c, fp)
           (seq (length pre) (length mid))).1
  = Collection.listingIds c.
Proof.
  induction mid as [|lid mid IH]; intros pre post c fp Hall; [done|].
  inversion Hall as [|? ? [p Hp] Hall']; subst.
  cbn [length]. rewrite <- app_comm_cons, scan_range_unroll.
  destruct (scanEntry st lid (c, fp) (length pre)) as [c' fp'] eqn:He.
  rewrite (IH _ _ _ _ Hall').
  pose proof (scanEntry_listingIds st lid c fp (length pre)) as Hids.
  by rewrite He, Hp in Hids.
Qed.

Lemma removeAt_middle (pre suf : list string) (x : string) :
  removeAt (length pre) (pre ++ x :: suf) = (pre ++ suf)%list.
Proof.
  unfold removeAt. rewrite take_app_length. f_equal.
  rewrite (cons_middle x pre suf), app_assoc.
  replace (S (length pre)) with (length (pre ++ [x]))
    by (rewrite length_app; simpl; lia).
  apply drop_app_length.
Qed.

Lemma scan_one_stale st pre x suf c :
  Collection.listingIds c = (pre ++ x :: suf)%list →
  allActive st pre → stale st x → allActive st suf →
  Collection.listingIds (scanListings st (Collection.listingIds c) c).1
  = (pre ++ suf)%list.
Proof.
  intros Hids Hpre Hx Hsuf. unfold scanListings. rewrite Hids.
  rewrite length_app. rewrite seq_app, foldl_app. cbn [Nat.add].
  pose proof (scan_range_no_stale st pre [] (x :: suf) c [] Hpre) as H1.
  cbn [app length] in H1.
  destruct (foldl (scanStep st (pre ++ x :: suf)) (c, []) (seq 0 (length pre)))
    as [c1 fp1] eqn:E1.
  assert (Hc1 : Collection.listingIds c1 = Collection.listingIds c).
  { rewrite <- H1. change c1 with (c1, fp1).1 at 1. rewrite <- E1. reflexivity. }
  clear H1. cbn [length]. rewrite scan_unroll.
  pose proof (scanEntry_listingIds st x c1 fp1 (length pre)) as H2.
  destruct (scanEntry st x (c1, fp1) (length pre)) as [c2 fp2] eqn:E2.
  cbn [fst] in H2. unfold stale in Hx. rewrite Hx, Hc1, Hids in H2.
  rewrite removeAt_middle in H2.
  by rewrite scan_listingIds_no_stale.
Qed.

Lemma indexedActivePrices_app st (a b : list string) :
  indexedActivePrices st (a ++ b) = (indexedActivePrices st a ++ indexedActivePrices st b)%list.
Proof. unfold indexedActivePrices. apply omap_app. Qed.

Lemma allActive_listings st st' ids :
  listings st' = listings st → allActive st ids → allActive st' ids.
Proof.
  intros E H. unfold allActive, activePrice, Listing_load in *. by rewrite E.
Qed.

(** X5.  When every entry of a collection's index is a stored Active
    listing, [updateCollectionFloorAndTotal] leaves the index as it is,
    sets totalListings to its length and leaves as floorPrice the one a
    scan of the saved index finds; a second run leaves the same floorPrice
    and index as the first. *)
Theorem recalculation_on_clean_index (id : Address) (st : Store) (c : Collection.t) :
  store_wf st →
  Collection_load (toHexString id) st = Some c →
  allActive st (Collection.listingIds c) →
  ∃ once twice,
    Collection_load (toHexString id) (updateCollectionFloorAndTotal id st)
    = Some once
    ∧ Collection.listingIds once = Collection.listingIds c
    ∧ Collection.totalListings once
      = Z.of_nat (length (Collection.listingIds c))
    ∧ floor_as_scanned (updateCollectionFloorAndTotal id st) once
    ∧ Collection_load (toHexString id)
        (updateCollectionFloorAndTotal id (updateCollectionFloorAndTotal id st))
      = Some twice
    ∧ Collection.floorPrice twice = Collection.floorPrice once
    ∧ Collection.listingIds twice = Collection.listingIds once.
Proof.
  intros Hwf Hc Hall.
  destruct (recalc_idempotent_no_stale id st c Hwf Hc Hall)
    as (once & twice & H1 & H2 & Hfl & Hids).
  destruct (recalc_no_stale id st c Hwf Hc Hall) as (c1 & Hc1 & Hids1 & Hfl1).
  destruct (recalc_collection id st c Hwf Hc) as (c2 & Hc2 & _ & Htot).
  rewrite H1 in Hc1, Hc2. injection Hc1 as <-. injection Hc2 as <-.
  exists once, twice. repeat split; try done.
  - by rewrite Htot, Hids1.
  - unfold floor_as_scanned. rewrite Hfl1, Hids1.
    by rewrite (indexedActivePrices_listings st (updateCollectionFloorAndTotal id st))
      by apply recalc_listings.
Qed.

(** The collection saved by a run over an index with one stale entry. *)
Lemma recalc_one_stale
    (id : Address) (st : Store) (c : Collection.t)
    (pre suf : list string) (x : string) :
  store_wf st →
  Collection_load (toHexString id) st = Some c →
  Collection.listingIds c = (pre ++ x :: suf)%list →
  allActive st pre → stale st x → allActive st suf →
  ∃ c',
    Collection_load (toHexString id) (updateCollectionFloorAndTotal id st)
    = Some c'
    ∧ Collection.listingIds c' = (pre ++ suf)%list
    ∧ Collection.totalListings c' = Z.of_nat (length (pre ++ suf))
    ∧ Collection.floorPrice c'
      = foldl floorStep 0 (indexedActivePrices st (pre ++ suf)).
Proof.
  intros Hwf Hc Hids Hpre Hx Hsuf.
  destruct (recalc_result id st c Hwf Hc) as (c' & fp & Hscan & Hcol & _).
  destruct (recalc_collection id st c Hwf Hc) as (c2 & Hc2 & Hfl & _).
  pose proof (scan_one_stale st pre x suf
                (Collection.set_floorPrice ZERO_BI c) Hids Hpre Hx Hsuf) as Hone.
  cbn [Collection.set_floorPrice Collection.listingIds] in Hone.
  rewrite Hscan in Hone. cbn [fst] in Hone.
  assert (Hload : Collection_load (toHexString id)
                    (updateCollectionFloorAndTotal id st)
                  = Some (Collection.set_totalListings
                            (Z.of_nat (length (Collection.listingIds c'))) c')).
  { unfold Collection_load. rewrite Hcol. apply lookup_insert_eq. }
  rewrite Hload in Hc2. injection Hc2 as <-.
  eexists. split; [exact Hload|].
  cbn [Collection.set_totalListings Collection.listingIds
       Collection.totalListings Collection.floorPrice] in *.
  rewrite Hone. repeat split.
  rewrite Hfl, Hids.
  rewrite (indexedActivePrices_app st pre (x :: suf)).
  rewrite (indexedActivePrices_app st pre suf). f_equal.
  unfold indexedActivePrices. cbn [omap list_omap].
  unfold stale in Hx. by rewrite Hx.
Qed.

(** X6.  When exactly one entry of the index is stale (no Active listing is
    stored under it) and every other entry is a stored Active listing,
    [updateCollectionFloorAndTotal] removes that entry and no other: the
    saved index is the old one without it, in order, every entry left is a
    stored Active listing, totalListings is the new length, and floorPrice
    is the one a scan of the saved index finds. *)
Theorem recalculation_prunes_single_stale_entry
    (id : Address) (st : Store) (c : Collection.t)
    (pre suf : list string) (x : string) :
  store_wf st →
  Collection_load (toHexString id) st = Some c →
  Collection.listingIds c = (pre ++ x :: suf)%list →
  allActive st pre → stale st x → allActive st suf →
  ∃ c',
    Collection_load (toHexString id) (updateCollectionFloorAndTotal id st)
    = Some c'
    ∧ Collection.listingIds c' = (pre ++ suf)%list
    ∧ allActive (updateCollectionFloorAndTotal id st) (Collection.listingIds c')
    ∧ Collection.totalListings c' = Z.of_nat (length (pre ++ suf))
    ∧ floor_as_scanned (updateCollectionFloorAndTotal id st) c'.
Proof.
  intros Hwf Hc Hids Hpre Hx Hsuf.
  destruct (recalc_one_stale id st c pre suf x Hwf Hc Hids Hpre Hx Hsuf)
    as (c' & Hload & Hids' & Htot & Hfl).
  exists c'. split; [done|]. split; [done|]. split; [|split; [done|]].
  - rewrite Hids'. apply (allActive_listings st); [apply recalc_listings|].
    apply Forall_app. by split.
  - unfold floor_as_scanned. rewrite Hfl, Hids'.
    by rewrite (indexedActivePrices_listings st (updateCollectionFloorAndTotal id st))
      by apply recalc_listings.
Qed.

(** ** The zero sentinel *)

Lemma floorStep_nonneg (f p : BigInt) : 0 ≤ f → 0 ≤ p → 0 ≤ floorStep f p.
Proof. intros Hf Hp. unfold floorStep. by destruct (lowersFloor f p). Qed.

Lemma foldl_floorStep_nonneg (ps : list BigInt) : ∀ f,
  0 ≤ f → Forall (λ p, 0 ≤ p) ps → 0 ≤ foldl floorStep f ps.
Proof.
  induction ps as [|p ps IH]; intros f Hf Hps; [done|].
  inversion Hps; subst. cbn [foldl]. apply IH; [|done].
  by apply floorStep_nonneg.
Qed.

Lemma floorStep_onto_zero (f : BigInt) : 0 ≤ f → floorStep f 0 = 0.
Proof.
  intros Hf. unfold floorStep, lowersFloor.
  destruct (Z.eqb_spec f 0) as [->|Hne]; [done|].
  destruct (Z.gtb_spec f 0); [done|lia].
Qed.

(** X7.  Zero is the recalculator's "no floor yet" mark, so an Active
    listing priced zero does not hold the floor: with non-negative prices,
    the floorPrice after a run is the minimum over the indexed Active
    listings that follow the last one priced zero (zero if none
    follows). *)
Theorem recalculation_floor_restarts_after_zero
    (id : Address) (st : Store) (c : Collection.t) (ps qs : list BigInt) :
  store_wf st →
  Collection_load (toHexString id) st = Some c →
  indexedActivePrices st (Collection.listingIds c) = (ps ++ 0 :: qs)%list →
  Forall (λ p, 0 ≤ p) ps →
  Forall (λ q, q ≠ 0) qs →
  ∃ c',
    Collection_load (toHexString id) (updateCollectionFloorAndTotal id st)
    = Some c'
    ∧ is_min_or_zero qs (Collection.floorPrice c').
Proof.
  intros Hwf Hc Hprices Hps Hqs.
  destruct (recalc_collection id st c Hwf Hc) as (c' & Hload & Hfl & _).
  exists c'. split; [done|].
  rewrite Hfl, Hprices, foldl_app. cbn [foldl].
  rewrite floorStep_onto_zero by (by apply foldl_floorStep_nonneg).
  by apply foldl_floorStep_is_min.
Qed.

(** * Token floor prices *)

Lemma TypedMap_get_set_eq (k : string) (v : BigInt) (m : TypedMap) :
  TypedMap_get k (TypedMap_set k v m) = Some v.
Proof.
  induction m as [|[k' v'] m IH]; simpl.
  - by rewrite String.eqb_refl.
  - destruct (String.eqb_spec k' k) as [->|Hne]; simpl.
    + by rewrite String.eqb_refl.
    + destruct (String.eqb_spec k' k); [done|exact IH].
Qed.

Lemma TypedMap_get_set_ne (k k' : string) (v : BigInt) (m : TypedMap) :
  k ≠ k' → TypedMap_get k' (TypedMap_set k v m) = TypedMap_get k' m.
Proof.
  intros Hne. induction m as [|[k0 v0] m IH]; simpl.
  - destruct (String.eqb_spec k k'); [done|done].
  - destruct (String.eqb_spec k0 k) as [->|Hk0]; simpl.
    + destruct (String.eqb_spec k k'); [done|done].
    + destruct (String.eqb_spec k0 k'); [done|exact IH].
Qed.

Lemma TypedMap_set_keys (k : string) (v : BigInt) (m : TypedMap) :
  ∀ k', k' ∈ (TypedMap_set k v m).*1 ↔ k' = k ∨ k' ∈ m.*1.
Proof.
  intros k'. induction m as [|[k0 v0] m IH]; simpl.
  - rewrite list_elem_of_singleton, elem_of_nil. tauto.
  - destruct (String.eqb_spec k0 k) as [->|Hk0]; simpl.
    + rewrite !elem_of_cons. tauto.
    + rewrite !elem_of_cons, IH. tauto.
Qed.

Lemma TypedMap_set_NoDup (k : string) (v : BigInt) (m : TypedMap) :
  NoDup m.*1 → NoDup (TypedMap_set k v m).*1.
Proof.
  induction m as [|[k0 v0] m IH]; simpl; intros Hnd.
  - apply NoDup_singleton.
  - inversion Hnd as [|? ? Hnotin Hnd']; subst.
    destruct (String.eqb_spec k0 k) as [->|Hk0]; simpl.
    + by constructor.
    + constructor; [|by apply IH].
      rewrite TypedMap_set_keys. intros [E|E]; [by apply Hk0|by apply Hnotin].
Qed.

Lemma TypedMap_get_None (k : string) (m : TypedMap) :
  k ∉ m.*1 → TypedMap_get k m = None.
Proof.
  induction m as [|[k0 v0] m IH]; simpl; intros Hk; [done|].
  apply not_elem_of_cons in Hk as [Hne Hk].
  destruct (String.eqb_spec k0 k) as [->|Hk0]; [done|].
  by apply IH.
Qed.

(** The per-token map after one turn of the loop. *)
Lemma scanEntry_tokenMap st lid c fp i t :
  Collection.standard c = Some "ERC1155" →
  TypedMap_get t (scanEntry st lid (c, fp) i).2
  = match tokenPriceOf st t lid with
    | Some p => tokenStep (TypedMap_get t fp) p
    | None => TypedMap_get t fp
    end.
Proof.
  intros Hstd. unfold scanEntry, tokenPriceOf.
  destruct (Listing_load lid st) as [l|]; [|done].
  destruct (Listing.isActive l); [|done]. cbn [snd andb].
  rewrite Hstd, bool_decide_eq_true_2 by done.
  destruct (String.eqb_spec (Listing.token l) t) as [<-|Hne].
  - unfold tokenStep.
    destruct (TypedMap_get (Listing.token l) fp) as [f|] eqn:Hget.
    + destruct (f >? Listing.pricePerItem l);
        [apply TypedMap_get_set_eq|done].
    + apply TypedMap_get_set_eq.
  - destruct (TypedMap_get (Listing.token l) fp) as [f|];
      [destruct (f >? Listing.pricePerItem l)|];
      by rewrite ?TypedMap_get_set_ne.
Qed.

Lemma scanEntry_tokenMap_other st lid c fp i :
  Collection.standard c ≠ Some "ERC1155" →
  (scanEntry st lid (c, fp) i).2 = fp.
Proof.
  intros Hstd. unfold scanEntry.
  destruct (Listing_load lid st) as [l|]; [|done].
  destruct (Listing.isActive l); [|done]. cbn [snd].
  by rewrite bool_decide_eq_false_2.
Qed.

Lemma scanEntry_NoDup st lid c fp i :
  NoDup fp.*1 → NoDup (scanEntry st lid (c, fp) i).2.*1.
Proof.
  intros Hnd. unfold scanEntry.
  destruct (Listing_load lid st) as [l|]; [|done].
  destruct (Listing.isActive l); [|done]. cbn [snd].
  destruct (bool_decide _); [|done].
  destruct (TypedMap_get (Listing.token l) fp) as [f|];
    [destruct (f >? Listing.pricePerItem l)|];
    auto using TypedMap_set_NoDup.
Qed.

Lemma scan_tokenMap st suf : ∀ pre c fp t,
  Collection.standard c = Some "ERC1155" →
  TypedMap_get t
    (foldl (scanStep st (pre ++ suf)) (c, fp) (seq (length pre) (length suf))).2
  = foldl tokenStep (TypedMap_get t fp) (indexedTokenPrices st suf t).
Proof.
  induction suf as [|lid suf IH]; intros pre c fp t Hstd; [done|].
  rewrite scan_unroll.
  pose proof (scanEntry_tokenMap st lid c fp (length pre) t Hstd) as Hm.
  pose proof (scanEntry_meta st lid c fp (length pre)) as (_ & Hs & _).
  destruct (scanEntry st lid (c, fp) (length pre)) as [c' fp'] eqn:He.
  cbn [fst snd] in Hm, Hs.
  rewrite IH by (by rewrite Hs). rewrite Hm.
  unfold indexedTokenPrices. cbn [omap list_omap].
  by destruct (tokenPriceOf st t lid).
Qed.

Lemma scan_tokenMap_other st suf : ∀ pre c fp,
  Collection.standard c ≠ Some "ERC1155" →
  (foldl (scanStep st (pre ++ suf)) (c, fp) (seq (length pre) (length suf))).2
  = fp.
Proof.
  induction suf as [|lid suf IH]; intros pre c fp Hstd; [done|].
  rewrite scan_unroll.
  pose proof (scanEntry_tokenMap_other st lid c fp (length pre) Hstd) as Hm.
  pose proof (scanEntry_meta st lid c fp (length pre)) as (_ & Hs & _).
  destruct (scanEntry st lid (c, fp) (length pre)) as [c' fp'] eqn:He.
  cbn [fst snd] in Hm, Hs. subst fp'.
  apply IH. by rewrite Hs.
Qed.

Lemma scan_NoDup st suf : ∀ pre c fp,
  NoDup fp.*1 →
  NoDup (foldl (scanStep st (pre ++ suf)) (c, fp)
               (seq (length pre) (length suf))).2.*1.
Proof.
  induction suf as [|lid suf IH]; intros pre c fp Hnd; [done|].
  rewrite scan_unroll.
  pose proof (scanEntry_NoDup st lid c fp (length pre) Hnd) as Hm.
  destruct (scanEntry st lid (c, fp) (length pre)) as [c' fp'] eqn:He.
  by apply IH.
Qed.

(** The fold of [tokenStep] is the minimum. *)
Lemma tokenStep_min (f p : BigInt) : tokenStep (Some f) p = Some (Z.min f p).
Proof. unfold tokenStep. destruct (Z.gtb_spec f p); f_equal; lia. Qed.

Lemma foldl_tokenStep_from (ps : list BigInt) : ∀ f,
  ∃ m, foldl tokenStep (Some f) ps = Some m
       ∧ (m = f ∨ m ∈ ps) ∧ m ≤ f ∧ Forall (λ p, m ≤ p) ps.
Proof.
  induction ps as [|p ps IH]; intros f.
  - exists f. repeat split; auto. lia.
  - cbn [foldl]. rewrite tokenStep_min.
    destruct (IH (Z.min f p)) as (m & Hm & Hin & Hle & Hall).
    exists m. split; [done|]. repeat split; [|lia|].
    + destruct Hin as [->|Hin]; [|right; by right].
      destruct (Z.min_spec f p) as [[_ E]|[_ E]]; rewrite E; [by left|].
      right. by left.
    + constructor; [lia|done].
Qed.

Lemma foldl_tokenStep_is_min (p : BigInt) (ps : list BigInt) :
  ∃ m, foldl tokenStep None (p :: ps) = Some m ∧ is_min (p :: ps) m.
Proof.
  cbn [foldl tokenStep].
  destruct (foldl_tokenStep_from ps p) as (m & Hm & Hin & Hle & Hall).
  exists m. split; [done|]. split.
  - destruct Hin as [->|Hin]; [by left|by right].
  - by constructor.
Qed.

(** The second loop, token by token. *)
Lemma saveTokenFloor_lookup st k v t :
  keyed Token.id (tokens st) →
  tokens (saveTokenFloor st (k, v)) !! t
  = if decide (k = t) then Token.set_floorPrice v <$> tokens st !! t
    else tokens st !! t.
Proof.
  intros Hk. unfold saveTokenFloor, Token_load. cbn [fst snd].
  destruct (tokens st !! k) as [tok|] eqn:Hload.
  - assert (Hid : Token.id tok = k) by (by eapply keyed_lookup).
    unfold Token_save. cbn [tokens Token.set_floorPrice Token.id]. rewrite Hid.
    destruct (decide (k = t)) as [<-|Hne].
    + by rewrite lookup_insert_eq, Hload.
    + by rewrite lookup_insert_ne.
  - destruct (decide (k = t)) as [<-|Hne]; [by rewrite Hload|done].
Qed.

Lemma saveTokenFloors_lookup fp : ∀ st t,
  keyed Token.id (tokens st) → NoDup fp.*1 →
  tokens (foldl saveTokenFloor st fp) !! t
  = match TypedMap_get t fp with
    | Some v => Token.set_floorPrice v <$> tokens st !! t
    | None => tokens st !! t
    end.
Proof.
  induction fp as [|[k v] fp IH]; intros st t Hk Hnd; [done|].
  inversion Hnd as [|? ? Hnotin Hnd']; subst.
  cbn [foldl]. rewrite IH; [|by apply (saveTokenFloors_keyed [(k, v)])|done].
  rewrite saveTokenFloor_lookup by done. cbn [TypedMap_get].
  destruct (String.eqb_spec k t) as [<-|Hne].
  - rewrite (TypedMap_get_None k fp Hnotin).
    by destruct (decide (k = k)).
  - by destruct (decide (k = t)).
Qed.

(** X8.  In a collection of standard ERC1155, after
    [updateCollectionFloorAndTotal] a stored token has as floorPrice the
    minimum pricePerItem over the Active listings of that token in the
    collection's index (a listing priced zero counts like any other); a
    token with no such listing is left as it was, old floorPrice included;
    a token that is not stored is not created. *)
Theorem recalculation_token_floor
    (id : Address) (st : Store) (c : Collection.t) (t : string) :
  store_wf st →
  Collection_load (toHexString id) st = Some c →
  Collection.standard c = Some "ERC1155" →
  match indexedTokenPrices st (Collection.listingIds c) t with
  | [] =>
      Token_load t (updateCollectionFloorAndTotal id st) = Token_load t st
  | p :: ps =>
      ∃ m, is_min (p :: ps) m
           ∧ Token_load t (updateCollectionFloorAndTotal id st)
             = Token.set_floorPrice m <$> Token_load t st
  end.
Proof.
  intros Hwf Hc Hstd.
  destruct (recalc_result id st c Hwf Hc) as (c' & fp & Hscan & _ & Htok).
  unfold Token_load. rewrite Htok.
  pose proof (scan_tokenMap st (Collection.listingIds c) []
                (Collection.set_floorPrice ZERO_BI c) [] t Hstd) as Hget.
  pose proof (scan_NoDup st (Collection.listingIds c) []
                (Collection.set_floorPrice ZERO_BI c) [] (NoDup_nil_2)) as Hnd.
  change (foldl (scanStep _ _) _ _) with
    (scanListings st (Collection.listingIds c)
                  (Collection.set_floorPrice ZERO_BI c)) in Hget, Hnd.
  rewrite Hscan in Hget, Hnd. cbn [snd TypedMap_get] in Hget, Hnd.
  rewrite saveTokenFloors_lookup by (done || apply Hwf). rewrite Hget.
  destruct (indexedTokenPrices st (Collection.listingIds c) t) as [|p ps];
    [done|].
  destruct (foldl_tokenStep_is_min p ps) as (m & -> & Hmin).
  by exists m.
Qed.

(** X9.  In a collection whose standard is not ERC1155
    [updateCollectionFloorAndTotal] leaves every token as it was. *)
Theorem recalculation_leaves_tokens_outside_erc1155
    (id : Address) (st : Store) (c : Collection.t) :
  store_wf st →
  Collection_load (toHexString id) st = Some c →
  Collection.standard c ≠ Some "ERC1155" →
  tokens (updateCollectionFloorAndTotal id st) = tokens st.
Proof.
  intros Hwf Hc Hstd.
  destruct (recalc_result id st c Hwf Hc) as (c' & fp & Hscan & _ & ->).
  pose proof (scan_tokenMap_other st (Collection.listingIds c) []
                (Collection.set_floorPrice ZERO_BI c) [] Hstd) as Hfp.
  change (foldl (scanStep _ _) _ _) with
    (scanListings st (Collection.listingIds c)
                  (Collection.set_floorPrice ZERO_BI c)) in Hfp.
  rewrite Hscan in Hfp. cbn [snd] in Hfp. by subst fp.
Qed.

(** * The handlers, further *)

(** ** ItemListed *)

(** The collection object [handleItemListed] saves, and the collection
    table it leaves. *)
Lemma handleItemListed_collections e st :
  store_wf st →
  let token := getOrCreateToken
                 (getTokenId (ItemListed.nftAddress (params e))
                             (ItemListed.tokenId (params e))) st in
  let old := getOrCreateCollection (Token.collection token) st in
  ∃ c',
    collections (handleItemListed e st)
    = <[Token.collection token := c']> (collections st)
    ∧ Collection.id c' = Token.collection token
    ∧ Collection.name c' = Collection.name old
    ∧ Collection.standard c' = Collection.standard old
    ∧ Collection.floorPrice c'
      = floorStep (Collection.floorPrice old) (ItemListed.pricePerItem (params e))
    ∧ Collection.listingIds c' = (Collection.listingIds old ++ [listedKey e])%list
    ∧ Collection.totalListings c' = Collection.totalListings old + 1.
Proof.
  intros (Hc & Ht & Hl & Hu) token old.
  unfold handleItemListed.
  fold token. fold old. fold (listedKey e).
  set (p := ItemListed.pricePerItem (params e)).
  set (c1 := if lowersFloor (Collection.floorPrice old) p
             then Collection.set_floorPrice p old else old).
  assert (Hc1 : Collection.id c1 = Token.collection token
                ∧ Collection.name c1 = Collection.name old
                ∧ Collection.standard c1 = Collection.standard old
                ∧ Collection.floorPrice c1
                  = floorStep (Collection.floorPrice old) p
                ∧ Collection.listingIds c1 = Collection.listingIds old
                ∧ Collection.totalListings c1 = Collection.totalListings old).
  { subst c1. unfold floorStep. destruct (lowersFloor _ _);
      cbn [Collection.set_floorPrice Collection.id Collection.name
           Collection.standard Collection.floorPrice Collection.listingIds
           Collection.totalListings];
      repeat split; by apply getOrCreateCollection_id. }
  destruct Hc1 as (Hid1 & Hn1 & Hs1 & Hf1 & Hi1 & Ht1).
  token_branch token' st' Hfr. destruct Hfr as (Ec & El & Eu & _).
  eexists. split.
  { cbn [collections Listing_save Collection_save Collection.id
         Collection.set_listingIds Collection.set_totalListings].
    rewrite Hid1.
    destruct (_ =? _); cbn [collections store_remove_UserToken UserToken_save];
      rewrite Ec; reflexivity. }
  cbn [Collection.set_listingIds Collection.set_totalListings Collection.id
       Collection.name Collection.standard Collection.floorPrice
       Collection.listingIds Collection.totalListings].
  rewrite (getOrCreateListing_id st _ Hl). unfold ONE_BI.
  repeat split; try done. by rewrite Hi1. by rewrite Ht1.
Qed.

Lemma lowerTokenFloor_token c t p st :
  Token.id (lowerTokenFloor c t p st).1 = Token.id t
  ∧ Token.collection (lowerTokenFloor c t p st).1 = Token.collection t
  ∧ Token.name (lowerTokenFloor c t p st).1 = Token.name t.
Proof.
  unfold lowerTokenFloor. destruct (bool_decide _); [|done].
  destruct (Token.floorPrice t) as [f|]; [destruct (f >? p)|]; done.
Qed.

Lemma handleItemListed_listing e st :
  store_wf st →
  let token := getOrCreateToken
                 (getTokenId (ItemListed.nftAddress (params e))
                             (ItemListed.tokenId (params e))) st in
  ∃ L,
    Listing_load (listedKey e) (handleItemListed e st) = Some L
    ∧ Listing.status L = Some "Active"
    ∧ Listing.user L = toHexString (ItemListed.seller (params e))
    ∧ Listing.pricePerItem L = ItemListed.pricePerItem (params e)
    ∧ Listing.quantity L = ItemListed.quantity (params e)
    ∧ Listing.expires L = ItemListed.expirationTime (params e)
    ∧ Listing.blockTimestamp L = block_timestamp e
    ∧ Listing.collection L = Token.collection token
    ∧ Listing.token L = Token.id token.
Proof.
  intros (Hc & Ht & Hl & Hu) token.
  unfold handleItemListed. fold (listedKey e). fold token.
  match goal with
  | |- context [lowerTokenFloor ?c ?t ?p ?s] =>
      pose proof (lowerTokenFloor_token c t p s) as Htok;
      destruct (lowerTokenFloor c t p s) as [token' st']
  end.
  cbn [fst] in Htok. destruct Htok as (Hid' & Hcol' & _).
  eexists. split.
  { unfold Listing_load.
    cbn [listings Listing_save Collection_save Listing.id].
    rewrite (getOrCreateListing_id st _ Hl). apply lookup_insert_eq. }
  cbn [Listing.status Listing.user Listing.pricePerItem Listing.quantity
       Listing.expires Listing.blockTimestamp Listing.collection Listing.token].
  by repeat split.
Qed.

(** X10.  [handleItemListed] appends the listing's key to the index of the
    token's collection, once more if it is there already, and adds one to
    totalListings; floorPrice takes the listed price if it was zero or
    greater and is kept otherwise; the collection keeps its name and
    standard, and no other collection changes.  The listing is stored under its key as
    Active with the event's seller, price, quantity, expiration and block
    timestamp, and no other listing changes. *)
Theorem handleItemListed_indexes_listing (e : Event ItemListed.t) (st : Store) :
  store_wf st →
  let token := getOrCreateToken
                 (getTokenId (ItemListed.nftAddress (params e))
                             (ItemListed.tokenId (params e))) st in
  let old := getOrCreateCollection (Token.collection token) st in
  (∃ c',
     Collection_load (Token.collection token) (handleItemListed e st) = Some c'
     ∧ Collection.listingIds c'
       = (Collection.listingIds old ++ [listedKey e])%list
     ∧ Collection.totalListings c' = Collection.totalListings old + 1
     ∧ Collection.floorPrice c'
       = floorStep (Collection.floorPrice old)
                   (ItemListed.pricePerItem (params e))
     ∧ Collection.name c' = Collection.name old
     ∧ Collection.standard c' = Collection.standard old)
  ∧ (∀ k, k ≠ Token.collection token →
          Collection_load k (handleItemListed e st) = Collection_load k st)
  ∧ (∃ L,
       Listing_load (listedKey e) (handleItemListed e st) = Some L
       ∧ Listing.status L = Some "Active"
       ∧ Listing.user L = toHexString (ItemListed.seller (params e))
       ∧ Listing.pricePerItem L = ItemListed.pricePerItem (params e)
       ∧ Listing.quantity L = ItemListed.quantity (params e)
       ∧ Listing.expires L = ItemListed.expirationTime (params e)
       ∧ Listing.blockTimestamp L = block_timestamp e
       ∧ Listing.collection L = Token.collection token)
  ∧ (∀ k, k ≠ listedKey e →
          Listing_load k (handleItemListed e st) = Listing_load k st).
Proof.
  intros Hwf token old.
  destruct (handleItemListed_collections e st Hwf)
    as (c' & Hcol & _ & Hn & Hs & Hfl & Hids & Htot).
  fold token in Hcol, Hn, Hs, Hfl, Hids, Htot.
  fold old in Hn, Hs, Hfl, Hids, Htot.
  split; [|split; [|split]].
  - exists c'. unfold Collection_load. rewrite Hcol.
    split; [apply lookup_insert_eq|done].
  - intros k Hk. unfold Collection_load. rewrite Hcol.
    by rewrite lookup_insert_ne by (by apply not_eq_sym).
  - destruct (handleItemListed_listing e st Hwf)
      as (L & HL & H1 & H2 & H3 & H4 & H5 & H6 & H7 & _).
    exists L. by repeat split.
  - intros k Hk.
    destruct (handleItemListed_listings e st Hwf) as (L & HL & _).
    unfold Listing_load. rewrite HL.
    by rewrite lookup_insert_ne by (by apply not_eq_sym).
Qed.

(** The token table [handleItemListed] leaves. *)
Lemma handleItemListed_tokens e st :
  let token := getOrCreateToken
                 (getTokenId (ItemListed.nftAddress (params e))
                             (ItemListed.tokenId (params e))) st in
  let old := getOrCreateCollection (Token.collection token) st in
  tokens (handleItemListed e st)
  = tokens (lowerTokenFloor
              (if lowersFloor (Collection.floorPrice old)
                              (ItemListed.pricePerItem (params e))
               then Collection.set_floorPrice
                      (ItemListed.pricePerItem (params e)) old
               else old)
              token (ItemListed.pricePerItem (params e)) st).2.
Proof.
  intros token old. unfold handleItemListed. fold token. fold old.
  destruct (lowerTokenFloor _ _ _ st) as [token' st'].
  cbn [snd]. by destruct (_ =? _).
Qed.

(** X11.  [handleItemListed] writes the token table only in a collection of
    standard ERC1155, and there only to lower the token's floor: the token
    is saved with the listed price as floorPrice when it has none or a
    greater one, and the table is left as it was otherwise.  Outside
    ERC1155 no token is created or changed by a listing. *)
Theorem handleItemListed_token_floor (e : Event ItemListed.t) (st : Store) :
  store_wf st →
  let tokenKey := getTokenId (ItemListed.nftAddress (params e))
                             (ItemListed.tokenId (params e)) in
  let token := getOrCreateToken tokenKey st in
  let old := getOrCreateCollection (Token.collection token) st in
  let price := ItemListed.pricePerItem (params e) in
  (Collection.standard old ≠ Some "ERC1155" →
   tokens (handleItemListed e st) = tokens st)
  ∧ (Collection.standard old = Some "ERC1155" →
     match Token.floorPrice token with
     | Some floor =>
         if floor >? price
         then tokens (handleItemListed e st)
              = <[tokenKey := Token.set_floorPrice price token]> (tokens st)
         else tokens (handleItemListed e st) = tokens st
     | None =>
         tokens (handleItemListed e st)
         = <[tokenKey := Token.set_floorPrice price token]> (tokens st)
     end).
Proof.
  intros (Hc & Ht & Hl & Hu) tokenKey token old price.
  rewrite handleItemListed_tokens. fold tokenKey token old price.
  assert (Hid : Token.id token = tokenKey)
    by (subst token; unfold getOrCreateToken, Token_load;
        destruct (tokens st !! tokenKey) as [tk|] eqn:E; cbn [default id];
        [by eapply keyed_lookup|done]).
  assert (Hstd : Collection.standard
                   (if lowersFloor (Collection.floorPrice old) price
                    then Collection.set_floorPrice price old else old)
                 = Collection.standard old)
    by (by destruct (lowersFloor _ _)).
  unfold lowerTokenFloor. rewrite Hstd. split; intros Hs.
  - by rewrite bool_decide_eq_false_2.
  - rewrite bool_decide_eq_true_2 by done.
    destruct (Token.floorPrice token) as [f|]; [destruct (f >? price)|];
      cbn [snd tokens Token_save Token.set_floorPrice Token.id];
      by rewrite ?Hid.
Qed.

(** ** Listing and recalculating agree *)

Lemma indexedActivePrices_insert st st' k L ids :
  listings st' = <[k := L]> (listings st) → k ∉ ids →
  indexedActivePrices st' ids = indexedActivePrices st ids.
Proof.
  intros E. induction ids as [|id ids IH]; intros Hk; [done|].
  apply not_elem_of_cons in Hk as [Hne Hk].
  unfold indexedActivePrices in *. cbn [omap list_omap].
  assert (Hid : activePrice st' id = activePrice st id).
  { unfold activePrice, Listing_load. by rewrite E, lookup_insert_ne. }
  rewrite Hid.
  fold (omap (activePrice st') ids). fold (omap (activePrice st) ids).
  by rewrite IH.
Qed.

(** X12.  [handleItemListed] and [updateCollectionFloorAndTotal] agree on
    the floor: when the stored floorPrice is the one a scan of the index
    finds, the token names the collection of the event's contract and the
    listing's key is not yet in the index, the floorPrice that
    [handleItemListed] saves is again the one a scan finds, so that a
    recalculation right after the listing leaves it as it is. *)
Theorem listing_floor_agrees_with_recalculation
    (e : Event ItemListed.t) (st : Store) (c : Collection.t) :
  store_wf st →
  let nftAddress := ItemListed.nftAddress (params e) in
  let token := getOrCreateToken
                 (getTokenId nftAddress (ItemListed.tokenId (params e))) st in
  Token.collection token = toHexString nftAddress →
  Collection_load (toHexString nftAddress) st = Some c →
  floor_as_scanned st c →
  listedKey e ∉ Collection.listingIds c →
  ∃ listed recalculated,
    Collection_load (toHexString nftAddress) (handleItemListed e st)
    = Some listed
    ∧ floor_as_scanned (handleItemListed e st) listed
    ∧ Collection_load (toHexString nftAddress)
        (updateCollectionFloorAndTotal nftAddress (handleItemListed e st))
      = Some recalculated
    ∧ Collection.floorPrice recalculated = Collection.floorPrice listed.
Proof.
  intros Hwf nftAddress token Hcol Hc Hfloor Hnotin.
  pose proof (handleItemListed_wf e st Hwf) as Hwf1.
  destruct (handleItemListed_collections e st Hwf)
    as (c1 & Hcols & _ & _ & _ & Hfl & Hids & _).
  fold nftAddress in Hcols, Hfl, Hids. fold token in Hcols, Hfl, Hids.
  rewrite Hcol in Hcols, Hfl, Hids.
  assert (Hold : getOrCreateCollection (toHexString nftAddress) st = c)
    by (unfold getOrCreateCollection; by rewrite Hc).
  rewrite Hold in Hfl, Hids.
  destruct (handleItemListed_listings e st Hwf)
    as (L & HL & _ & Hst & _ & Hp & _).
  assert (Hc1 : Collection_load (toHexString nftAddress) (handleItemListed e st)
                = Some c1)
    by (unfold Collection_load; rewrite Hcols; apply lookup_insert_eq).
  assert (Hscan : floor_as_scanned (handleItemListed e st) c1).
  { unfold floor_as_scanned. rewrite Hfl, Hids, indexedActivePrices_app.
    rewrite (indexedActivePrices_insert st _ (listedKey e) L) by done.
    rewrite foldl_app, <- Hfloor.
    unfold indexedActivePrices. cbn [omap list_omap].
    unfold activePrice, Listing_load. rewrite HL, lookup_insert_eq.
    by rewrite (isActive_status L Hst), Hp. }
  destruct (recalc_collection nftAddress (handleItemListed e st) c1 Hwf1 Hc1)
    as (c2 & Hc2 & Hfl2 & _).
  exists c1, c2. repeat split; try done.
  by rewrite Hfl2.
Qed.

Lemma listing_floor_agrees_with_recalculation_witness :
  ∃ listed recalculated,
    Collection_load (toHexString Sample.nft)
                    (handleItemListed (Sample.listed 5 3 100) Sample.seeded)
    = Some listed
    ∧ Collection_load (toHexString Sample.nft)
        (updateCollectionFloorAndTotal Sample.nft
           (handleItemListed (Sample.listed 5 3 100) Sample.seeded))
      = Some recalculated
    ∧ Collection.floorPrice recalculated = Collection.floorPrice listed.
Proof.
  assert (Hwf : store_wf Sample.seeded)
    by (apply store_wfb_wf; vm_compute; reflexivity).
  assert (Hcol : Token.collection
                   (getOrCreateToken
                      (getTokenId
                         (ItemListed.nftAddress (params (Sample.listed 5 3 100)))
                         (ItemListed.tokenId (params (Sample.listed 5 3 100))))
                      Sample.seeded)
                 = toHexString
                     (ItemListed.nftAddress (params (Sample.listed 5 3 100))))
    by (vm_compute; reflexivity).
  assert (Hc : Collection_load
                 (toHexString
                    (ItemListed.nftAddress (params (Sample.listed 5 3 100))))
                 Sample.seeded
               = Some (Collection.mk "0xc0de" "Legions" (Some "ERC721") 0 0 []))
    by (vm_compute; reflexivity).
  assert (Hfloor : floor_as_scanned Sample.seeded
                     (Collection.mk "0xc0de" "Legions" (Some "ERC721") 0 0 []))
    by reflexivity.
  assert (Hnotin : listedKey (Sample.listed 5 3 100)
                   ∉ Collection.listingIds
                       (Collection.mk "0xc0de" "Legions" (Some "ERC721") 0 0 []))
    by apply not_elem_of_nil.
  destruct (listing_floor_agrees_with_recalculation (Sample.listed 5 3 100)
              Sample.seeded _ Hwf Hcol Hc Hfloor Hnotin)
    as (c1 & c2 & H1 & _ & H2 & H3).
  exists c1, c2. exact (conj H1 (conj H2 H3)).
Defined.

(** * The listing count *)

Lemma counts_match_ext st st' :
  collections st' = collections st → counts_match st → counts_match st'.
Proof. unfold counts_match. by intros ->. Qed.

Lemma recalc_counts id st :
  counts_match st → counts_match (updateCollectionFloorAndTotal id st).
Proof.
  intros H.
  destruct (Collection_load (toHexString id) st) as [c|] eqn:Hload.
  - destruct (recalc_saves id st c Hload) as (c' & fp & _ & ->).
    unfold counts_match, Collection_save. cbn [collections].
    destruct (saveTokenFloors_frame fp st) as (-> & _).
    by apply map_Forall_insert_2.
  - unfold updateCollectionFloorAndTotal. by rewrite Hload.
Qed.

Lemma getOrCreateCollection_counts st k :
  counts_match st →
  Collection.totalListings (getOrCreateCollection k st)
  = Z.of_nat (length (Collection.listingIds (getOrCreateCollection k st))).
Proof.
  intros H. unfold getOrCreateCollection, Collection_load.
  destruct (collections st !! k) as [c|] eqn:Hc; cbn [default id].
  - exact (H k c Hc).
  - reflexivity.
Qed.

Lemma handleItemListed_counts e st :
  store_wf st → counts_match st → counts_match (handleItemListed e st).
Proof.
  intros Hwf H.
  destruct (handleItemListed_collections e st Hwf)
    as (c' & Hcol & _ & _ & _ & _ & Hids & Htot).
  unfold counts_match. rewrite Hcol. apply map_Forall_insert_2; [|done].
  rewrite Htot, Hids, length_app, (getOrCreateCollection_counts st _ H).
  cbn [length]. lia.
Qed.

Lemma handleItemCanceled_counts e st :
  counts_match st → counts_match (handleItemCanceled e st).
Proof. intros H. unfold handleItemCanceled. by apply recalc_counts. Qed.

Lemma handleItemSold_counts e st :
  counts_match st → counts_match (handleItemSold e st).
Proof.
  intros H. unfold handleItemSold, recordSale.
  destruct (_ =? _); apply recalc_counts;
    (eapply counts_match_ext; [|exact H]);
    cbn [collections Listing_save];
    by destruct (Listing_load _ _).
Qed.

Lemma handleItemUpdated_counts e st :
  counts_match st → counts_match (handleItemUpdated e st).
Proof.
  intros H. unfold handleItemUpdated.
  destruct (Listing_load _ st) as [l|]; [|done].
  apply recalc_counts. eapply counts_match_ext; [|exact H].
  cbn [collections Listing_save].
  destruct (negb _); [destruct (_ =? _)|]; done.
Qed.

Lemma handleItemSoldStaging_counts e st :
  counts_match st → counts_match (handleItemSoldStaging e st).
Proof.
  intros H. unfold handleItemSoldStaging.
  destruct (UserToken_load _ st) as [u|]; [|done].
  by destruct (_ =? _).
Qed.

Lemma handle_counts ev st :
  store_wf st → counts_match st → counts_match (handle ev st).
Proof.
  intros Hwf H.
  destruct ev; cbn [handle];
    auto using handleItemListed_counts, handleItemCanceled_counts,
               handleItemSold_counts, handleItemUpdated_counts,
               handleItemSoldStaging_counts.
Qed.

(** X13.  Along any run of handlers, from a store in which every collection's
    totalListings is the length of its listing index (the empty store for
    one), this stays so: [handleItemListed] adds one to both, and
    [updateCollectionFloorAndTotal] sets the count from the index it
    saves. *)
Theorem totalListings_counts_index (evs : list MarketEvent) : ∀ st : Store,
  store_wf st → counts_match st → counts_match (replay evs st).
Proof.
  induction evs as [|ev evs IH]; intros st Hwf H; [done|].
  cbn [replay foldl]. apply IH; [by apply handle_wf|by apply handle_counts].
Qed.

Lemma totalListings_counts_index_witness :
  counts_match (replay Sample.listAllThenCancel Sample.seeded).
Proof.
  assert (Hwf : store_wf Sample.seeded)
    by (apply store_wfb_wf; vm_compute; reflexivity).
  assert (H : counts_match Sample.seeded)
    by (apply map_Forall_singleton; reflexivity).
  exact (totalListings_counts_index Sample.listAllThenCancel Sample.seeded Hwf H).
Defined.

(** * Canceling *)

Lemma activePrice_delete_ne st st' k id :
  listings st' = delete k (listings st) → id ≠ k →
  activePrice st' id = activePrice st id.
Proof.
  intros E Hne. unfold activePrice, Listing_load.
  by rewrite E, lookup_delete_ne by (by apply not_eq_sym).
Qed.

Lemma allActive_delete st st' k ids :
  listings st' = delete k (listings st) → k ∉ ids →
  allActive st ids → allActive st' ids.
Proof.
  intros E Hk H. unfold allActive in *. rewrite Forall_forall in *.
  intros id Hid. rewrite (activePrice_delete_ne st st' k id E); [by apply H|].
  intros ->. by apply Hk.
Qed.

Lemma indexedActivePrices_delete st st' k ids :
  listings st' = delete k (listings st) → k ∉ ids →
  indexedActivePrices st' ids = indexedActivePrices st ids.
Proof.
  intros E. induction ids as [|id ids IH]; intros Hk; [done|].
  apply not_elem_of_cons in Hk as [Hne Hk].
  unfold indexedActivePrices in *. cbn [omap list_omap].
  rewrite (activePrice_delete_ne st st' k id E) by (by apply not_eq_sym).
  fold (omap (activePrice st') ids). fold (omap (activePrice st) ids).
  by rewrite IH.
Qed.

Lemma stale_delete st st' k :
  listings st' = delete k (listings st) → stale st' k.
Proof.
  intros E. unfold stale, activePrice, Listing_load.
  by rewrite E, lookup_delete_eq.
Qed.

(** [handleItemCanceled] is the recalculation of the collection in the
    store without the listing. *)
Lemma handleItemCanceled_recalc e st :
  store_wf st →
  ∃ st1,
    handleItemCanceled e st
    = updateCollectionFloorAndTotal (ItemCanceled.nftAddress (params e)) st1
    ∧ store_wf st1
    ∧ collections st1 = collections st
    ∧ tokens st1 = tokens st
    ∧ listings st1 = delete (canceledKey e) (listings st).
Proof.
  intros Hwf. pose proof Hwf as (Hc & Ht & Hl & Hu).
  unfold handleItemCanceled. fold (canceledKey e).
  eexists. split; [reflexivity|].
  split; [auto with wf|].
  cbn [collections tokens listings UserToken_save store_remove_Listing].
  by rewrite (getOrCreateListing_id st _ Hl).
Qed.

(** The collection [handleItemCanceled] leaves when the listing is the one
    stale entry the recalculation meets. *)
Lemma cancel_on_clean_index
    (e : Event ItemCanceled.t) (st : Store) (c : Collection.t)
    (pre suf : list string) :
  store_wf st →
  Collection_load (toHexString (ItemCanceled.nftAddress (params e))) st = Some c →
  Collection.listingIds c = (pre ++ canceledKey e :: suf)%list →
  canceledKey e ∉ pre → canceledKey e ∉ suf →
  allActive st pre → allActive st suf →
  ∃ c',
    Collection_load (toHexString (ItemCanceled.nftAddress (params e)))
                    (handleItemCanceled e st) = Some c'
    ∧ Collection.listingIds c' = (pre ++ suf)%list
    ∧ Collection.totalListings c' = Z.of_nat (length (pre ++ suf))
    ∧ Collection.floorPrice c'
      = foldl floorStep 0 (indexedActivePrices st (pre ++ suf)).
Proof.
  intros Hwf Hc Hids Hkpre Hksuf Hpre Hsuf.
  destruct (handleItemCanceled_recalc e st Hwf)
    as (st1 & -> & Hwf1 & Ecol & _ & Elis).
  assert (Hc1 : Collection_load
                  (toHexString (ItemCanceled.nftAddress (params e))) st1
                = Some c)
    by (unfold Collection_load in *; by rewrite Ecol).
  destruct (recalc_one_stale (ItemCanceled.nftAddress (params e)) st1 c
              pre suf (canceledKey e) Hwf1 Hc1 Hids)
    as (c' & Hload & Hids' & Htot & Hfl).
  { by apply (allActive_delete st st1 (canceledKey e)). }
  { by apply (stale_delete st). }
  { by apply (allActive_delete st st1 (canceledKey e)). }
  exists c'. repeat split; try done.
  rewrite Hfl.
  by rewrite (indexedActivePrices_delete st st1 (canceledKey e))
    by (done || (rewrite not_elem_of_app; by split)).
Qed.

(** X14.  Canceling the one listing of its key in a collection whose other
    index entries are stored Active listings: the listing is gone, its
    entry and no other leaves the index, totalListings is the new length,
    floorPrice is the least price of the listings left (zero if none is
    left) when none of them is priced zero, and the seller's UserToken
    holds the former holding plus the listing's quantity. *)
Theorem handleItemCanceled_unlists
    (e : Event ItemCanceled.t) (st : Store) (c : Collection.t)
    (pre suf : list string) :
  store_wf st →
  Collection_load (toHexString (ItemCanceled.nftAddress (params e))) st = Some c →
  Collection.listingIds c = (pre ++ canceledKey e :: suf)%list →
  canceledKey e ∉ pre → canceledKey e ∉ suf →
  allActive st pre → allActive st suf →
  Listing_load (canceledKey e) (handleItemCanceled e st) = None
  ∧ holdingOf (handleItemCanceled e st) (canceledKey e)
    = holdingOf st (canceledKey e) + listedOf st (canceledKey e)
  ∧ ∃ c',
      Collection_load (toHexString (ItemCanceled.nftAddress (params e)))
                      (handleItemCanceled e st) = Some c'
      ∧ Collection.listingIds c' = (pre ++ suf)%list
      ∧ Collection.totalListings c' = Z.of_nat (length (pre ++ suf))
      ∧ (Forall (λ p, p ≠ 0) (indexedActivePrices st (pre ++ suf)) →
         is_min_or_zero (indexedActivePrices st (pre ++ suf))
                        (Collection.floorPrice c')).
Proof.
  intros Hwf Hc Hids Hkpre Hksuf Hpre Hsuf.
  destruct (handleItemCanceled_tables e st Hwf) as (HL & u & HU & Hq).
  split; [|split].
  - unfold Listing_load. rewrite HL. apply lookup_delete_eq.
  - unfold holdingOf at 1. unfold getOrCreateUserToken, UserToken_load.
    rewrite HU, lookup_insert_eq. exact Hq.
  - destruct (cancel_on_clean_index e st c pre suf
                Hwf Hc Hids Hkpre Hksuf Hpre Hsuf)
      as (c' & Hload & Hids' & Htot & Hfl).
    exists c'. repeat split; try done.
    intros Hnz. rewrite Hfl. by apply foldl_floorStep_is_min.
Qed.


(** ** Listing, then canceling *)

Lemma allActive_insert st st' k L ids :
  listings st' = <[k := L]> (listings st) → k ∉ ids →
  allActive st ids → allActive st' ids.
Proof.
  intros E Hk H. unfold allActive in *. rewrite Forall_forall in *.
  intros id Hid. specialize (H id Hid).
  unfold activePrice, Listing_load in *.
  rewrite E, lookup_insert_ne; [done|]. intros ->. by apply Hk.
Qed.

(** X15.  A listing followed by its cancellation, when the key was not in
    the index, every index entry was a stored Active listing, and the token
    names the collection of the event's contract: no listing is stored
    under the key, the seller's holding is what it was, a UserToken record
    is stored for the key whether one was before or not, and the collection
    has its former index, with totalListings the length of it. *)
Theorem list_then_cancel_round_trip
    (e : Event ItemListed.t) (ec : Event ItemCanceled.t) (st : Store) :
  store_wf st →
  let token := getOrCreateToken
                 (getTokenId (ItemListed.nftAddress (params e))
                             (ItemListed.tokenId (params e))) st in
  let old := getOrCreateCollection (Token.collection token) st in
  let st' := handleItemCanceled ec (handleItemListed e st) in
  sameItem (ItemListed.seller (params e)) (ItemListed.nftAddress (params e))
           (ItemListed.tokenId (params e))
           (ItemCanceled.seller (params ec)) (ItemCanceled.nftAddress (params ec))
           (ItemCanceled.tokenId (params ec)) →
  Token.collection token = toHexString (ItemListed.nftAddress (params e)) →
  listedKey e ∉ Collection.listingIds old →
  allActive st (Collection.listingIds old) →
  Listing_load (listedKey e) st' = None
  ∧ holdingOf st' (listedKey e) = holdingOf st (listedKey e)
  ∧ is_Some (UserToken_load (listedKey e) st')
  ∧ ∃ c',
      Collection_load (Token.collection token) st' = Some c'
      ∧ Collection.listingIds c' = Collection.listingIds old
      ∧ Collection.totalListings c'
        = Z.of_nat (length (Collection.listingIds old)).
Proof.
  intros Hwf token old st' (Hs & Hn & Ht) Hcol Hnotin Hall.
  assert (Hk : canceledKey ec = listedKey e)
    by (unfold canceledKey, listedKey; by rewrite Hs, Hn, Ht).
  pose proof (handleItemListed_wf e st Hwf) as Hwf1.
  destruct (handleItemListed_collections e st Hwf)
    as (c1 & Hcols & _ & _ & _ & _ & Hids & _).
  fold token in Hcols, Hids. fold old in Hids.
  destruct (handleItemListed_listings e st Hwf)
    as (L & HL & _ & _ & Hq & _).
  pose proof (handleItemListed_userTokens e st Hwf) as HU.
  assert (Hc1 : Collection_load
                  (toHexString (ItemCanceled.nftAddress (params ec)))
                  (handleItemListed e st) = Some c1).
  { unfold Collection_load. rewrite Hcols, Hn, <- Hcol. apply lookup_insert_eq. }
  rewrite <- Hk in Hids.
  destruct (cancel_on_clean_index ec (handleItemListed e st) c1
              (Collection.listingIds old) [] Hwf1 Hc1 Hids)
    as (c' & Hload & Hids' & Htot & _).
  { by rewrite Hk. }
  { apply not_elem_of_nil. }
  { apply (allActive_insert st _ (listedKey e) L); done. }
  { constructor. }
  destruct (handleItemCanceled_tables ec (handleItemListed e st) Hwf1)
    as (HL' & u & HU' & Hhold).
  fold st' in Hload, HL', HU'. rewrite Hk in HL', HU', Hhold.
  rewrite app_nil_r in Hids', Htot.
  rewrite Hn, <- Hcol in Hload.
  split; [unfold Listing_load; rewrite HL'; apply lookup_delete_eq|].
  split; [|split].
  - unfold holdingOf at 1. unfold getOrCreateUserToken at 1.
    unfold UserToken_load. rewrite HU', lookup_insert_eq.
    cbn [default id]. rewrite Hhold.
    unfold listedOf, getOrCreateListing, Listing_load. rewrite HL, lookup_insert_eq.
    cbn [default id]. rewrite Hq.
    unfold holdingOf at 1. unfold getOrCreateUserToken, UserToken_load.
    rewrite HU. clear.
    destruct (Z.eqb_spec (holdingOf st (listedKey e))
                         (ItemListed.quantity (params e))) as [E|E].
    + rewrite lookup_delete_eq. cbn [default id new_UserToken UserToken.quantity].
      unfold ZERO_BI. lia.
    + rewrite lookup_insert_eq.
      cbn [default id UserToken.set_quantity UserToken.quantity]. lia.
  - unfold UserToken_load. rewrite HU', lookup_insert_eq. by eexists.
  - by exists c'.
Qed.

(** * Updating *)

(** The listing object [handleItemUpdated] saves for the stored listing
    [l]. *)
Lemma handleItemUpdated_listings e st l :
  store_wf st →
  Listing_load (updatedKey e) st = Some l →
  listings (handleItemUpdated e st)
  = <[updatedKey e :=
        Listing.set_expires (ItemUpdated.expirationTime (params e))
          (Listing.set_pricePerItem (ItemUpdated.pricePerItem (params e))
             (Listing.set_quantity (ItemUpdated.quantity (params e))
                (if Listing.pricePerItem l =? ItemUpdated.pricePerItem (params e)
                 then l
                 else Listing.set_blockTimestamp (block_timestamp e) l)))]>
      (listings st).
Proof.
  intros (Hc & Ht & Hl & Hu) Hload. unfold handleItemUpdated.
  fold (updatedKey e). rewrite Hload.
  assert (Hid : Listing.id l = updatedKey e) by (by eapply keyed_lookup).
  rewrite recalc_listings.
  destruct (Listing.pricePerItem l =? ItemUpdated.pricePerItem (params e));
    destruct (Listing.quantity l =? ItemUpdated.quantity (params e));
    cbn [negb]; try destruct (_ =? ZERO_BI);
    cbn [listings Listing_save UserToken_save store_remove_UserToken
         Listing.id Listing.set_expires Listing.set_pricePerItem
         Listing.set_quantity Listing.set_blockTimestamp];
    by rewrite Hid.
Qed.

(** X16.  [handleItemUpdated] changes a stored listing and creates none:
    without a listing under the key the store is left as it is; with one,
    the listing takes the event's quantity, price and expiration, takes the
    event's block timestamp if and only if the price differs from the
    stored one, and keeps its status (which is not looked at), seller,
    token and collection; no other listing changes. *)
Theorem handleItemUpdated_listing (e : Event ItemUpdated.t) (st : Store) :
  store_wf st →
  match Listing_load (updatedKey e) st with
  | None => handleItemUpdated e st = st
  | Some l =>
      (∃ L,
         Listing_load (updatedKey e) (handleItemUpdated e st) = Some L
         ∧ Listing.quantity L = ItemUpdated.quantity (params e)
         ∧ Listing.pricePerItem L = ItemUpdated.pricePerItem (params e)
         ∧ Listing.expires L = ItemUpdated.expirationTime (params e)
         ∧ Listing.blockTimestamp L
           = (if Listing.pricePerItem l =? ItemUpdated.pricePerItem (params e)
              then Listing.blockTimestamp l
              else block_timestamp e)
         ∧ Listing.status L = Listing.status l
         ∧ Listing.user L = Listing.user l
         ∧ Listing.token L = Listing.token l
         ∧ Listing.collection L = Listing.collection l)
      ∧ ∀ k, k ≠ updatedKey e →
             Listing_load k (handleItemUpdated e st) = Listing_load k st
  end.
Proof.
  intros Hwf.
  destruct (Listing_load (updatedKey e) st) as [l|] eqn:Hload;
    [|by apply handleItemUpdated_absent].
  pose proof (handleItemUpdated_listings e st l Hwf Hload) as HL.
  unfold Listing_load. rewrite HL. split.
  - eexists. split; [apply lookup_insert_eq|].
    destruct (Listing.pricePerItem l =? ItemUpdated.pricePerItem (params e));
      by repeat split.
  - intros k Hk. by rewrite lookup_insert_ne by (by apply not_eq_sym).
Qed.

(** X17.  A sale that follows a price update is filed under the update's
    block timestamp, at the new price: after [handleItemUpdated] has
    changed the price of a stored listing, [handleItemSold] for the same
    item stores a Sold record under the listing key suffixed with the
    timestamp of the update's block; an update that keeps the price leaves
    the suffix at the listing's own timestamp. *)
Theorem sale_after_update_keyed_by_update
    (eu : Event ItemUpdated.t) (es : Event ItemSold.t)
    (st : Store) (l : Listing.t) :
  store_wf st →
  Listing_load (updatedKey eu) st = Some l →
  sameItem (ItemUpdated.seller (params eu)) (ItemUpdated.nftAddress (params eu))
           (ItemUpdated.tokenId (params eu))
           (ItemSold.seller (params es)) (ItemSold.nftAddress (params es))
           (ItemSold.tokenId (params es)) →
  let stamp := if Listing.pricePerItem l =? ItemUpdated.pricePerItem (params eu)
               then Listing.blockTimestamp l
               else block_timestamp eu in
  ∃ S,
    Listing_load (soldId (updatedKey eu) stamp)
                 (handleItemSold es (handleItemUpdated eu st)) = Some S
    ∧ Listing.status S = Some "Sold"
    ∧ Listing.pricePerItem S = ItemUpdated.pricePerItem (params eu)
    ∧ Listing.buyer S = Some (toHexString (ItemSold.buyer (params es))).
Proof.
  intros Hwf Hload (Hs & Hn & Ht) stamp.
  assert (Hk : soldKey es = updatedKey eu)
    by (unfold soldKey, updatedKey; by rewrite Hs, Hn, Ht).
  pose proof (handleItemUpdated_wf eu st Hwf) as Hwf1.
  pose proof (handleItemUpdated_listings eu st l Hwf Hload) as HL.
  destruct (handleItemSold_tables es (handleItemUpdated eu st) Hwf1)
    as (_ & S & HS & _ & Hst & _ & Hp & _ & Hb).
  rewrite Hk in HS, Hp.
  assert (Hget : getOrCreateListing (updatedKey eu) (handleItemUpdated eu st)
                 = Listing.set_expires (ItemUpdated.expirationTime (params eu))
                     (Listing.set_pricePerItem
                        (ItemUpdated.pricePerItem (params eu))
                        (Listing.set_quantity (ItemUpdated.quantity (params eu))
                           (if Listing.pricePerItem l
                               =? ItemUpdated.pricePerItem (params eu)
                            then l
                            else Listing.set_blockTimestamp
                                   (block_timestamp eu) l)))).
  { unfold getOrCreateListing, Listing_load. by rewrite HL, lookup_insert_eq. }
  rewrite Hget in HS, Hp.
  assert (Hstamp : Listing.blockTimestamp
                     (Listing.set_expires (ItemUpdated.expirationTime (params eu))
                        (Listing.set_pricePerItem
                           (ItemUpdated.pricePerItem (params eu))
                           (Listing.set_quantity
                              (ItemUpdated.quantity (params eu))
                              (if Listing.pricePerItem l
                                  =? ItemUpdated.pricePerItem (params eu)
                               then l
                               else Listing.set_blockTimestamp
                                      (block_timestamp eu) l))))
                   = stamp).
  { subst stamp. by destruct (_ =? _). }
  rewrite Hstamp in HS.
  exists S. unfold Listing_load. rewrite HS, lookup_insert_eq.
  repeat split; try done.
Qed.

(** * Selling *)

Lemma allActive_ext st st' ids :
  (∀ id, id ∈ ids → listings st' !! id = listings st !! id) →
  allActive st ids → allActive st' ids.
Proof.
  intros E H. unfold allActive in *. rewrite Forall_forall in *.
  intros id Hid. specialize (H id Hid).
  unfold activePrice, Listing_load in *. by rewrite (E id Hid).
Qed.

(** [handleItemSold] is the recalculation of the collection in the store
    that holds the listing tables of the sale. *)
Lemma handleItemSold_recalc e st :
  store_wf st →
  ∃ st1,
    handleItemSold e st
    = updateCollectionFloorAndTotal (ItemSold.nftAddress (params e)) st1
    ∧ store_wf st1
    ∧ collections st1 = collections st
    ∧ listings st1 = listings (handleItemSold e st).
Proof.
  intros Hwf. unfold handleItemSold, recordSale.
  destruct (_ =? _);
    match goal with
    | |- context [Listing_load ?k ?s] => destruct (Listing_load k s)
    end;
    (eexists; split; [reflexivity|]; split; [auto 8 with wf|];
     split; [reflexivity|]; by rewrite recalc_listings).
Qed.

(** X18.  The index after a sale from an Active listing [l], the one entry
    of its key in an index whose other entries are stored Active listings
    and none of the two Sold-record keys the handler writes to: a sale of
    the listing's whole quantity takes the entry out of the index, any
    other sale leaves the index as it is; totalListings is the length of
    the index either way. *)
Theorem handleItemSold_index
    (e : Event ItemSold.t) (st : Store) (c : Collection.t) (l : Listing.t)
    (pre suf : list string) :
  store_wf st →
  Collection_load (toHexString (ItemSold.nftAddress (params e))) st = Some c →
  Collection.listingIds c = (pre ++ soldKey e :: suf)%list →
  soldKey e ∉ pre → soldKey e ∉ suf →
  allActive st pre → allActive st suf →
  Listing_load (soldKey e) st = Some l →
  Listing.isActive l = true →
  soldId (soldKey e) (Listing.blockTimestamp l) ∉ (pre ++ suf)%list →
  soldId (soldKey e) (logIndex e) ∉ (pre ++ suf)%list →
  ∃ c',
    Collection_load (toHexString (ItemSold.nftAddress (params e)))
                    (handleItemSold e st) = Some c'
    ∧ Collection.listingIds c'
      = (if Listing.quantity l =? ItemSold.quantity (params e)
         then pre ++ suf else pre ++ soldKey e :: suf)%list
    ∧ Collection.totalListings c'
      = Z.of_nat (length (Collection.listingIds c')).
Proof.
  intros Hwf Hc Hids Hkpre Hksuf Hpre Hsuf Hload Hact Hsk Hlk.
  destruct (handleItemSold_tables e st Hwf) as (_ & S & HS & _ & Hst & _).
  rewrite (getOrCreateListing_present st _ l Hload) in HS.
  destruct (handleItemSold_recalc e st Hwf) as (st1 & Heq & Hwf1 & Ecol & Elis).
  rewrite <- Elis in HS. clear Elis. rewrite Heq. clear Heq.
  assert (Hc1 : Collection_load (toHexString (ItemSold.nftAddress (params e))) st1
                = Some c)
    by (unfold Collection_load in *; by rewrite Ecol).
  assert (Hother : ∀ ids, soldKey e ∉ ids → ids ⊆ (pre ++ suf)%list →
            allActive st ids → allActive st1 ids).
  { intros ids Hk Hsub. apply allActive_ext. intros id Hid. rewrite HS.
    assert (id ∈ (pre ++ suf)%list) as Hin by (by apply Hsub).
    rewrite lookup_insert_ne by (intros <-; by apply Hsk).
    rewrite lookup_delete_ne by (intros <-; by apply Hlk).
    unfold afterSale. destruct (_ =? _).
    - rewrite lookup_delete_ne; [done|]. intros <-. by apply Hk.
    - rewrite lookup_insert_ne; [done|]. intros <-. by apply Hk. }
  assert (Hpre1 : allActive st1 pre).
  { apply Hother; [done| |done]. intros x Hx. apply elem_of_app. by left. }
  assert (Hsuf1 : allActive st1 suf).
  { apply Hother; [done| |done]. intros x Hx. apply elem_of_app. by right. }
  assert (Hk1 : listings st1 !! soldKey e
                = afterSale (ItemSold.quantity (params e)) (soldKey e) l
                            (listings st) !! soldKey e).
  { rewrite HS.
    rewrite lookup_insert_ne by apply soldId_ne.
    by rewrite lookup_delete_ne by apply soldId_ne. }
  unfold afterSale in Hk1.
  destruct (Listing.quantity l =? ItemSold.quantity (params e)).
  - rewrite lookup_delete_eq in Hk1.
    destruct (recalc_one_stale (ItemSold.nftAddress (params e)) st1 c
                pre suf (soldKey e) Hwf1 Hc1 Hids Hpre1)
      as (c' & Hload' & Hids' & Htot & _); [|done|].
    { unfold stale, activePrice, Listing_load. by rewrite Hk1. }
    exists c'. by rewrite Hids'.
  - rewrite lookup_insert_eq in Hk1.
    destruct (recalc_no_stale (ItemSold.nftAddress (params e)) st1 c Hwf1 Hc1)
      as (c' & Hload' & Hids' & _).
    { rewrite Hids. apply Forall_app. split; [done|]. constructor; [|done].
      unfold activePrice, Listing_load. rewrite Hk1.
      rewrite (isActive_same_status l) by done. rewrite Hact. by eexists. }
    destruct (recalc_collection (ItemSold.nftAddress (params e)) st1 c Hwf1 Hc1)
      as (c2 & Hc2 & _ & Htot).
    rewrite Hload' in Hc2. injection Hc2 as <-.
    exists c'. rewrite Hids', Hids. by rewrite Hids', Hids in Htot.
Qed.

Lemma recalc_users id st :
  users (updateCollectionFloorAndTotal id st) = users st.
Proof. apply recalc_frame. Qed.

(** The Sold record [recordSale] saves. *)
Lemma recordSale_record e l1 st1 :
  store_wf st1 →
  ∃ S,
    Listing_load (soldId (Listing.id l1) (Listing.blockTimestamp l1))
                 (recordSale e l1 st1) = Some S
    ∧ Listing.status S = Some "Sold"
    ∧ Listing.user S = toHexString (ItemSold.seller (params e))
    ∧ Listing.buyer S = Some (toHexString (ItemSold.buyer (params e)))
    ∧ Listing.pricePerItem S = Listing.pricePerItem l1
    ∧ Listing.expires S = 0
    ∧ Listing.blockTimestamp S = block_timestamp e
    ∧ Listing.nicePrice S = Some (formatPrice (Listing.pricePerItem l1))
    ∧ Listing.totalPrice S
      = Some (formatPrice (Listing.pricePerItem l1 * Listing.quantity S))
    ∧ Listing.transactionLink S = Some (transactionLinkOf (transaction_hash e))
    ∧ Listing.collection S = Listing.collection l1
    ∧ Listing.token S = Listing.token l1.
Proof.
  intros Hwf1. unfold recordSale.
  assert (Hwf2 : store_wf
            (match Listing_load (soldId (Listing.id l1) (logIndex e)) st1 with
             | Some _ =>
                 store_remove_Listing (soldId (Listing.id l1) (logIndex e)) st1
             | None => st1
             end))
    by (destruct (Listing_load _ st1); auto with wf).
  set (st2 := match Listing_load (soldId (Listing.id l1) (logIndex e)) st1 with
              | Some _ =>
                  store_remove_Listing (soldId (Listing.id l1) (logIndex e)) st1
              | None => st1
              end) in *.
  assert (Hsid : Listing.id
                   (getOrCreateListing
                      (soldId (Listing.id l1) (Listing.blockTimestamp l1)) st2)
                 = soldId (Listing.id l1) (Listing.blockTimestamp l1))
    by (apply getOrCreateListing_id, Hwf2).
  unfold Listing_load. rewrite recalc_listings.
  cbn [listings Listing_save Listing.id]. rewrite Hsid.
  eexists. split; [apply lookup_insert_eq|]. by repeat split.
Qed.

(** X19.  The Sold record of [handleItemSold] takes its price from the
    stored listing, never from the event: pricePerItem is the listing's,
    nicePrice and totalPrice are [formatPrice] of that price and of that
    price times the record's quantity.  The record carries the event's
    seller, buyer, block timestamp and transaction link, expiration zero,
    and the listing's collection and token; it stands under the key
    suffixed with the listing's timestamp.  No UserToken and no User is
    written: the buyer is credited nothing. *)
Theorem handleItemSold_record (e : Event ItemSold.t) (st : Store) :
  store_wf st →
  let listing := getOrCreateListing (soldKey e) st in
  userTokens (handleItemSold e st) = userTokens st
  ∧ users (handleItemSold e st) = users st
  ∧ ∃ S,
      Listing_load (soldId (soldKey e) (Listing.blockTimestamp listing))
                   (handleItemSold e st) = Some S
      ∧ Listing.status S = Some "Sold"
      ∧ Listing.user S = toHexString (ItemSold.seller (params e))
      ∧ Listing.buyer S = Some (toHexString (ItemSold.buyer (params e)))
      ∧ Listing.pricePerItem S = Listing.pricePerItem listing
      ∧ Listing.expires S = 0
      ∧ Listing.blockTimestamp S = block_timestamp e
      ∧ Listing.nicePrice S = Some (formatPrice (Listing.pricePerItem listing))
      ∧ Listing.totalPrice S
        = Some (formatPrice (Listing.pricePerItem listing * Listing.quantity S))
      ∧ Listing.transactionLink S
        = Some (transactionLinkOf (transaction_hash e))
      ∧ Listing.collection S = Listing.collection listing
      ∧ Listing.token S = Listing.token listing.
Proof.
  intros Hwf listing.
  assert (Hid : Listing.id listing = soldKey e)
    by (apply getOrCreateListing_id, Hwf).
  split; [apply (handleItemSold_tables e st Hwf)|]. split.
  { unfold handleItemSold, recordSale.
    destruct (_ =? _);
      match goal with
      | |- context [Listing_load ?k ?s] => destruct (Listing_load k s)
      end;
      by rewrite recalc_users. }
  unfold handleItemSold. fold (soldKey e). fold listing.
  destruct (_ =? _).
  - destruct (recordSale_record e listing
                (store_remove_Listing (Listing.id listing) st)
                ltac:(auto with wf)) as (S & HS).
    rewrite Hid in HS. rewrite Hid. by exists S.
  - destruct (recordSale_record e
                (Listing.set_quantity
                   (Listing.quantity listing - ItemSold.quantity (params e))
                   listing)
                (Listing_save
                   (Listing.set_quantity
                      (Listing.quantity listing - ItemSold.quantity (params e))
                      listing) st)
                ltac:(auto with wf)) as (S & HS).
    cbn [Listing.set_quantity Listing.id Listing.blockTimestamp
         Listing.pricePerItem Listing.collection Listing.token] in HS |- *.
    rewrite Hid in HS. by exists S.
Qed.

(** * Staging sales *)

(** X20.  [handleItemSoldStaging] writes nothing but the UserToken under the
    buyer's key, and creates none: without a record there the store is left
    as it is; with one, the sold quantity is taken off its quantity (with
    no check that so much is held), and the record is removed exactly when
    the two quantities are equal.  No listing, collection or token is
    touched. *)
Theorem handleItemSoldStaging_lowers_buyer (e : Event ItemSold.t) (st : Store) :
  store_wf st →
  let st' := handleItemSoldStaging e st in
  listings st' = listings st
  ∧ collections st' = collections st
  ∧ tokens st' = tokens st
  ∧ (∀ k, k ≠ buyerKey e → UserToken_load k st' = UserToken_load k st)
  ∧ match UserToken_load (buyerKey e) st with
    | None => st' = st
    | Some userToken =>
        holdingOf st' (buyerKey e)
        = UserToken.quantity userToken - ItemSold.quantity (params e)
        ∧ (UserToken_load (buyerKey e) st' = None
           ↔ ItemSold.quantity (params e) = UserToken.quantity userToken)
    end.
Proof.
  intros Hwf st'. pose proof Hwf as (Hc & Ht & Hl & Hu).
  subst st'. unfold handleItemSoldStaging, holdingOf, getOrCreateUserToken.
  fold (buyerKey e). unfold UserToken_load.
  destruct (userTokens st !! buyerKey e) as [u|] eqn:Hload; [|done].
  assert (Hid : UserToken.id u = buyerKey e) by (by eapply keyed_lookup).
  rewrite Hid.
  destruct (Z.eqb_spec (ItemSold.quantity (params e)) (UserToken.quantity u))
    as [E|E];
    cbn [listings collections tokens userTokens store_remove_UserToken
         UserToken_save UserToken.set_quantity UserToken.id];
    rewrite ?Hid.
  - repeat split; try done.
    + intros k Hk. by rewrite lookup_delete_ne by (by apply not_eq_sym).
    + rewrite lookup_delete_eq. cbn [default id new_UserToken UserToken.quantity].
      unfold ZERO_BI. lia.
    + intros _. apply lookup_delete_eq.
  - repeat split; try done.
    + intros k Hk. by rewrite lookup_insert_ne by (by apply not_eq_sym).
    + by rewrite lookup_insert_eq.
    + rewrite lookup_insert_eq. intros H. discriminate H.
Qed.

(** * The further properties on the sample data *)

Lemma formatPrice_whole_amount_witness :
  formatPrice (3 * 10 ^ 18) = BigInt_toString 3.
Proof. apply formatPrice_whole_amount. lia. Defined.

Lemma formatPrice_with_fraction_witness :
  formatPrice (1 * 10 ^ 18 + 50000000000000000)
  = (BigInt_toString 1 ++ "."
     ++ Str.remove_char "0" (BigInt_toString 50000000000000000))%string.
Proof.
  destruct (formatPrice_with_fraction 1 50000000000000000) as [H _];
    [lia|lia|exact H].
Defined.

Lemma formatPrice_ignores_trailing_zero_witness :
  formatPrice (10 * 5) = formatPrice 5.
Proof. apply formatPrice_ignores_trailing_zero. lia. Defined.

Lemma recalculation_frame_witness :
  listings (updateCollectionFloorAndTotal Sample.nft Sample.staleTwoThenActive)
  = listings Sample.staleTwoThenActive.
Proof.
  assert (Hwf : store_wf Sample.staleTwoThenActive)
    by (apply store_wfb_wf; vm_compute; reflexivity).
  destruct (recalculation_frame Sample.nft Sample.staleTwoThenActive Hwf)
    as (H & _).
  exact H.
Defined.

Lemma listedThree_wf : store_wf Sample.listedThree.
Proof. apply store_wfb_wf. vm_compute. reflexivity. Qed.

Lemma listedThree_collection :
  Collection_load (toHexString Sample.nft) Sample.listedThree
  = Some Sample.oneListed.
Proof. vm_compute. reflexivity. Qed.

Lemma listedThree_listing :
  Listing_load Sample.key Sample.listedThree = Some Sample.threeListed.
Proof. vm_compute. reflexivity. Qed.

Lemma listedThree_allActive :
  allActive Sample.listedThree (Collection.listingIds Sample.oneListed).
Proof.
  constructor; [|constructor]. exists 5. vm_compute. reflexivity.
Qed.

Lemma recalculation_on_clean_index_witness :
  ∃ once,
    Collection_load (toHexString Sample.nft)
      (updateCollectionFloorAndTotal Sample.nft Sample.listedThree)
    = Some once
    ∧ Collection.listingIds once = Collection.listingIds Sample.oneListed.
Proof.
  destruct (recalculation_on_clean_index Sample.nft Sample.listedThree
              Sample.oneListed listedThree_wf listedThree_collection
              listedThree_allActive)
    as (once & twice & H1 & H2 & _).
  exists once. exact (conj H1 H2).
Defined.

Lemma oneStale_wf : store_wf Sample.oneStale.
Proof. apply store_wfb_wf. vm_compute. reflexivity. Qed.

Lemma recalculation_prunes_single_stale_entry_witness :
  ∃ c',
    Collection_load (toHexString Sample.nft)
      (updateCollectionFloorAndTotal Sample.nft Sample.oneStale) = Some c'
    ∧ Collection.listingIds c' = ([] ++ ["c"])%list.
Proof.
  assert (Hc : Collection_load (toHexString Sample.nft) Sample.oneStale
               = Some (Collection.mk "0xc0de" "" None 0 2 ["a"; "c"]))
    by (vm_compute; reflexivity).
  assert (Hids : Collection.listingIds
                   (Collection.mk "0xc0de" "" None 0 2 ["a"; "c"])
                 = ([] ++ "a" :: ["c"])%list) by reflexivity.
  assert (Hpre : allActive Sample.oneStale []) by constructor.
  assert (Hx : stale Sample.oneStale "a") by (vm_compute; reflexivity).
  assert (Hsuf : allActive Sample.oneStale ["c"]).
  { constructor; [|constructor]. exists 3. vm_compute. reflexivity. }
  destruct (recalculation_prunes_single_stale_entry Sample.nft Sample.oneStale
              _ [] ["c"] "a" oneStale_wf Hc Hids Hpre Hx Hsuf)
    as (c' & H1 & H2 & _).
  exists c'. exact (conj H1 H2).
Defined.

Lemma recalculation_floor_restarts_after_zero_witness :
  ∃ c',
    Collection_load (toHexString Sample.nft)
      (updateCollectionFloorAndTotal Sample.nft Sample.zeroPriced) = Some c'
    ∧ is_min_or_zero [3] (Collection.floorPrice c').
Proof.
  assert (Hwf : store_wf Sample.zeroPriced)
    by (apply store_wfb_wf; vm_compute; reflexivity).
  assert (Hc : Collection_load (toHexString Sample.nft) Sample.zeroPriced
               = Some (Collection.mk "0xc0de" "" None 0 3 ["a"; "b"; "c"]))
    by (vm_compute; reflexivity).
  assert (Hp : indexedActivePrices Sample.zeroPriced
                 (Collection.listingIds
                    (Collection.mk "0xc0de" "" None 0 3 ["a"; "b"; "c"]))
               = ([2] ++ 0 :: [3])%list)
    by (vm_compute; reflexivity).
  assert (Hps : Forall (λ p : Z, 0 ≤ p) [2])
    by (constructor; [lia|constructor]).
  assert (Hqs : Forall (λ q : Z, q ≠ 0) [3])
    by (constructor; [lia|constructor]).
  exact (recalculation_floor_restarts_after_zero Sample.nft Sample.zeroPriced
           _ [2] [3] Hwf Hc Hp Hps Hqs).
Defined.

Lemma multiToken_wf : store_wf Sample.multiToken.
Proof. apply store_wfb_wf. vm_compute. reflexivity. Qed.

Lemma recalculation_token_floor_witness :
  match indexedTokenPrices Sample.multiToken
          (Collection.listingIds
             (Collection.mk "0xc0de" "Treasures" (Some "ERC1155") 0 2 ["a"; "b"]))
          "0xc0de-1" with
  | [] =>
      Token_load "0xc0de-1"
        (updateCollectionFloorAndTotal Sample.nft Sample.multiToken)
      = Token_load "0xc0de-1" Sample.multiToken
  | p :: ps =>
      ∃ m, is_min (p :: ps) m
           ∧ Token_load "0xc0de-1"
               (updateCollectionFloorAndTotal Sample.nft Sample.multiToken)
             = Token.set_floorPrice m <$> Token_load "0xc0de-1" Sample.multiToken
  end.
Proof.
  assert (Hc : Collection_load (toHexString Sample.nft) Sample.multiToken
               = Some (Collection.mk "0xc0de" "Treasures" (Some "ERC1155") 0 2
                                     ["a"; "b"]))
    by (vm_compute; reflexivity).
  exact (recalculation_token_floor Sample.nft Sample.multiToken _ "0xc0de-1"
           multiToken_wf Hc eq_refl).
Defined.

Lemma recalculation_leaves_tokens_outside_erc1155_witness :
  tokens (updateCollectionFloorAndTotal Sample.nft Sample.listedThree)
  = tokens Sample.listedThree.
Proof.
  assert (Hs : Collection.standard Sample.oneListed ≠ Some "ERC1155")
    by (intros H; discriminate H).
  exact (recalculation_leaves_tokens_outside_erc1155 Sample.nft
           Sample.listedThree Sample.oneListed
           listedThree_wf listedThree_collection Hs).
Defined.

Lemma seeded_wf : store_wf Sample.seeded.
Proof. apply store_wfb_wf. vm_compute. reflexivity. Qed.

Lemma handleItemListed_indexes_listing_witness :
  ∃ L,
    Listing_load (listedKey (Sample.listed 5 3 100))
                 (handleItemListed (Sample.listed 5 3 100) Sample.seeded)
    = Some L
    ∧ Listing.status L = Some "Active".
Proof.
  destruct (handleItemListed_indexes_listing (Sample.listed 5 3 100)
              Sample.seeded seeded_wf)
    as (_ & _ & (L & H1 & H2 & _) & _).
  exists L. exact (conj H1 H2).
Defined.

Lemma handleItemListed_token_floor_witness :
  tokens (handleItemListed (Sample.listed 5 3 100) Sample.seeded)
  = tokens Sample.seeded.
Proof.
  destruct (handleItemListed_token_floor (Sample.listed 5 3 100)
              Sample.seeded seeded_wf) as (H & _).
  assert (Hs : Collection.standard
                 (getOrCreateCollection
                    (Token.collection
                       (getOrCreateToken
                          (getTokenId
                             (ItemListed.nftAddress
                                (params (Sample.listed 5 3 100)))
                             (ItemListed.tokenId
                                (params (Sample.listed 5 3 100))))
                          Sample.seeded))
                    Sample.seeded)
               ≠ Some "ERC1155")
    by (intros E; vm_compute in E; discriminate E).
  exact (H Hs).
Defined.

Lemma handleItemCanceled_unlists_witness :
  Listing_load (canceledKey Sample.canceled)
               (handleItemCanceled Sample.canceled Sample.listedThree) = None
  ∧ holdingOf (handleItemCanceled Sample.canceled Sample.listedThree)
              (canceledKey Sample.canceled)
    = holdingOf Sample.listedThree (canceledKey Sample.canceled)
      + listedOf Sample.listedThree (canceledKey Sample.canceled).
Proof.
  assert (Hids : Collection.listingIds Sample.oneListed
                 = ([] ++ canceledKey Sample.canceled :: [])%list)
    by reflexivity.
  assert (Hno : canceledKey Sample.canceled ∉ @nil string)
    by apply not_elem_of_nil.
  assert (Hall : allActive Sample.listedThree []) by constructor.
  destruct (handleItemCanceled_unlists Sample.canceled Sample.listedThree
              Sample.oneListed [] [] listedThree_wf listedThree_collection
              Hids Hno Hno Hall Hall)
    as (H1 & H2 & _).
  exact (conj H1 H2).
Defined.

Lemma list_then_cancel_round_trip_witness :
  holdingOf (handleItemCanceled Sample.canceled
               (handleItemListed (Sample.listed 5 3 100) Sample.seeded))
            (listedKey (Sample.listed 5 3 100))
  = holdingOf Sample.seeded (listedKey (Sample.listed 5 3 100)).
Proof.
  assert (Hsame : sameItem
            (ItemListed.seller (params (Sample.listed 5 3 100)))
            (ItemListed.nftAddress (params (Sample.listed 5 3 100)))
            (ItemListed.tokenId (params (Sample.listed 5 3 100)))
            (ItemCanceled.seller (params Sample.canceled))
            (ItemCanceled.nftAddress (params Sample.canceled))
            (ItemCanceled.tokenId (params Sample.canceled)))
    by (repeat split).
  assert (Hcol : Token.collection
                   (getOrCreateToken
                      (getTokenId
                         (ItemListed.nftAddress (params (Sample.listed 5 3 100)))
                         (ItemListed.tokenId (params (Sample.listed 5 3 100))))
                      Sample.seeded)
                 = toHexString
                     (ItemListed.nftAddress (params (Sample.listed 5 3 100))))
    by (vm_compute; reflexivity).
  assert (Hold : Collection.listingIds
                   (getOrCreateCollection
                      (Token.collection
                         (getOrCreateToken
                            (getTokenId
                               (ItemListed.nftAddress
                                  (params (Sample.listed 5 3 100)))
                               (ItemListed.tokenId
                                  (params (Sample.listed 5 3 100))))
                            Sample.seeded))
                      Sample.seeded)
                 = []) by (vm_compute; reflexivity).
  destruct (list_then_cancel_round_trip (Sample.listed 5 3 100)
              Sample.canceled Sample.seeded seeded_wf Hsame Hcol)
    as (_ & H & _).
  - rewrite Hold. apply not_elem_of_nil.
  - rewrite Hold. constructor.
  - exact H.
Defined.

Lemma handleItemUpdated_listing_witness :
  match Listing_load (updatedKey (Sample.updated 7 1 101)) Sample.listedThree with
  | None =>
      handleItemUpdated (Sample.updated 7 1 101) Sample.listedThree
      = Sample.listedThree
  | Some l =>
      (∃ L,
         Listing_load (updatedKey (Sample.updated 7 1 101))
           (handleItemUpdated (Sample.updated 7 1 101) Sample.listedThree)
         = Some L
         ∧ Listing.quantity L
           = ItemUpdated.quantity (params (Sample.updated 7 1 101))
         ∧ Listing.pricePerItem L
           = ItemUpdated.pricePerItem (params (Sample.updated 7 1 101))
         ∧ Listing.expires L
           = ItemUpdated.expirationTime (params (Sample.updated 7 1 101))
         ∧ Listing.blockTimestamp L
           = (if Listing.pricePerItem l
                 =? ItemUpdated.pricePerItem (params (Sample.updated 7 1 101))
              then Listing.blockTimestamp l
              else block_timestamp (Sample.updated 7 1 101))
         ∧ Listing.status L = Listing.status l
         ∧ Listing.user L = Listing.user l
         ∧ Listing.token L = Listing.token l
         ∧ Listing.collection L = Listing.collection l)
      ∧ ∀ k, k ≠ updatedKey (Sample.updated 7 1 101) →
             Listing_load k
               (handleItemUpdated (Sample.updated 7 1 101) Sample.listedThree)
             = Listing_load k Sample.listedThree
  end.
Proof.
  exact (handleItemUpdated_listing (Sample.updated 7 1 101) Sample.listedThree
           listedThree_wf).
Defined.

Lemma sale_after_update_keyed_by_update_witness :
  ∃ S,
    Listing_load (soldId (updatedKey (Sample.updated 7 1 101)) 101)
      (handleItemSold Sample.saleOne
         (handleItemUpdated (Sample.updated 7 1 101) Sample.listedThree))
    = Some S
    ∧ Listing.status S = Some "Sold".
Proof.
  assert (Hsame : sameItem
            (ItemUpdated.seller (params (Sample.updated 7 1 101)))
            (ItemUpdated.nftAddress (params (Sample.updated 7 1 101)))
            (ItemUpdated.tokenId (params (Sample.updated 7 1 101)))
            (ItemSold.seller (params Sample.saleOne))
            (ItemSold.nftAddress (params Sample.saleOne))
            (ItemSold.tokenId (params Sample.saleOne)))
    by (repeat split).
  destruct (sale_after_update_keyed_by_update (Sample.updated 7 1 101)
              Sample.saleOne Sample.listedThree Sample.threeListed
              listedThree_wf listedThree_listing Hsame)
    as (S & H1 & H2 & _).
  exists S. exact (conj H1 H2).
Defined.

Lemma handleItemSold_index_witness :
  ∃ c',
    Collection_load (toHexString (ItemSold.nftAddress (params Sample.saleOne)))
                    (handleItemSold Sample.saleOne Sample.listedThree) = Some c'
    ∧ Collection.listingIds c'
      = (if Listing.quantity Sample.threeListed
            =? ItemSold.quantity (params Sample.saleOne)
         then [] ++ [] else [] ++ soldKey Sample.saleOne :: [])%list.
Proof.
  assert (Hids : Collection.listingIds Sample.oneListed
                 = ([] ++ soldKey Sample.saleOne :: [])%list)
    by reflexivity.
  assert (Hno : soldKey Sample.saleOne ∉ @nil string)
    by apply not_elem_of_nil.
  assert (Hall : allActive Sample.listedThree []) by constructor.
  assert (Hact : Listing.isActive Sample.threeListed = true)
    by (vm_compute; reflexivity).
  assert (Hsk : soldId (soldKey Sample.saleOne)
                       (Listing.blockTimestamp Sample.threeListed)
                ∉ ([] ++ [])%list)
    by apply not_elem_of_nil.
  assert (Hlk : soldId (soldKey Sample.saleOne) (logIndex Sample.saleOne)
                ∉ ([] ++ [])%list)
    by apply not_elem_of_nil.
  destruct (handleItemSold_index Sample.saleOne Sample.listedThree
              Sample.oneListed Sample.threeListed [] []
              listedThree_wf listedThree_collection Hids Hno Hno Hall Hall
              listedThree_listing Hact Hsk Hlk)
    as (c' & H1 & H2 & _).
  exists c'. exact (conj H1 H2).
Defined.

Lemma handleItemSold_record_witness :
  userTokens (handleItemSold Sample.saleOne Sample.listedThree)
  = userTokens Sample.listedThree.
Proof.
  destruct (handleItemSold_record Sample.saleOne Sample.listedThree
              listedThree_wf) as (H & _).
  exact H.
Defined.

Lemma handleItemSoldStaging_lowers_buyer_witness :
  listings (handleItemSoldStaging Sample.saleOne Sample.listedThree)
  = listings Sample.listedThree.
Proof.
  destruct (handleItemSoldStaging_lowers_buyer Sample.saleOne
              Sample.listedThree listedThree_wf) as (H & _).
  exact H.
Defined.

(** * Floor correctness along runs *)

(** ** Active listings *)

Lemma activePrice_activeListing st k :
  activePrice st k = Listing.pricePerItem <$> activeListing st k.
Proof.
  unfold activePrice, activeListing.
  destruct (Listing_load k st) as [l|]; [|done]. by destruct (Listing.isActive l).
Qed.

Lemma activeListing_lookup st st' k :
  listings st' !! k = listings st !! k →
  activeListing st' k = activeListing st k.
Proof. intros E. unfold activeListing, Listing_load. by rewrite E. Qed.

Lemma activeListing_Some st k l :
  activeListing st k = Some l →
  Listing_load k st = Some l ∧ Listing.isActive l = true.
Proof.
  unfold activeListing. destruct (Listing_load k st) as [l'|]; [|done].
  destruct (Listing.isActive l') eqn:E; [|done]. intros [= <-]. by split.
Qed.

Lemma activeListing_stored st k l :
  Listing_load k st = Some l →
  activeListing st k = if Listing.isActive l then Some l else None.
Proof. intros H. unfold activeListing. by rewrite H. Qed.

Lemma activeListing_absent st k :
  Listing_load k st = None → activeListing st k = None.
Proof. intros H. unfold activeListing. by rewrite H. Qed.

Lemma stale_activeListing st k : activeListing st k = None → stale st k.
Proof. intros H. unfold stale. by rewrite activePrice_activeListing, H. Qed.

Lemma listedIn_ext st st' cid k :
  activeListing st' k = activeListing st k →
  listedIn st cid k → listedIn st' cid k.
Proof. intros E (l & H). exists l. by rewrite E. Qed.

Lemma listedIn_Forall_ext st st' cid ids :
  (∀ k, k ∈ ids → activeListing st' k = activeListing st k) →
  Forall (listedIn st cid) ids → Forall (listedIn st' cid) ids.
Proof.
  intros E. rewrite !Forall_forall. intros H k Hk.
  apply (listedIn_ext st); [by apply E|by apply H].
Qed.

Lemma listedIn_allActive st cid ids :
  Forall (listedIn st cid) ids → allActive st ids.
Proof.
  unfold allActive. intros H. eapply Forall_impl; [exact H|].
  intros k (l & Hl & _). cbn beta.
  rewrite activePrice_activeListing, Hl. by eexists.
Qed.

Lemma indexedActivePrices_ext st st' ids :
  (∀ k, k ∈ ids → activeListing st' k = activeListing st k) →
  indexedActivePrices st' ids = indexedActivePrices st ids.
Proof.
  induction ids as [|k ids IH]; intros E; [done|].
  unfold indexedActivePrices in *. cbn [omap list_omap].
  rewrite !activePrice_activeListing, (E k) by apply list_elem_of_here.
  fold (omap (activePrice st') ids). fold (omap (activePrice st) ids).
  rewrite IH; [done|]. intros k' Hk'. apply E. by apply list_elem_of_further.
Qed.

Lemma indexedActivePrices_nonzero st cid ids :
  Forall (listedIn st cid) ids →
  Forall (λ p, p ≠ 0) (indexedActivePrices st ids).
Proof.
  intros H. rewrite Forall_forall in H. rewrite Forall_forall. intros p Hp.
  apply list_elem_of_omap in Hp as (k & Hk & Hpk).
  destruct (H k Hk) as (l & Hl & _ & Hnz).
  rewrite activePrice_activeListing, Hl in Hpk. by injection Hpk as <-.
Qed.

(** ** The minimum depends on the prices only as a set *)

Lemma is_min_or_zero_ext (ps qs : list BigInt) (m : BigInt) :
  (∀ p, p ∈ ps ↔ p ∈ qs) → is_min_or_zero ps m → is_min_or_zero qs m.
Proof.
  intros E. destruct ps as [|p ps], qs as [|q qs]; cbn [is_min_or_zero].
  - done.
  - assert (q ∈ @nil BigInt) as H by (apply E, list_elem_of_here).
    by apply elem_of_nil in H.
  - assert (p ∈ @nil BigInt) as H by (apply E, list_elem_of_here).
    by apply elem_of_nil in H.
  - intros [Hin Hle]. split; [by apply E|].
    rewrite Forall_forall in Hle. rewrite Forall_forall.
    intros x Hx. by apply Hle, E.
Qed.

(** In a store whose indexes are sound and complete, the prices the index
    of a collection refers to are the prices of the stored Active listings
    that reference the collection. *)
Lemma referencing_prices_indexed st cid c :
  index_sound st → index_complete st →
  Collection_load cid st = Some c →
  ∀ p, p ∈ referencingActivePrices st cid
       ↔ p ∈ indexedActivePrices st (Collection.listingIds c).
Proof.
  intros Hs Hc Hload p. unfold referencingActivePrices, indexedActivePrices.
  rewrite list_elem_of_fmap, list_elem_of_omap. split.
  - intros ([k l] & -> & Hin). apply list_elem_of_filter in Hin as [[Ha Hcid] Hin].
    apply elem_of_map_to_list in Hin. cbn [snd] in *.
    assert (Hact : activeListing st k = Some l).
    { rewrite (activeListing_stored st k l Hin).
      by destruct (Listing.isActive l). }
    destruct (Hc k l Hact) as (c' & Hc' & Hk).
    rewrite Hcid, Hload in Hc'. injection Hc' as <-.
    exists k. split; [done|]. by rewrite activePrice_activeListing, Hact.
  - intros (k & Hk & Hp).
    destruct (Hs cid c Hload) as [_ Hall]. rewrite Forall_forall in Hall.
    destruct (Hall k Hk) as (l & Hl & Hcid & _).
    rewrite activePrice_activeListing, Hl in Hp. injection Hp as <-.
    apply activeListing_Some in Hl as [Hl Ha].
    exists (k, l). split; [done|]. apply list_elem_of_filter. split.
    + cbn [snd]. split; [by rewrite Ha|done].
    + by apply elem_of_map_to_list.
Qed.

Lemma floor_over_index_correct st :
  index_sound st → index_complete st →
  floor_over_index st → floor_correct st.
Proof.
  intros Hs Hc Hf cid c Hload.
  apply (is_min_or_zero_ext (indexedActivePrices st (Collection.listingIds c))).
  - intros p. symmetry. by apply referencing_prices_indexed.
  - exact (Hf cid c Hload).
Qed.

Lemma floor_correct_over_index st :
  index_sound st → index_complete st →
  floor_correct st → floor_over_index st.
Proof.
  intros Hs Hc Hf cid c Hload.
  apply (is_min_or_zero_ext (referencingActivePrices st cid)).
  - intros p. by apply referencing_prices_indexed.
  - exact (Hf cid c Hload).
Qed.

(** ** The floor, one listing more *)

Lemma floorStep_keeps_min (ps : list BigInt) (f p : BigInt) :
  Forall (λ q, q ≠ 0) ps → p ≠ 0 →
  is_min_or_zero ps f → is_min_or_zero (ps ++ [p]) (floorStep f p).
Proof.
  intros Hnz Hp Hmin. unfold floorStep, lowersFloor.
  destruct ps as [|q ps].
  - cbn [is_min_or_zero] in Hmin. subst f. cbn [app is_min_or_zero].
    change (0 =? 0) with true. cbn [orb].
    split; [apply list_elem_of_here|]. constructor; [lia|constructor].
  - cbn [is_min_or_zero] in Hmin. destruct Hmin as [Hin Hle].
    assert (Hf : f ≠ 0) by (rewrite Forall_forall in Hnz; by apply Hnz).
    change ((q :: ps) ++ [p])%list with (q :: (ps ++ [p]))%list.
    cbn [is_min_or_zero].
    change (q :: (ps ++ [p]))%list with ((q :: ps) ++ [p])%list.
    destruct (Z.eqb_spec f 0) as [E|_]; [done|]. cbn [orb].
    destruct (Z.gtb_spec f p) as [Hgt|Hle'].
    + split; [apply elem_of_app; right; apply list_elem_of_here|].
      apply Forall_app. split.
      * clear -Hle Hgt. induction Hle; constructor; [lia|done].
      * constructor; [lia|constructor].
    + split; [apply elem_of_app; by left|].
      apply Forall_app. split; [done|]. constructor; [lia|constructor].
Qed.

(** ** Recalculating *)

Lemma recalc_other id st cid :
  store_wf st → cid ≠ toHexString id →
  Collection_load cid (updateCollectionFloorAndTotal id st)
  = Collection_load cid st.
Proof.
  intros Hwf Hne.
  destruct (Collection_load (toHexString id) st) as [c|] eqn:Hc.
  - destruct (recalc_result id st c Hwf Hc) as (c' & fp & _ & Hcol & _).
    unfold Collection_load. rewrite Hcol.
    by rewrite lookup_insert_ne by (by apply not_eq_sym).
  - unfold updateCollectionFloorAndTotal. by rewrite Hc.
Qed.

Lemma recalc_activeListing id st k :
  activeListing (updateCollectionFloorAndTotal id st) k = activeListing st k.
Proof. apply activeListing_lookup. by rewrite recalc_listings. Qed.

(** The collection a run saves when its index is in order but for one
    stale entry at most. *)
Lemma recalc_saved_in_order id st c :
  store_wf st →
  Collection_load (toHexString id) st = Some c →
  NoDup (Collection.listingIds c) →
  Forall (listedIn st (toHexString id)) (Collection.listingIds c)
  ∨ (∃ pre x suf,
       Collection.listingIds c = (pre ++ x :: suf)%list
       ∧ stale st x
       ∧ Forall (listedIn st (toHexString id)) (pre ++ suf)) →
  ∃ c',
    Collection_load (toHexString id) (updateCollectionFloorAndTotal id st)
    = Some c'
    ∧ NoDup (Collection.listingIds c')
    ∧ Forall (listedIn st (toHexString id)) (Collection.listingIds c')
    ∧ (∀ k l, k ∈ Collection.listingIds c → activeListing st k = Some l →
              k ∈ Collection.listingIds c')
    ∧ Collection.floorPrice c'
      = foldl floorStep 0 (indexedActivePrices st (Collection.listingIds c')).
Proof.
  intros Hwf Hc Hnd [Hall|(pre & x & suf & Hids & Hx & Hall)].
  - destruct (recalc_no_stale id st c Hwf Hc) as (c' & Hc' & Hids' & Hfl).
    { by apply (listedIn_allActive st (toHexString id)). }
    exists c'. rewrite Hids'. by repeat split.
  - apply Forall_app in Hall as [Hpre Hsuf].
    destruct (recalc_one_stale id st c pre suf x Hwf Hc Hids)
      as (c' & Hc' & Hids' & _ & Hfl).
    { by apply (listedIn_allActive st (toHexString id)). }
    { done. }
    { by apply (listedIn_allActive st (toHexString id)). }
    exists c'. rewrite Hids'. split; [done|]. split; [|split; [|split]].
    + rewrite Hids in Hnd. apply NoDup_app in Hnd as (Hn1 & Hn2 & Hn3).
      apply NoDup_cons in Hn3 as [_ Hn3]. apply NoDup_app.
      split; [done|]. split; [|done].
      intros y Hy Hy'. apply (Hn2 y Hy). by apply list_elem_of_further.
    + apply Forall_app. by split.
    + intros k l Hk Hl. rewrite Hids in Hk.
      apply elem_of_app in Hk as [Hk|Hk]; [apply elem_of_app; by left|].
      apply elem_of_cons in Hk as [->|Hk]; [|apply elem_of_app; by right].
      unfold stale in Hx. rewrite activePrice_activeListing, Hl in Hx.
      discriminate Hx.
    + done.
Qed.

(** A run leaves the indexes in order when they are in order but for one
    stale entry, at most, in the index of the collection it runs on. *)
Lemma recalc_in_order id st :
  store_wf st →
  index_complete st →
  (∀ cid c, cid ≠ toHexString id → Collection_load cid st = Some c →
     NoDup (Collection.listingIds c)
     ∧ Forall (listedIn st cid) (Collection.listingIds c)
     ∧ is_min_or_zero (indexedActivePrices st (Collection.listingIds c))
                      (Collection.floorPrice c)) →
  (∀ c, Collection_load (toHexString id) st = Some c →
     NoDup (Collection.listingIds c)
     ∧ (Forall (listedIn st (toHexString id)) (Collection.listingIds c)
        ∨ ∃ pre x suf,
            Collection.listingIds c = (pre ++ x :: suf)%list
            ∧ stale st x
            ∧ Forall (listedIn st (toHexString id)) (pre ++ suf))) →
  indexes_in_order (updateCollectionFloorAndTotal id st).
Proof.
  intros Hwf Hcomp Hother Hthis.
  set (st' := updateCollectionFloorAndTotal id st).
  assert (Hact : ∀ k, activeListing st' k = activeListing st k)
    by (intros k; apply recalc_activeListing).
  assert (Hprices : ∀ ids, indexedActivePrices st' ids = indexedActivePrices st ids)
    by (intros ids; apply indexedActivePrices_ext; intros k _; apply Hact).
  assert (Hlisted : ∀ cid ids, Forall (listedIn st cid) ids →
                               Forall (listedIn st' cid) ids)
    by (intros cid ids; apply listedIn_Forall_ext; intros k _; apply Hact).
  assert (Hwf' : store_wf st') by (by apply recalc_wf).
  destruct (Collection_load (toHexString id) st) as [c0|] eqn:Hc0.
  - destruct (Hthis c0 eq_refl) as [Hnd Hcases].
    destruct (recalc_saved_in_order id st c0 Hwf Hc0 Hnd Hcases)
      as (c' & Hc' & Hnd' & Hall' & Hkeep & Hfl).
    fold st' in Hc'.
    split; [done|]. split; [|split].
    + intros cid c Hc. destruct (decide (cid = toHexString id)) as [->|Hne].
      * rewrite Hc' in Hc. injection Hc as <-. split; [done|by apply Hlisted].
      * subst st'. rewrite (recalc_other id st cid Hwf Hne) in Hc.
        destruct (Hother cid c Hne Hc) as (H1 & H2 & _).
        split; [done|by apply Hlisted].
    + intros k l Hl. rewrite Hact in Hl.
      destruct (Hcomp k l Hl) as (c & Hc & Hk).
      destruct (decide (Listing.collection l = toHexString id)) as [E|Hne].
      * rewrite E in *. rewrite Hc0 in Hc. injection Hc as <-.
        exists c'. split; [done|]. by apply (Hkeep k l).
      * exists c. split; [|done].
        subst st'. by rewrite (recalc_other id st _ Hwf Hne).
    + intros cid c Hc. rewrite Hprices.
      destruct (decide (cid = toHexString id)) as [->|Hne].
      * rewrite Hc' in Hc. injection Hc as <-. rewrite Hfl.
        apply foldl_floorStep_is_min.
        by apply (indexedActivePrices_nonzero st (toHexString id)).
      * subst st'. rewrite (recalc_other id st cid Hwf Hne) in Hc.
        by destruct (Hother cid c Hne Hc) as (_ & _ & H3).
  - assert (Hsame : st' = st)
      by (subst st'; unfold updateCollectionFloorAndTotal; by rewrite Hc0).
    rewrite Hsame.
    assert (Hne : ∀ cid c, Collection_load cid st = Some c →
                           cid ≠ toHexString id)
      by (intros cid c Hc ->; by rewrite Hc0 in Hc).
    split; [done|]. split; [|split; [done|]].
    + intros cid c Hc.
      destruct (Hother cid c (Hne cid c Hc) Hc) as (H1 & H2 & _). by split.
    + intros cid c Hc.
      by destruct (Hother cid c (Hne cid c Hc) Hc) as (_ & _ & H3).
Qed.

(** ** A handler that touches one Active listing, then recalculates *)

Lemma active_price_nonzero st k l :
  index_sound st → index_complete st →
  activeListing st k = Some l → Listing.pricePerItem l ≠ 0.
Proof.
  intros Hs Hc Hl. destruct (Hc k l Hl) as (c & Hload & Hk).
  destruct (Hs _ c Hload) as [_ Hall]. rewrite Forall_forall in Hall.
  destruct (Hall k Hk) as (l' & Hl' & _ & Hnz).
  rewrite Hl in Hl'. by injection Hl' as <-.
Qed.

Lemma touched_then_recalc id st st1 k :
  indexes_in_order st →
  store_wf st1 →
  collections st1 = collections st →
  (∀ k', k' ≠ k → activeListing st1 k' = activeListing st k') →
  filedUnder st k id →
  match activeListing st1 k with
  | Some l1 =>
      ∃ l, activeListing st k = Some l
           ∧ Listing.collection l1 = Listing.collection l
           ∧ Listing.pricePerItem l1 ≠ 0
  | None => True
  end →
  indexes_in_order (updateCollectionFloorAndTotal id st1).
Proof.
  intros (Hwf & Hsound & Hcomp & Hfloor) Hwf1 Hcol Hrest Hfiled Hat.
  assert (Hload : ∀ cid, Collection_load cid st1 = Collection_load cid st)
    by (intros cid; unfold Collection_load; by rewrite Hcol).
  assert (Hnotin : ∀ cid c, cid ≠ toHexString id →
            Collection_load cid st = Some c → k ∉ Collection.listingIds c).
  { intros cid c Hne Hc Hk.
    destruct (Hsound cid c Hc) as [_ Hall]. rewrite Forall_forall in Hall.
    destruct (Hall k Hk) as (l & Hl & Hcid & _).
    unfold filedUnder in Hfiled. rewrite Hl in Hfiled.
    apply Hne. by rewrite <- Hcid. }
  apply recalc_in_order; [done| | |].
  - intros k' l1 Hl1. destruct (decide (k' = k)) as [->|Hne].
    + rewrite Hl1 in Hat. destruct Hat as (l & Hl & Hcid & _).
      destruct (Hcomp k l Hl) as (c & Hc & Hk).
      exists c. by rewrite Hcid, Hload.
    + rewrite (Hrest k' Hne) in Hl1.
      destruct (Hcomp k' l1 Hl1) as (c & Hc & Hk).
      exists c. by rewrite Hload.
  - intros cid c Hne Hc. rewrite Hload in Hc.
    destruct (Hsound cid c Hc) as [Hnd Hall].
    pose proof (Hnotin cid c Hne Hc) as Hk.
    assert (Hsame : ∀ k', k' ∈ Collection.listingIds c →
                          activeListing st1 k' = activeListing st k')
      by (intros k' Hk'; apply Hrest; intros ->; by apply Hk).
    split; [done|]. split.
    + by apply (listedIn_Forall_ext st).
    + rewrite (indexedActivePrices_ext st st1) by done. exact (Hfloor cid c Hc).
  - intros c Hc. rewrite Hload in Hc.
    destruct (Hsound _ c Hc) as [Hnd Hall].
    split; [done|].
    destruct (decide (k ∈ Collection.listingIds c)) as [Hk|Hk].
    + destruct (activeListing st1 k) as [l1|] eqn:Hl1.
      * left. destruct Hat as (l & Hl & Hcid & Hnz).
        rewrite Forall_forall in Hall. rewrite Forall_forall.
        intros k' Hk'. destruct (decide (k' = k)) as [->|Hne].
        -- destruct (Hall k Hk) as (l' & Hl' & Hcid' & _).
           rewrite Hl in Hl'. injection Hl' as <-.
           exists l1. split; [done|]. split; [by rewrite Hcid|done].
        -- apply (listedIn_ext st); [by apply Hrest|by apply Hall].
      * right. apply list_elem_of_split in Hk as (pre & suf & Hids).
        exists pre, k, suf. split; [done|].
        split; [by apply stale_activeListing|].
        rewrite Hids in Hnd, Hall.
        apply NoDup_app in Hnd as (_ & Hn2 & Hn3).
        apply NoDup_cons in Hn3 as [Hn3 _].
        apply Forall_app in Hall as [Hpre Hsuf].
        apply Forall_cons in Hsuf as [_ Hsuf].
        apply Forall_app. split.
        -- apply (listedIn_Forall_ext st); [|done].
           intros k' Hk'. apply Hrest. intros ->.
           apply (Hn2 k Hk'). apply list_elem_of_here.
        -- apply (listedIn_Forall_ext st); [|done].
           intros k' Hk'. apply Hrest. intros ->. by apply Hn3.
    + left. apply (listedIn_Forall_ext st); [|done].
      intros k' Hk'. apply Hrest. intros ->. by apply Hk.
Qed.

(** ** The handlers keep the indexes in order *)

Lemma isActive_false_status l s :
  Listing.status l = s → s ≠ Some "Active" → Listing.isActive l = false.
Proof.
  intros H Hs. unfold Listing.isActive. rewrite H.
  by apply bool_decide_eq_false_2.
Qed.

Lemma indexes_in_order_ext st st' :
  store_wf st' →
  collections st' = collections st →
  listings st' = listings st →
  indexes_in_order st → indexes_in_order st'.
Proof.
  intros Hwf' Ecol Elis (Hwf & Hsound & Hcomp & Hfloor).
  assert (Hload : ∀ cid, Collection_load cid st' = Collection_load cid st)
    by (intros cid; unfold Collection_load; by rewrite Ecol).
  assert (Hact : ∀ k, activeListing st' k = activeListing st k)
    by (intros k; apply activeListing_lookup; by rewrite Elis).
  split; [done|]. split; [|split].
  - intros cid c Hc. rewrite Hload in Hc.
    destruct (Hsound cid c Hc) as [Hnd Hall]. split; [done|].
    apply (listedIn_Forall_ext st); [|done]. intros k _. apply Hact.
  - intros k l Hl. rewrite Hact in Hl.
    destruct (Hcomp k l Hl) as (c & Hc & Hk). exists c. by rewrite Hload.
  - intros cid c Hc. rewrite Hload in Hc.
    rewrite (indexedActivePrices_ext st st') by (intros k _; apply Hact).
    exact (Hfloor cid c Hc).
Qed.

(** *** ItemCanceled *)

Lemma handleItemCanceled_in_order e st :
  indexes_in_order st → orderly st (EvItemCanceled e) →
  indexes_in_order (handleItemCanceled e st).
Proof.
  intros Hin Hord. pose proof Hin as (Hwf & _).
  destruct (handleItemCanceled_recalc e st Hwf)
    as (st1 & -> & Hwf1 & Ecol & _ & Elis).
  apply (touched_then_recalc _ st st1 (canceledKey e)); [done|done|done| | |].
  - intros k' Hne. apply activeListing_lookup. rewrite Elis.
    by rewrite lookup_delete_ne by (by apply not_eq_sym).
  - exact Hord.
  - rewrite (activeListing_absent st1); [done|].
    unfold Listing_load. rewrite Elis. apply lookup_delete_eq.
Qed.

(** *** ItemUpdated *)

Lemma handleItemUpdated_recalc e st l :
  store_wf st →
  Listing_load (updatedKey e) st = Some l →
  ∃ st1,
    handleItemUpdated e st
    = updateCollectionFloorAndTotal (ItemUpdated.nftAddress (params e)) st1
    ∧ store_wf st1
    ∧ collections st1 = collections st
    ∧ listings st1 = listings (handleItemUpdated e st).
Proof.
  intros Hwf Hload. unfold handleItemUpdated. fold (updatedKey e).
  rewrite Hload. eexists. split; [reflexivity|]. split; [|split].
  - apply Listing_save_wf.
    destruct (negb (Listing.quantity l =? _)); [destruct (_ =? ZERO_BI)|];
      auto with wf.
  - cbn [collections Listing_save].
    destruct (negb (Listing.quantity l =? _)); [destruct (_ =? ZERO_BI)|];
      done.
  - by rewrite recalc_listings.
Qed.

Lemma handleItemUpdated_in_order e st :
  indexes_in_order st → orderly st (EvItemUpdated e) →
  indexes_in_order (handleItemUpdated e st).
Proof.
  intros Hin Hord. pose proof Hin as (Hwf & _).
  destruct (Listing_load (updatedKey e) st) as [l|] eqn:Hload;
    [|by rewrite handleItemUpdated_absent].
  destruct (handleItemUpdated_recalc e st l Hwf Hload)
    as (st1 & Heq & Hwf1 & Ecol & Elis).
  rewrite (handleItemUpdated_listings e st l Hwf Hload) in Elis.
  rewrite Heq. clear Heq.
  cbn [orderly] in Hord.
  rewrite (activeListing_stored st _ l Hload) in Hord.
  apply (touched_then_recalc _ st st1 (updatedKey e)); [done|done|done| | |].
  - intros k' Hne. apply activeListing_lookup. rewrite Elis.
    by rewrite lookup_insert_ne by (by apply not_eq_sym).
  - unfold filedUnder. rewrite (activeListing_stored st _ l Hload).
    destruct (Listing.isActive l); [apply Hord|done].
  - unfold activeListing at 1. unfold Listing_load.
    rewrite Elis, lookup_insert_eq.
    rewrite (activeListing_stored st _ l Hload).
    match goal with
    | |- context [Listing.isActive ?L] =>
        replace (Listing.isActive L) with (Listing.isActive l)
          by (apply isActive_same_status; by destruct (_ =? _))
    end.
    destruct (Listing.isActive l); [|done].
    exists l. split; [done|]. destruct Hord as [Hp _].
    split; [by destruct (_ =? _)|exact Hp].
Qed.

(** *** ItemSold *)

Lemma handleItemSold_in_order e st :
  indexes_in_order st → orderly st (EvItemSold e) →
  indexes_in_order (handleItemSold e st).
Proof.
  intros Hin (Hfiled & Hlk & Hsk). pose proof Hin as (Hwf & Hsound & Hcomp & _).
  destruct (handleItemSold_recalc e st Hwf) as (st1 & Heq & Hwf1 & Ecol & Elis).
  destruct (handleItemSold_tables e st Hwf) as (_ & S & HS & _ & Hst & _).
  rewrite <- Elis in HS. clear Elis. rewrite Heq. clear Heq.
  set (k := soldKey e) in *.
  set (l := getOrCreateListing k st) in *.
  set (sk := soldId k (Listing.blockTimestamp l)) in *.
  set (lk := soldId k (logIndex e)) in *.
  assert (Hk1 : sk ≠ k) by apply soldId_ne.
  assert (Hk2 : lk ≠ k) by apply soldId_ne.
  apply (touched_then_recalc _ st st1 k); [done|done|done| |done|].
  - intros k' Hne.
    destruct (decide (k' = sk)) as [->|Hne1].
    { rewrite Hsk. unfold activeListing, Listing_load.
      rewrite HS, lookup_insert_eq.
      by rewrite (isActive_false_status S (Some "Sold")). }
    destruct (decide (k' = lk)) as [->|Hne2].
    { rewrite Hlk. apply activeListing_absent. unfold Listing_load.
      rewrite HS, lookup_insert_ne by (by apply not_eq_sym).
      apply lookup_delete_eq. }
    apply activeListing_lookup. rewrite HS.
    rewrite lookup_insert_ne by (by apply not_eq_sym).
    rewrite lookup_delete_ne by (by apply not_eq_sym).
    unfold afterSale. destruct (_ =? _).
    + by rewrite lookup_delete_ne by (by apply not_eq_sym).
    + by rewrite lookup_insert_ne by (by apply not_eq_sym).
  - unfold activeListing at 1. unfold Listing_load. rewrite HS.
    rewrite lookup_insert_ne by done. rewrite lookup_delete_ne by done.
    unfold afterSale. destruct (_ =? _).
    + by rewrite lookup_delete_eq.
    + rewrite lookup_insert_eq.
      replace (Listing.isActive
                 (Listing.set_quantity
                    (Listing.quantity l - ItemSold.quantity (params e)) l))
        with (Listing.isActive l) by (by apply isActive_same_status).
      destruct (Listing.isActive l) eqn:Hact; [|done].
      assert (Hl : activeListing st k = Some l).
      { subst l. unfold getOrCreateListing in *.
        destruct (Listing_load k st) as [l'|] eqn:Hload.
        - cbn [default id] in *. by rewrite (activeListing_stored st k l' Hload), Hact.
        - cbn [default id] in Hact. discriminate Hact. }
      exists l. split; [done|]. split; [done|].
      exact (active_price_nonzero st k l Hsound Hcomp Hl).
Qed.

(** *** ItemSold, staging *)

Lemma handleItemSoldStaging_in_order e st :
  indexes_in_order st → indexes_in_order (handleItemSoldStaging e st).
Proof.
  intros Hin. pose proof Hin as (Hwf & _).
  apply (indexes_in_order_ext st); [by apply handleItemSoldStaging_wf| | |done].
  - unfold handleItemSoldStaging.
    destruct (UserToken_load _ st) as [u|]; [|done]. by destruct (_ =? _).
  - apply (handleItemSoldStaging_tables e st Hwf).
Qed.

(** *** ItemListed *)

Lemma handleItemListed_in_order e st :
  indexes_in_order st → orderly st (EvItemListed e) →
  indexes_in_order (handleItemListed e st).
Proof.
  intros (Hwf & Hsound & Hcomp & Hfloor) (Hprice & Hnone).
  set (st1 := handleItemListed e st).
  set (k := listedKey e) in *.
  set (p := ItemListed.pricePerItem (params e)) in *.
  assert (Hwf1 : store_wf st1) by (by apply handleItemListed_wf).
  destruct (handleItemListed_collections e st Hwf)
    as (c1 & Hcols & _ & _ & _ & Hfl & Hids & _).
  fold st1 k p in Hcols, Hfl, Hids.
  set (cid := Token.collection
                (getOrCreateToken
                   (getTokenId (ItemListed.nftAddress (params e))
                               (ItemListed.tokenId (params e))) st)) in *.
  set (old := getOrCreateCollection cid st) in *.
  destruct (handleItemListed_listings e st Hwf)
    as (L & HL & _ & HstL & _ & HpL & _).
  fold st1 k p in HL, HpL.
  destruct (handleItemListed_listing e st Hwf)
    as (L' & HL' & _ & _ & _ & _ & _ & _ & HcL & _).
  fold st1 k cid in HL', HcL.
  assert (L' = L) as ->.
  { unfold Listing_load in HL'. rewrite HL, lookup_insert_eq in HL'.
    by injection HL' as <-. }
  assert (HactL : activeListing st1 k = Some L).
  { unfold activeListing, Listing_load. rewrite HL, lookup_insert_eq.
    by rewrite (isActive_status L HstL). }
  assert (Hrest : ∀ k', k' ≠ k → activeListing st1 k' = activeListing st k').
  { intros k' Hne. apply activeListing_lookup. rewrite HL.
    by rewrite lookup_insert_ne by (by apply not_eq_sym). }
  assert (Hnotin : ∀ cid' c, Collection_load cid' st = Some c →
                             k ∉ Collection.listingIds c).
  { intros cid' c Hc Hk.
    destruct (Hsound cid' c Hc) as [_ Hall]. rewrite Forall_forall in Hall.
    destruct (Hall k Hk) as (l & Hl & _). rewrite Hnone in Hl. discriminate Hl. }
  assert (Hsame : ∀ cid' c, Collection_load cid' st = Some c →
            ∀ k', k' ∈ Collection.listingIds c →
                  activeListing st1 k' = activeListing st k').
  { intros cid' c Hc k' Hk'. apply Hrest. intros ->. by apply (Hnotin cid' c). }
  assert (Hold : NoDup (Collection.listingIds old)
                 ∧ Forall (listedIn st cid) (Collection.listingIds old)
                 ∧ is_min_or_zero
                     (indexedActivePrices st (Collection.listingIds old))
                     (Collection.floorPrice old)
                 ∧ (k ∉ Collection.listingIds old)
                 ∧ (∀ c, Collection_load cid st = Some c → c = old)).
  { subst old. unfold getOrCreateCollection.
    destruct (Collection_load cid st) as [c|] eqn:Hc; cbn [default id].
    - destruct (Hsound cid c Hc) as [Hnd Hall].
      split; [done|]. split; [done|]. split; [exact (Hfloor cid c Hc)|].
      split; [by apply (Hnotin cid c)|]. by intros c' [= <-].
    - cbn [new_Collection Collection.listingIds Collection.floorPrice].
      split; [constructor|]. split; [constructor|]. split; [done|].
      split; [apply not_elem_of_nil|]. by intros c'. }
  destruct Hold as (Hnd & Hall & Hmin & Hk & Hstored).
  assert (Hsame_old : ∀ k', k' ∈ Collection.listingIds old →
                            activeListing st1 k' = activeListing st k')
    by (intros k' Hk'; apply Hrest; intros ->; by apply Hk).
  assert (Hload1 : ∀ cid', cid' ≠ cid →
                           Collection_load cid' st1 = Collection_load cid' st).
  { intros cid' Hne. unfold Collection_load. rewrite Hcols.
    by rewrite lookup_insert_ne by (by apply not_eq_sym). }
  assert (Hc1 : Collection_load cid st1 = Some c1)
    by (unfold Collection_load; rewrite Hcols; apply lookup_insert_eq).
  split; [done|]. split; [|split].
  - intros cid' c Hc. destruct (decide (cid' = cid)) as [->|Hne].
    + rewrite Hc1 in Hc. injection Hc as <-. rewrite Hids. split.
      * apply NoDup_app. split; [done|]. split; [|apply NoDup_singleton].
        intros x Hx Hx'. apply list_elem_of_singleton in Hx' as ->. by apply Hk.
      * apply Forall_app. split.
        -- by apply (listedIn_Forall_ext st).
        -- constructor; [|constructor]. exists L. by rewrite HpL.
    + rewrite (Hload1 cid' Hne) in Hc.
      destruct (Hsound cid' c Hc) as [Hnd' Hall']. split; [done|].
      apply (listedIn_Forall_ext st); [|done]. by apply (Hsame cid' c).
  - intros k' l Hl. destruct (decide (k' = k)) as [->|Hne].
    + rewrite HactL in Hl. injection Hl as <-.
      exists c1. rewrite HcL. split; [done|].
      rewrite Hids. apply elem_of_app. right. apply list_elem_of_here.
    + rewrite (Hrest k' Hne) in Hl.
      destruct (Hcomp k' l Hl) as (c & Hc & Hk').
      destruct (decide (Listing.collection l = cid)) as [E|Hne'].
      * rewrite E in *. rewrite (Hstored c Hc) in Hk'.
        exists c1. split; [done|]. rewrite Hids. apply elem_of_app. by left.
      * exists c. by rewrite (Hload1 _ Hne').
  - intros cid' c Hc. destruct (decide (cid' = cid)) as [->|Hne].
    + rewrite Hc1 in Hc. injection Hc as <-. rewrite Hfl, Hids.
      rewrite indexedActivePrices_app.
      rewrite (indexedActivePrices_ext st st1) by done.
      replace (indexedActivePrices st1 [k]) with [p].
      * apply floorStep_keeps_min; [|done|done].
        by apply (indexedActivePrices_nonzero st cid).
      * unfold indexedActivePrices. cbn [omap list_omap].
        rewrite activePrice_activeListing, HactL.
        cbn [fmap option_fmap option_map omap list_omap]. by rewrite HpL.
    + rewrite (Hload1 cid' Hne) in Hc.
      rewrite (indexedActivePrices_ext st st1) by (by apply (Hsame cid' c)).
      exact (Hfloor cid' c Hc).
Qed.

(** ** Runs *)

Lemma handle_in_order ev st :
  indexes_in_order st → orderly st ev → indexes_in_order (handle ev st).
Proof.
  intros Hin Hord. destruct ev; cbn [handle]; try done.
  - by apply handleItemListed_in_order.
  - by apply handleItemUpdated_in_order.
  - by apply handleItemCanceled_in_order.
  - by apply handleItemSold_in_order.
  - by apply handleItemSoldStaging_in_order.
Qed.

Lemma replay_in_order evs : ∀ st,
  indexes_in_order st → orderlyAll st evs → indexes_in_order (replay evs st).
Proof.
  induction evs as [|ev evs IH]; intros st Hin Hord; [done|].
  destruct Hord as [Hev Hord]. cbn [replay foldl].
  apply IH; [by apply handle_in_order|done].
Qed.

Lemma empty_store_in_order : indexes_in_order empty_store.
Proof.
  split; [apply empty_store_wf|]. split; [|split].
  - intros cid c Hc. unfold Collection_load in Hc. cbn [empty_store collections] in Hc.
    by rewrite lookup_empty in Hc.
  - intros k l Hl. unfold activeListing, Listing_load in Hl.
    cbn [empty_store listings] in Hl. by rewrite lookup_empty in Hl.
  - intros cid c Hc. unfold Collection_load in Hc. cbn [empty_store collections] in Hc.
    by rewrite lookup_empty in Hc.
Qed.

(** C1, amended.  Take a store whose indexes are in order: it is
    well-formed, each collection's index holds, without repetition, keys of
    stored Active listings that reference the collection and are not priced
    zero, every stored Active listing is in the index of the collection it
    references, and floor correctness holds (the empty store is such a
    store).  After any sequence of orderly events, processed from that
    store, floor correctness holds: the floorPrice of every stored
    collection is the minimum pricePerItem over all stored Active listings
    that reference it, or zero if there are none.  An event is orderly in
    the store it is handled in when a listing is not priced zero and finds
    no Active listing under its key; an update of an Active listing does
    not price it zero; an update, cancellation or sale of an Active listing
    names the contract whose collection the listing references; and a sale
    finds no Active listing under the two keys at which it deletes and
    writes its Sold record. *)
Theorem floor_correct_along_orderly_runs (evs : list MarketEvent) (st : Store) :
  store_wf st → index_sound st → index_complete st → floor_correct st →
  orderlyAll st evs →
  floor_correct (replay evs st).
Proof.
  intros Hwf Hsound Hcomp Hfloor Hord.
  assert (Hin : indexes_in_order st).
  { split; [done|]. split; [done|]. split; [done|].
    by apply floor_correct_over_index. }
  destruct (replay_in_order evs st Hin Hord) as (_ & Hs & Hc & Hf).
  by apply floor_over_index_correct.
Qed.

Lemma floor_correct_along_orderly_runs_witness :
  floor_correct (replay Sample.listUpdateSell Sample.seeded).
Proof.
  assert (Hwf : store_wf Sample.seeded)
    by (apply store_wfb_wf; vm_compute; reflexivity).
  assert (Hsound : index_sound Sample.seeded).
  { intros cid c Hc. unfold Collection_load in Hc.
    cbn [Sample.seeded collections] in Hc.
    apply lookup_singleton_Some in Hc as [_ <-].
    split; constructor. }
  assert (Hcomp : index_complete Sample.seeded).
  { intros k l Hl. unfold activeListing, Listing_load in Hl.
    cbn [Sample.seeded listings] in Hl. by rewrite lookup_empty in Hl. }
  assert (Hfloor : floor_correct Sample.seeded).
  { intros cid c Hc. unfold Collection_load in Hc.
    cbn [Sample.seeded collections] in Hc.
    apply lookup_singleton_Some in Hc as [_ <-].
    assert (Hp : ∀ p, p ∉ referencingActivePrices Sample.seeded cid).
    { intros p Hp. unfold referencingActivePrices in Hp.
      apply list_elem_of_fmap in Hp as (kl & _ & Hin).
      apply list_elem_of_filter in Hin as [_ Hin].
      cbn [Sample.seeded listings] in Hin.
      rewrite map_to_list_empty in Hin. by apply elem_of_nil in Hin. }
    destruct (referencingActivePrices Sample.seeded cid) as [|p ps];
      [reflexivity|].
    exfalso. apply (Hp p). apply list_elem_of_here. }
  assert (H1 : orderly Sample.seeded (EvItemListed (Sample.listed 5 3 100))).
  { split; [cbn; lia|vm_compute; reflexivity]. }
  assert (H2 : orderly (handle (EvItemListed (Sample.listed 5 3 100))
                               Sample.seeded)
                       (EvItemUpdated (Sample.updated 7 3 101))).
  { vm_compute. split; [intros H; discriminate H|reflexivity]. }
  assert (H3 : orderly (handle (EvItemUpdated (Sample.updated 7 3 101))
                          (handle (EvItemListed (Sample.listed 5 3 100))
                                  Sample.seeded))
                       (EvItemSold Sample.saleOne)).
  { vm_compute. repeat split. }
  exact (floor_correct_along_orderly_runs Sample.listUpdateSell Sample.seeded
           Hwf Hsound Hcomp Hfloor (conj H1 (conj H2 (conj H3 I)))).
Defined.
